(** * jedisasm: JEDEC fuse-map disassembler for PAL16L8 / GAL16V8

    A shallow embedding of [jedisasm.py] and the verification of its
    specification.  Python integers are [Z], Python lists are [list],
    file contents and JEDEC commands are [list ascii] (one element per
    character returned by [fp.read(1)]), pin and signal names are [string].
    Every operation that can raise in Python lives in the [result] monad. *)

From Stdlib Require Import Ascii String.
From Stdlib Require Import ZArith List Bool Lia Sorted DecimalString.
Import ListNotations.
Open Scope Z_scope.

(** ** Exceptions and the error monad *)

Inductive exn : Type :=
| IndexError
| ValueError
| TypeError (msg : string).

Inductive result (A : Type) : Type :=
| Ok (a : A)
| Raise (e : exn).
Arguments Ok {A} a.
Arguments Raise {A} e.

Definition bind {A B} (m : result A) (k : A -> result B) : result B :=
  match m with
  | Ok a => k a
  | Raise e => Raise e
  end.

Notation "x <- m ;; k" := (bind m (fun x => k))
  (at level 61, m at next level, right associativity).

(** ** Python list indexing *)

(** [l[i]]: a negative index counts from the end, anything outside
    [-len, len) raises [IndexError]. *)
Definition py_index {A} (l : list A) (i : Z) : option nat :=
  let n := Z.of_nat (length l) in
  if (0 <=? i) && (i <? n) then Some (Z.to_nat i)
  else if (- n <=? i) && (i <? 0) then Some (Z.to_nat (i + n))
  else None.

Definition getitem {A} (l : list A) (i : Z) : result A :=
  match py_index l i with
  | Some k => match nth_error l k with
              | Some x => Ok x
              | None => Raise IndexError
              end
  | None => Raise IndexError
  end.

Fixpoint update {A} (l : list A) (k : nat) (v : A) : list A :=
  match l, k with
  | [], _ => []
  | _ :: t, O => v :: t
  | h :: t, S k' => h :: update t k' v
  end.

(** [l[i] = v] *)
Definition setitem {A} (l : list A) (i : Z) (v : A) : result (list A) :=
  match py_index l i with
  | Some k => Ok (update l k v)
  | None => Raise IndexError
  end.

(** [range(a, b)] and [range(a, b, step)] for a positive [step]. *)
Definition py_range (a b : Z) : list Z :=
  map (fun k => a + Z.of_nat k) (seq 0 (Z.to_nat (b - a))).

Definition py_range_step (a b step : Z) : list Z :=
  map (fun k => a + step * Z.of_nat k)
      (seq 0 (Z.to_nat ((b - a + step - 1) / step))).

(** ** Term decoder *)

Definition fusemap_t := list Z.
Definition ANDList := list Z.
Definition ORList := list ANDList.

(** The body of the [for] loop of [is_term_nonzero], over the remaining
    values of the range. *)
Fixpoint is_term_nonzero_loop (fusemap : fusemap_t) (rng : list Z) : result bool :=
  match rng with
  | [] => Ok true
  | i :: rng' =>
      a <- getitem fusemap i ;;
      if a =? 0 then
        b <- getitem fusemap (i + 1) ;;
        if b =? 0 then Ok false else is_term_nonzero_loop fusemap rng'
      else is_term_nonzero_loop fusemap rng'
  end.

Definition is_term_nonzero (fusemap : fusemap_t) (indices : Z * Z) : result bool :=
  is_term_nonzero_loop fusemap (py_range_step (fst indices) (snd indices) 2).

(** The list comprehension of [collect_and_terms]. *)
Fixpoint collect_and_terms_loop (fusemap : fusemap_t) (start : Z) (rng : list Z)
  : result ANDList :=
  match rng with
  | [] => Ok []
  | i :: rng' =>
      v <- getitem fusemap (start + i) ;;
      rest <- collect_and_terms_loop fusemap start rng' ;;
      Ok (if v =? 0 then i :: rest else rest)
  end.

Definition collect_and_terms (fusemap : fusemap_t) (indices : Z * Z) : result ANDList :=
  collect_and_terms_loop fusemap (fst indices)
                         (py_range 0 (snd indices - fst indices)).

(** ** Python string builtins, on the characters of a [str] *)

Definition str := list ascii.

Definition lit (s : string) : str := list_ascii_of_string s.

Definition STAR : ascii := "*"%char.
Definition ETX : ascii := "003"%char.
Definition CR : ascii := "013"%char.
Definition LF : ascii := "010"%char.
Definition SPACE : ascii := " "%char.

(** [str.isspace] on the code points 0..255. *)
Definition py_isspace (c : ascii) : bool :=
  let n := nat_of_ascii c in
  ((9 <=? n) && (n <=? 13) || (28 <=? n) && (n <=? 32)
   || (n =? 133) || (n =? 160))%nat.

Definition is_digit (c : ascii) : bool :=
  let n := nat_of_ascii c in ((48 <=? n) && (n <=? 57))%nat.

Definition digit_value (c : ascii) : Z := Z.of_nat (nat_of_ascii c) - 48.

Fixpoint lstrip (s : str) : str :=
  match s with
  | [] => []
  | c :: s' => if py_isspace c then lstrip s' else s
  end.

Definition rstrip (s : str) : str := rev (lstrip (rev s)).

Fixpoint startswith (s prefix : str) : bool :=
  match prefix, s with
  | [], _ => true
  | _ :: _, [] => false
  | p :: prefix', c :: s' => Ascii.eqb c p && startswith s' prefix'
  end.

(** The digits of an [int] literal: decimal digits, single underscores
    allowed between two digits. [seen] tells whether the previous character
    was a digit. *)
Fixpoint parse_digits (acc : Z) (seen : bool) (s : str) : option Z :=
  match s with
  | [] => if seen then Some acc else None
  | c :: s' =>
      if is_digit c then parse_digits (10 * acc + digit_value c) true s'
      else if Ascii.eqb c "_"%char && seen then parse_digits acc false s'
      else None
  end.

(** The blanks [int] drops around a numeral, on the code points 0..255: the
    white space of C and the two Latin-1 spaces U+0085 and U+00A0.  Unlike
    [str.isspace], the separators U+001C..U+001F are not among them. *)
Definition int_isspace (c : ascii) : bool :=
  let n := nat_of_ascii c in
  ((9 <=? n) && (n <=? 13) || (n =? 32) || (n =? 133) || (n =? 160))%nat.

Fixpoint int_lstrip (s : str) : str :=
  match s with
  | [] => []
  | c :: s' => if int_isspace c then int_lstrip s' else s
  end.

Definition int_strip (s : str) : str := int_lstrip (rev (int_lstrip (rev s))).

(** [int(s, 10)]: surrounding blanks are dropped, one sign is allowed;
    anything else raises [ValueError].  The bound on the number of digits
    ([sys.set_int_max_str_digits], 4300 by default from Python 3.11 on) is an
    interpreter setting and is left out: [py_int] is [int] with the bound
    switched off. *)
Definition py_int (s : str) : result Z :=
  let parsed :=
    match int_strip s with
    | c :: t =>
        if Ascii.eqb c "+"%char then parse_digits 0 false t
        else if Ascii.eqb c "-"%char then option_map Z.opp (parse_digits 0 false t)
        else parse_digits 0 false (c :: t)
    | [] => None
    end in
  match parsed with
  | Some n => Ok n
  | None => Raise ValueError
  end.

(** The first run of non-blank characters of [s], and what follows it. *)
Fixpoint split_word (s : str) : str * str :=
  match s with
  | [] => ([], [])
  | c :: s' =>
      if py_isspace c then ([], s)
      else let (w, r) := split_word s' in (c :: w, r)
  end.

(** [s.split(maxsplit=1)] *)
Definition py_split1 (s : str) : list str :=
  match lstrip s with
  | [] => []
  | s1 =>
      let (w, r) := split_word s1 in
      match lstrip r with
      | [] => [w]
      | r' => [w; r']
      end
  end.

(** [s.replace(" ", "")] *)
Definition remove_spaces (s : str) : str :=
  filter (fun c => negb (Ascii.eqb c SPACE)) s.

(** ** JEDEC format parsing *)

(** [fp.read(1)]: the next character, or the empty string at end of file. *)
Definition read1 (fp : str) : option ascii * str :=
  match fp with
  | [] => (None, [])
  | c :: fp' => (Some c, fp')
  end.

(** The first loop of [jedec_commands]: every iteration consumes one
    character, so the loop is structural in the unread text.  [None]: end of
    file was reached and the generator returns; [Some fp]: the first ["*"]
    was read. *)
Fixpoint skip_preamble (fp : str) : option str :=
  match fp with
  | [] => None
  | delim :: fp' => if Ascii.eqb delim STAR then Some fp' else skip_preamble fp'
  end.

(** The inner [while ch != "*"] loop; one unit of fuel per iteration.
    [ch] is the last string returned by [fp.read(1)] ([None] is [""]).
    - [None]: the fuel ran out, the loop is still running;
    - [Some None]: ETX was read, the generator returns;
    - [Some (Some (buffer, fp))]: a ["*"] was read. *)
Fixpoint read_command (fuel : nat) (buffer : str) (ch : option ascii) (fp : str)
  : option (option (str * str)) :=
  match fuel with
  | O => None
  | S fuel' =>
      match ch with
      | Some c =>
          if Ascii.eqb c STAR then Some (Some (buffer, fp))
          else if Ascii.eqb c ETX then Some None
          else
            let c' := if Ascii.eqb c CR || Ascii.eqb c LF then SPACE else c in
            let (ch', fp') := read1 fp in
            read_command fuel' (buffer ++ [c']) ch' fp'
      | None =>
          let (ch', fp') := read1 fp in
          read_command fuel' buffer ch' fp'
      end
  end.

(** A generator object of [jedec_commands]: not started yet, suspended at
    its [yield], or finished. *)
Inductive generator : Type :=
| GenStart (fp : str)
| GenSuspended (fp : str)
| GenDone.

Definition jedec_commands (fp : str) : generator := GenStart fp.

(** One turn of the [while True] loop, up to the [yield]. *)
Definition next_command (fuel : nat) (fp : str) : option (option str * generator) :=
  let (ch, fp') := read1 fp in
  match read_command fuel [] ch fp' with
  | None => None
  | Some None => Some (None, GenDone)
  | Some (Some (buffer, fp'')) => Some (Some (lstrip buffer), GenSuspended fp'')
  end.

(** [next(g)]: [Some (Some cmd, g')] for a yielded command,
    [Some (None, _)] for StopIteration, [None] when the fuel ran out. *)
Definition next (fuel : nat) (g : generator) : option (option str * generator) :=
  match g with
  | GenStart fp =>
      match skip_preamble fp with
      | None => Some (None, GenDone)
      | Some fp' => next_command fuel fp'
      end
  | GenSuspended fp => next_command fuel fp
  | GenDone => Some (None, GenDone)
  end.

(** The local variables of [load_jedec] during its first loop. *)
Record loader : Type := mkLoader {
  fuse_list : list str;
  num_fuses : option Z;
  default : Z
}.

(** The body of [for cmd in jedec_commands(fp)]. *)
Definition load_command (st : loader) (cmd : str) : result loader :=
  if startswith cmd (lit "QF") then
    n <- py_int (skipn 2 cmd) ;;
    Ok (mkLoader (fuse_list st) (Some n) (default st))
  else if startswith cmd (lit "F") then
    d <- py_int (skipn 1 cmd) ;;
    Ok (mkLoader (fuse_list st) (num_fuses st) d)
  else if startswith cmd (lit "L") then
    Ok (mkLoader (fuse_list st ++ [skipn 1 cmd]) (num_fuses st) (default st))
  else Ok st.

Fixpoint load_commands (fuel : nat) (g : generator) (st : loader)
  : option (result loader) :=
  match fuel with
  | O => None
  | S fuel' =>
      match next fuel g with
      | None => None
      | Some (None, _) => Some (Ok st)
      | Some (Some cmd, g') =>
          match load_command st cmd with
          | Raise e => Some (Raise e)
          | Ok st' => load_commands fuel' g' st'
          end
      end
  end.

(** [for fuse, state in zip(range(pos, pos+len(data)), data)] *)
Fixpoint write_fuses (fusemap : fusemap_t) (writes : list (Z * ascii))
  : result fusemap_t :=
  match writes with
  | [] => Ok fusemap
  | (fuse, state) :: writes' =>
      v <- py_int [state] ;;
      fusemap' <- setitem fusemap fuse v ;;
      write_fuses fusemap' writes'
  end.

(** The body of [for c in fuse_list]. *)
Definition write_command (fusemap : fusemap_t) (c : str) : result fusemap_t :=
  match py_split1 c with
  | [pos; data] =>
      let data := remove_spaces data in
      pos <- py_int pos ;;
      write_fuses fusemap
        (combine (py_range pos (pos + Z.of_nat (List.length data))) data)
  | _ => Raise ValueError
  end.

Fixpoint write_commands (fusemap : fusemap_t) (cs : list str) : result fusemap_t :=
  match cs with
  | [] => Ok fusemap
  | c :: cs' =>
      fusemap' <- write_command fusemap c ;;
      write_commands fusemap' cs'
  end.

Definition NoneType_range : exn :=
  TypeError "'NoneType' object cannot be interpreted as an integer".

(** [load_jedec(fp)]; [None] when [fuel] iterations were not enough. *)
Definition load_jedec (fuel : nat) (fp : str) : option (result fusemap_t) :=
  match load_commands fuel (jedec_commands fp) (mkLoader [] None 0) with
  | None => None
  | Some (Raise e) => Some (Raise e)
  | Some (Ok st) =>
      match num_fuses st with
      | None => Some (Raise NoneType_range)
      | Some n =>
          Some (write_commands (repeat (default st) (Z.to_nat n)) (fuse_list st))
      end
  end.

(** ** Names and formatting *)

(** ["%d" % n], ["%02d" % n] and ["%2d" % n] *)
Definition fmt_d (n : Z) : string := NilZero.string_of_int (Z.to_int n).

Definition fmt_02d (n : Z) : string :=
  let s := fmt_d n in
  if (String.length s <? 2)%nat then String "0"%char s else s.

Definition fmt_2d (n : Z) : string :=
  let s := fmt_d n in
  if (String.length s <? 2)%nat then String " "%char s else s.

(** [sep.join(items)] *)
Fixpoint py_join (sep : string) (items : list string) : string :=
  match items with
  | [] => EmptyString
  | [x] => x
  | x :: items' => (x ++ sep ++ py_join sep items')%string
  end.

(** [x[0]] raises on the empty string. *)
Definition inverted (x : string) : result string :=
  match x with
  | EmptyString => Raise IndexError
  | String c x' => if Ascii.eqb c "!"%char then Ok x' else Ok (String "!"%char x)
  end.

(** The value of an equation: an [ANDList] of literal indices, or an
    [ORList] of [ANDList]s. *)
Inductive expr : Type :=
| AND (terms : ANDList)
| OR (terms : ORList).

Definition eqn : Type := string * expr.

(** Truth value of a list: [if terms:] *)
Definition nonempty {A} (l : list A) : bool :=
  match l with
  | [] => false
  | _ :: _ => true
  end.

(** ** Device models *)

(** The instance attributes set by [PALBase.__init__]. *)
Record PALBase : Type := mkPALBase {
  fusemap : fusemap_t;
  pinmap : list string
}.

Definition default_pinmap : list string :=
  map (fun x => ("PIN" ++ fmt_02d x)%string) (py_range 1 21).

Definition PALBase_init (fusemap : fusemap_t) (pinmap : option (list string)) : PALBase :=
  match pinmap with
  | Some pm => mkPALBase fusemap pm
  | None => mkPALBase fusemap default_pinmap
  end.

Definition get_pin_name (self : PALBase) (pin : Z) : result string :=
  getitem (pinmap self) (pin - 1).

(** The loop of [PALBase.get_input_names], over an input map already
    computed by the device class. *)
Fixpoint input_names_loop (self : PALBase) (input_map : list (Z * bool))
  : result (list string) :=
  match input_map with
  | [] => Ok []
  | (pin, inv) :: input_map' =>
      name <- get_pin_name self pin ;;
      iname <- inverted name ;;
      names <- input_names_loop self input_map' ;;
      Ok (if inv : bool then iname :: name :: names else name :: iname :: names)
  end.

(** The loop shared, word for word, by the four [get_macrocell_eqns]:
    every live row with at least one literal is appended to [d_terms]. *)
Fixpoint append_terms (fusemap : fusemap_t) (terms_fuses : list (Z * Z))
         (d_terms : ORList) : result ORList :=
  match terms_fuses with
  | [] => Ok d_terms
  | term_fuses :: terms_fuses' =>
      live <- is_term_nonzero fusemap term_fuses ;;
      if live : bool then
        terms <- collect_and_terms fusemap term_fuses ;;
        append_terms fusemap terms_fuses'
                     (if nonempty terms then d_terms ++ [terms] else d_terms)
      else append_terms fusemap terms_fuses' d_terms
  end.

(** [[(s, s+32) for s in range(a, b, 32)]] *)
Definition rows (a b : Z) : list (Z * Z) :=
  map (fun s => (s, s + 32)) (py_range_step a b 32).

Definition incorrect_device : exn := TypeError "incorrect device chosen".

Module P16L8.

Record OLMC : Type := mkOLMC {
  pin : Z;
  oe_fuses : Z * Z;
  terms_fuses : list (Z * Z)
}.

Definition pin_count : Z := 20.

Definition macrocell_config : list OLMC := [
  mkOLMC 19 (   0,   32) (rows   32  256);
  mkOLMC 18 ( 256,  288) (rows  288  512);
  mkOLMC 17 ( 512,  544) (rows  544  768);
  mkOLMC 16 ( 768,  800) (rows  800 1024);
  mkOLMC 15 (1024, 1056) (rows 1056 1280);
  mkOLMC 14 (1280, 1312) (rows 1312 1536);
  mkOLMC 13 (1536, 1568) (rows 1568 1792);
  mkOLMC 12 (1792, 1824) (rows 1824 2048)
].

Definition init (fusemap : fusemap_t) (pinmap : option (list string)) : result PALBase :=
  Ok (PALBase_init fusemap pinmap).

Definition is_out_inverted (self : PALBase) (p : Z) : result bool :=
  match find (fun config => pin config =? p) macrocell_config with
  | None => Ok false
  | Some config => is_term_nonzero (fusemap self) (oe_fuses config)
  end.

Definition get_input_map (self : PALBase) : result (list (Z * bool)) :=
  i18 <- is_out_inverted self 18 ;;
  i17 <- is_out_inverted self 17 ;;
  i16 <- is_out_inverted self 16 ;;
  i15 <- is_out_inverted self 15 ;;
  i14 <- is_out_inverted self 14 ;;
  i13 <- is_out_inverted self 13 ;;
  Ok [ ( 2, false); ( 1, false); ( 3, false); (18, i18);
       ( 4, false); (17, i17);   ( 5, false); (16, i16);
       ( 6, false); (15, i15);   ( 7, false); (14, i14);
       ( 8, false); (13, i13);   ( 9, false); (11, false) ].

Definition get_macrocell_eqns (self : PALBase) (config : OLMC) : result (list eqn) :=
  name <- get_pin_name self (pin config) ;;
  live <- is_term_nonzero (fusemap self) (oe_fuses config) ;;
  eqns <- (if live : bool then
             oe_terms <- collect_and_terms (fusemap self) (oe_fuses config) ;;
             Ok (if nonempty oe_terms then [((name ++ ".oe")%string, AND oe_terms)] else [])
           else Ok []) ;;
  d_terms <- append_terms (fusemap self) (terms_fuses config) [] ;;
  Ok (if nonempty d_terms then eqns ++ [(name, OR d_terms)] else eqns).

Definition get_macrocell_cmt (self : PALBase) (config : OLMC) : result (list string) :=
  Ok [].

End P16L8.

Module G16V8xx.

Record OLMC : Type := mkOLMC {
  pin : Z;
  oe_fuses : Z * Z;
  terms_fuses : list (Z * Z);
  ac1_fuse : Z;
  xor_fuse : Z
}.

Definition pin_count : Z := 20.

Definition macrocell_config : list OLMC := [
  mkOLMC 19 (   0,   32) (rows   32  256) 2120 2048;
  mkOLMC 18 ( 256,  288) (rows  288  512) 2121 2049;
  mkOLMC 17 ( 512,  544) (rows  544  768) 2122 2050;
  mkOLMC 16 ( 768,  800) (rows  800 1024) 2123 2051;
  mkOLMC 15 (1024, 1056) (rows 1056 1280) 2124 2052;
  mkOLMC 14 (1280, 1312) (rows 1312 1536) 2125 2053;
  mkOLMC 13 (1536, 1568) (rows 1568 1792) 2126 2054;
  mkOLMC 12 (1792, 1824) (rows 1824 2048) 2127 2055
].

Definition find_config (p : Z) : option OLMC :=
  find (fun config => pin config =? p) macrocell_config.

Definition get_macrocell_cmt (self : PALBase) (config : OLMC) : result (list string) :=
  ac1 <- getitem (fusemap self) (ac1_fuse config) ;;
  xor <- getitem (fusemap self) (xor_fuse config) ;;
  Ok [("Pin " ++ fmt_d (pin config) ++ "; AC1:" ++ fmt_d ac1
        ++ "; XOR:" ++ fmt_d xor)%string].

(** [not fusemap[ac1_fuse] and not fusemap[xor_fuse]], as the Registered
    and Simple classes both write it. *)
Definition ac1_and_xor_clear (self : PALBase) (config : OLMC) : result bool :=
  ac1 <- getitem (fusemap self) (ac1_fuse config) ;;
  if ac1 =? 0 then
    xor <- getitem (fusemap self) (xor_fuse config) ;;
    Ok (xor =? 0)
  else Ok false.

End G16V8xx.

Module G16V8MA.
Import G16V8xx.

Definition init (fusemap : fusemap_t) (pinmap : option (list string)) : result PALBase :=
  let self := PALBase_init fusemap pinmap in
  f2192 <- getitem fusemap 2192 ;;
  mismatch <- (if negb (f2192 =? 1) then Ok true
               else f2193 <- getitem fusemap 2193 ;; Ok (negb (f2193 =? 1))) ;;
  if mismatch : bool then Raise incorrect_device else Ok self.

Definition is_out_inverted (self : PALBase) (p : Z) : result bool :=
  match find_config p with
  | None => Ok false
  | Some config =>
      live <- is_term_nonzero (fusemap self) (oe_fuses config) ;;
      if live : bool then
        xor <- getitem (fusemap self) (xor_fuse config) ;;
        Ok (xor =? 0)
      else Ok false
  end.

Definition get_input_map (self : PALBase) : result (list (Z * bool)) :=
  i18 <- is_out_inverted self 18 ;;
  i17 <- is_out_inverted self 17 ;;
  i16 <- is_out_inverted self 16 ;;
  i15 <- is_out_inverted self 15 ;;
  i14 <- is_out_inverted self 14 ;;
  i13 <- is_out_inverted self 13 ;;
  Ok [ ( 2, false); ( 1, false); ( 3, false); (18, i18);
       ( 4, false); (17, i17);   ( 5, false); (16, i16);
       ( 6, false); (15, i15);   ( 7, false); (14, i14);
       ( 8, false); (13, i13);   ( 9, false); (11, false) ].

Definition get_macrocell_eqns (self : PALBase) (config : OLMC) : result (list eqn) :=
  name <- get_pin_name self (pin config) ;;
  live <- is_term_nonzero (fusemap self) (oe_fuses config) ;;
  eqns <- (if live : bool then
             oe_terms <- collect_and_terms (fusemap self) (oe_fuses config) ;;
             Ok (if nonempty oe_terms then [((name ++ ".oe")%string, AND oe_terms)] else [])
           else Ok []) ;;
  d_terms <- append_terms (fusemap self) (terms_fuses config) [] ;;
  Ok (if nonempty d_terms then eqns ++ [(name, OR d_terms)] else eqns).

End G16V8MA.

Module G16V8MS.
Import G16V8xx.

Definition init (fusemap : fusemap_t) (pinmap : option (list string)) : result PALBase :=
  let self := PALBase_init fusemap pinmap in
  f2192 <- getitem fusemap 2192 ;;
  mismatch <- (if negb (f2192 =? 0) then Ok true
               else f2193 <- getitem fusemap 2193 ;; Ok (negb (f2193 =? 1))) ;;
  if mismatch : bool then Raise incorrect_device else Ok self.

Definition is_out_inverted (self : PALBase) (p : Z) : result bool :=
  match find_config p with
  | None => Ok false
  | Some config => ac1_and_xor_clear self config
  end.

Definition get_input_map (self : PALBase) : result (list (Z * bool)) :=
  i19 <- is_out_inverted self 19 ;;
  i18 <- is_out_inverted self 18 ;;
  i17 <- is_out_inverted self 17 ;;
  i16 <- is_out_inverted self 16 ;;
  i15 <- is_out_inverted self 15 ;;
  i14 <- is_out_inverted self 14 ;;
  i13 <- is_out_inverted self 13 ;;
  i12 <- is_out_inverted self 12 ;;
  Ok [ ( 2, false); (19, i19); ( 3, false); (18, i18);
       ( 4, false); (17, i17); ( 5, false); (16, i16);
       ( 6, false); (15, i15); ( 7, false); (14, i14);
       ( 8, false); (13, i13); ( 9, false); (12, i12) ].

Definition get_macrocell_eqns (self : PALBase) (config : OLMC) : result (list eqn) :=
  name <- get_pin_name self (pin config) ;;
  live <- is_term_nonzero (fusemap self) (oe_fuses config) ;;
  oe_terms <- (if live : bool then collect_and_terms (fusemap self) (oe_fuses config)
               else Ok []) ;;
  d_terms <- append_terms (fusemap self) (terms_fuses config) [] ;;
  ac1 <- getitem (fusemap self) (ac1_fuse config) ;;
  if negb (ac1 =? 0) then
    let eqns := if nonempty oe_terms then [((name ++ ".oe")%string, AND oe_terms)] else [] in
    Ok (if nonempty d_terms then eqns ++ [(name, OR d_terms)] else eqns)
  else
    let d_terms := if nonempty oe_terms then oe_terms :: d_terms else d_terms in
    Ok (if nonempty d_terms then [((name ++ ".d")%string, OR d_terms)] else []).

End G16V8MS.

Module G16V8AS.
Import G16V8xx.

Definition init (fusemap : fusemap_t) (pinmap : option (list string)) : result PALBase :=
  let self := PALBase_init fusemap pinmap in
  f2192 <- getitem fusemap 2192 ;;
  mismatch <- (if negb (f2192 =? 1) then Ok true
               else f2193 <- getitem fusemap 2193 ;; Ok (negb (f2193 =? 0))) ;;
  if mismatch : bool then Raise incorrect_device else Ok self.

Definition is_out_inverted (self : PALBase) (p : Z) : result bool :=
  match find_config p with
  | None => Ok false
  | Some config => ac1_and_xor_clear self config
  end.

Definition get_input_map (self : PALBase) : result (list (Z * bool)) :=
  i19 <- is_out_inverted self 19 ;;
  i18 <- is_out_inverted self 18 ;;
  i17 <- is_out_inverted self 17 ;;
  i14 <- is_out_inverted self 14 ;;
  i13 <- is_out_inverted self 13 ;;
  i12 <- is_out_inverted self 12 ;;
  Ok [ ( 2, false); ( 1, false); ( 3, false); (19, i19);
       ( 4, false); (18, i18);   ( 5, false); (17, i17);
       ( 6, false); (14, i14);   ( 7, false); (13, i13);
       ( 8, false); (12, i12);   ( 9, false); (11, false) ].

Definition get_macrocell_eqns (self : PALBase) (config : OLMC) : result (list eqn) :=
  ac1 <- getitem (fusemap self) (ac1_fuse config) ;;
  if ac1 =? 0 then
    name <- get_pin_name self (pin config) ;;
    live <- is_term_nonzero (fusemap self) (oe_fuses config) ;;
    d_terms <- (if live : bool then
                  terms <- collect_and_terms (fusemap self) (oe_fuses config) ;;
                  Ok (if nonempty terms then [terms] else [])
                else Ok []) ;;
    d_terms <- append_terms (fusemap self) (terms_fuses config) d_terms ;;
    Ok (if nonempty d_terms then [(name, OR d_terms)] else [])
  else Ok [].

End G16V8AS.

(** ** Device classes and objects *)

(** What [generate_printout] uses of a device class. *)
Record device_class : Type := mkClass {
  OLMC : Type;
  pin_count : Z;
  macrocell_config : list OLMC;
  init : fusemap_t -> option (list string) -> result PALBase;
  get_input_map : PALBase -> result (list (Z * bool));
  is_out_inverted : PALBase -> Z -> result bool;
  get_macrocell_eqns : PALBase -> OLMC -> result (list eqn);
  get_macrocell_cmt : PALBase -> OLMC -> result (list string)
}.

Inductive variant : Type :=
| PAL16L8
| GAL16V8_Simple
| GAL16V8_Complex
| GAL16V8_Registered.

Definition class_of (v : variant) : device_class :=
  match v with
  | PAL16L8 =>
      mkClass P16L8.OLMC P16L8.pin_count P16L8.macrocell_config P16L8.init
              P16L8.get_input_map P16L8.is_out_inverted
              P16L8.get_macrocell_eqns P16L8.get_macrocell_cmt
  | GAL16V8_Simple =>
      mkClass G16V8xx.OLMC G16V8xx.pin_count G16V8xx.macrocell_config G16V8AS.init
              G16V8AS.get_input_map G16V8AS.is_out_inverted
              G16V8AS.get_macrocell_eqns G16V8xx.get_macrocell_cmt
  | GAL16V8_Complex =>
      mkClass G16V8xx.OLMC G16V8xx.pin_count G16V8xx.macrocell_config G16V8MA.init
              G16V8MA.get_input_map G16V8MA.is_out_inverted
              G16V8MA.get_macrocell_eqns G16V8xx.get_macrocell_cmt
  | GAL16V8_Registered =>
      mkClass G16V8xx.OLMC G16V8xx.pin_count G16V8xx.macrocell_config G16V8MS.init
              G16V8MS.get_input_map G16V8MS.is_out_inverted
              G16V8MS.get_macrocell_eqns G16V8xx.get_macrocell_cmt
  end.

(** A device object: its class and its instance attributes. *)
Record device : Type := mkDevice {
  kind : variant;
  self_of : PALBase
}.

(** Calling a class: [cls(fusemap, pinmap)]. *)
Definition new (v : variant) (fusemap : fusemap_t) (pinmap : option (list string))
  : result device :=
  self <- init (class_of v) fusemap pinmap ;;
  Ok (mkDevice v self).

Definition get_input_names (d : device) : result (list string) :=
  input_map <- get_input_map (class_of (kind d)) (self_of d) ;;
  input_names_loop (self_of d) input_map.

(** [a == x or b == y] and friends read the second fuse only when the first
    test fails. *)
Definition G16V8 (fusemap : fusemap_t) (pinmap : option (list string)) : result device :=
  f2192 <- getitem fusemap 2192 ;;
  c1 <- (if f2192 =? 1 then Ok true
         else f2193 <- getitem fusemap 2193 ;; Ok (f2193 =? 0)) ;;
  if c1 : bool then new GAL16V8_Simple fusemap pinmap
  else
    f2192 <- getitem fusemap 2192 ;;
    c2 <- (if f2192 =? 0 then Ok true
           else f2193 <- getitem fusemap 2193 ;; Ok (negb (f2193 =? 1))) ;;
    if c2 : bool then new GAL16V8_Registered fusemap pinmap
    else
      f2192 <- getitem fusemap 2192 ;;
      c3 <- (if f2192 =? 1 then Ok true
             else f2193 <- getitem fusemap 2193 ;; Ok (negb (f2193 =? 1))) ;;
      if c3 : bool then new GAL16V8_Complex fusemap pinmap
      else Raise incorrect_device.

(** ** Printing *)

Module CUPLPrinter.

Definition stringize_and (items : list string) : string := py_join " & " items.

Definition stringize_or (items : list string) : string :=
  py_join (String LF "  # ") items.

(** [[names[x] for x in value]] *)
Fixpoint lookup_names (names : list string) (value : ANDList) : result (list string) :=
  match value with
  | [] => Ok []
  | x :: value' =>
      n <- getitem names x ;;
      ns <- lookup_names names value' ;;
      Ok (n :: ns)
  end.

Definition stringize_term (names : list string) (value : ANDList) : result string :=
  items <- lookup_names names value ;;
  Ok (stringize_and items).

Fixpoint stringize_terms (names : list string) (value : ORList) : result (list string) :=
  match value with
  | [] => Ok []
  | t :: value' =>
      s <- stringize_term names t ;;
      ss <- stringize_terms names value' ;;
      Ok (s :: ss)
  end.

Definition stringize_list (value : expr) (names : list string) : result string :=
  match value with
  | AND terms => stringize_term names terms
  | OR terms =>
      items <- stringize_terms names terms ;;
      Ok (stringize_or items)
  end.

(** The text handed to [print] by each method. *)
Definition eqn_text (name : string) (items : expr) (names : list string) : result string :=
  body <- stringize_list items names ;;
  Ok (name ++ " =" ++ String LF "    " ++ body ++ ";")%string.

Definition pin_text (number : Z) (signal : string) : string :=
  ("Pin " ++ fmt_2d number ++ " = " ++ signal ++ ";")%string.

Definition comment_text (text : string) : string :=
  ("/* " ++ text ++ " */")%string.

End CUPLPrinter.

(** Standard output: the texts passed to [print] so far, with the outcome
    of the computation that printed them. *)
Definition io (A : Type) : Type := list string * result A.

Definition io_bind {A B} (m : io A) (k : A -> io B) : io B :=
  match m with
  | (out, Ok a) => let (out', r) := k a in (out ++ out', r)
  | (out, Raise e) => (out, Raise e)
  end.

Definition print (text : string) : io unit := ([text], Ok tt).

Definition lift {A} (r : result A) : io A := ([], r).

Notation "x <~ m ;; k" := (io_bind m (fun x => k))
  (at level 61, m at next level, right associativity).

Fixpoint io_for {A} (items : list A) (body : A -> io unit) : io unit :=
  match items with
  | [] => ([], Ok tt)
  | x :: items' => _ <~ body x ;; io_for items' body
  end.

Definition print_pin_decl (d : device) (p : Z) : io unit :=
  name <~ lift (get_pin_name (self_of d) p) ;;
  match name with
  | EmptyString => ([], Ok tt)
  | _ =>
      inv <~ lift (is_out_inverted (class_of (kind d)) (self_of d) p) ;;
      name <~ (if inv : bool then lift (inverted name) else lift (Ok name)) ;;
      print (CUPLPrinter.pin_text p name)
  end.

Definition print_macrocell (d : device) (names : list string)
           (config : OLMC (class_of (kind d))) : io unit :=
  eqns <~ lift (get_macrocell_eqns (class_of (kind d)) (self_of d) config) ;;
  if nonempty eqns then
    cmts <~ lift (get_macrocell_cmt (class_of (kind d)) (self_of d) config) ;;
    _ <~ io_for cmts (fun cmt => print (CUPLPrinter.comment_text cmt)) ;;
    _ <~ io_for eqns (fun e : eqn =>
           text <~ lift (CUPLPrinter.eqn_text (fst e) (snd e) names) ;;
           print text) ;;
    print EmptyString
  else ([], Ok tt).

Definition generate_printout (d : device) : io unit :=
  _ <~ io_for (py_range 1 (pin_count (class_of (kind d)) + 1)) (print_pin_decl d) ;;
  _ <~ print EmptyString ;;
  names <~ lift (get_input_names d) ;;
  io_for (macrocell_config (class_of (kind d))) (print_macrocell d names).

Definition device_type_map (device_name : string)
  : option (fusemap_t -> option (list string) -> result device) :=
  if (device_name =? "G16V8")%string then Some G16V8
  else if (device_name =? "GAL16V8")%string then Some G16V8
  else if (device_name =? "G16V8AS")%string then Some (new GAL16V8_Simple)
  else if (device_name =? "G16V8MA")%string then Some (new GAL16V8_Complex)
  else if (device_name =? "G16V8MS")%string then Some (new GAL16V8_Registered)
  else if (device_name =? "PALCE16V8")%string then Some G16V8
  else if (device_name =? "P16L8")%string then Some (new PAL16L8)
  else if (device_name =? "PAL16L8")%string then Some (new PAL16L8)
  else None.

(** [main] from the point where the fuse map and the pin map have been read
    and [device_name] is the upper-cased first argument. *)
Definition main (device_name : string) (fusemap : fusemap_t)
           (pinmap : option (list string)) : io unit :=
  match device_type_map device_name with
  | None => lift (Raise ValueError)
  | Some device_type =>
      d <~ lift (device_type fusemap pinmap) ;;
      generate_printout d
  end.

(** ** Helpers of the source outside the printing path *)

(** [append_pair(name_list, name, inv)]; the list after the two appends. *)
Definition append_pair (name_list : list string) (name : string) (inv : bool)
  : result (list string) :=
  if inv then
    iname <- inverted name ;;
    Ok (name_list ++ [iname] ++ [name])
  else
    iname <- inverted name ;;
    Ok (name_list ++ [name] ++ [iname]).

(** The second loop of [read_pin_map]: an empty line [i] becomes
    ["PIN%02d" % (i+1)]. *)
Fixpoint fill_blank_lines (i : Z) (lines : list str) : list string :=
  match lines with
  | [] => []
  | line :: lines' =>
      (if nonempty line then string_of_list_ascii line
       else ("PIN" ++ fmt_02d (i + 1))%string)
        :: fill_blank_lines (i + 1) lines'
  end.

(** [read_pin_map], from the result of [fp.readlines()]; [None] stands
    for the [IOError] of [open] on the way in and for the [None] returned on
    the way out. *)
Definition read_pin_map (lines : option (list str)) : option (list string) :=
  match lines with
  | None => None
  | Some lines => Some (fill_blank_lines 0 (map rstrip lines))
  end.

(** * Specification vocabulary *)

(** ** Rows of the AND array *)

(** The fuse at an in-range position. *)
Definition fuse (fm : fusemap_t) (i : Z) : Z := nth (Z.to_nat i) fm 0.

(** A row lies within the fuse map. *)
Definition row_in_map (fm : fusemap_t) (start stop : Z) : Prop :=
  0 <= start /\ stop <= Z.of_nat (List.length fm).

(** Input column [k] of the row at [start] has its true and its complement
    fuse both equal to 0. *)
Definition column_blown (fm : fusemap_t) (start k : Z) : bool :=
  (fuse fm (start + 2 * k) =? 0) && (fuse fm (start + 2 * k + 1) =? 0).

Definition row_live (fm : fusemap_t) (start : Z) : bool :=
  negb (existsb (column_blown fm start) (py_range 0 16)).

(** The positions of a row, relative to its start, whose fuse is 0. *)
Definition row_literals (fm : fusemap_t) (start stop : Z) : ANDList :=
  filter (fun i => fuse fm (start + i) =? 0) (py_range 0 (stop - start)).

(** The relative positions of a row are all read as 0 or 1. *)
Definition row_binary (fm : fusemap_t) (start stop : Z) : Prop :=
  forall i, 0 <= i < stop - start ->
            getitem fm (start + i) = Ok 0 \/ getitem fm (start + i) = Ok 1.

(** Column [k] of the 32-fuse row at [start] reads 0 on both fuses. *)
Definition column_reads_zero (fm : fusemap_t) (start k : Z) : Prop :=
  getitem fm (start + 2 * k) = Ok 0 /\ getitem fm (start + 2 * k + 1) = Ok 0.

(** Sample rows. *)
Definition row_all_ones : fusemap_t := repeat 1 32.
Definition row_all_zeros : fusemap_t := repeat 0 32.
Definition row_first_column_blown : fusemap_t := [0; 0] ++ repeat 1 30.
Definition row_two_literals : fusemap_t := [0; 1; 1; 0] ++ repeat 1 28.

(** ** Sample GAL16V8 fuse maps (2194 fuses) *)

(** Every fuse intact: configuration fuses (1, 1). *)
Definition gal_all_ones : fusemap_t := repeat 1 2194.

(** Every array and macrocell fuse 0, configuration fuses (0, 1). *)
Definition gal_registered_zeros : fusemap_t := repeat 0 2193 ++ [1].

(** Every array and macrocell fuse 0, configuration fuses (1, 0). *)
Definition gal_simple_zeros : fusemap_t := repeat 0 2192 ++ [1; 0].

(** ** Macrocell tables and equations *)

(** A table row is 32 fuses wide and lies in the AND array [0, 2048). *)
Definition table_row (r : Z * Z) : bool :=
  (snd r =? fst r + 32) && (0 <=? fst r) && (snd r <=? 2048).

Definition pal_config_ok (c : P16L8.OLMC) : bool :=
  table_row (P16L8.oe_fuses c) && forallb table_row (P16L8.terms_fuses c)
  && (1 <=? P16L8.pin c) && (P16L8.pin c <=? 20).

Definition gal_config_ok (c : G16V8xx.OLMC) : bool :=
  table_row (G16V8xx.oe_fuses c) && forallb table_row (G16V8xx.terms_fuses c)
  && (1 <=? G16V8xx.pin c) && (G16V8xx.pin c <=? 20)
  && (2048 <=? G16V8xx.ac1_fuse c) && (G16V8xx.ac1_fuse c <? 2194)
  && (2048 <=? G16V8xx.xor_fuse c) && (G16V8xx.xor_fuse c <? 2194).

(** The AND term of a table row. *)
Definition row_term (fm : fusemap_t) (r : Z * Z) : ANDList :=
  row_literals fm (fst r) (snd r).

(** The AND terms of the live, non-empty rows among [terms_fuses], in table
    order. *)
Definition live_terms (fm : fusemap_t) (terms_fuses : list (Z * Z)) : ORList :=
  filter nonempty
         (map (row_term fm) (filter (fun r => row_live fm (fst r)) terms_fuses)).

(** The AND term of the OE row when that row is live and has a literal. *)
Definition oe_term (fm : fusemap_t) (oe : Z * Z) : ORList :=
  if row_live fm (fst oe) && nonempty (row_term fm oe) then [row_term fm oe] else [].

(** The OE term followed by the product terms. *)
Definition merged_terms (fm : fusemap_t) (oe : Z * Z) (terms_fuses : list (Z * Z))
  : ORList :=
  oe_term fm oe ++ live_terms fm terms_fuses.

(** The merged term list as C2 and C6 word it: the OE row's AND term
    whenever the OE row is live, then the live, non-empty product terms. *)
Definition merged_terms_as_claimed (fm : fusemap_t) (oe : Z * Z)
           (terms_fuses : list (Z * Z)) : ORList :=
  (if row_live fm (fst oe) then [row_term fm oe] else [])
  ++ live_terms fm terms_fuses.

(** Every literal index of an AND term is in [0, 32), in strictly
    increasing order. *)
Definition term_ok (t : ANDList) : Prop :=
  StronglySorted Z.lt t /\ Forall (fun i => 0 <= i < 32) t.

Definition expr_ok (e : expr) : Prop :=
  match e with
  | AND t => term_ok t
  | OR ts => Forall term_ok ts
  end.

(** The first macrocell (pin 19) of each table. *)
Definition pal_pin19 : P16L8.OLMC := P16L8.mkOLMC 19 (0, 32) (rows 32 256).
Definition gal_pin19 : G16V8xx.OLMC := G16V8xx.mkOLMC 19 (0, 32) (rows 32 256) 2120 2048.

(** A Registered-mode map: the OE row of pin 19 intact (live, no literal),
    its first product-term row with the single literal 0, everything else 0
    up to the configuration fuses (0, 1). *)
Definition gal_registered_oe_intact : fusemap_t :=
  repeat 1 32 ++ [0] ++ repeat 1 31 ++ repeat 0 (2193 - 64) ++ [1].

(** The same array in Simple mode: configuration fuses (1, 0). *)
Definition gal_simple_oe_intact : fusemap_t :=
  repeat 1 32 ++ [0] ++ repeat 1 31 ++ repeat 0 (2192 - 64) ++ [1; 0].

(** A Simple-mode map whose macrocell for pin 19 has AC1 = 1. *)
Definition gal_simple_ac1_set : fusemap_t :=
  repeat 1 32 ++ [0] ++ repeat 1 31 ++ repeat 0 (2120 - 64) ++ [1]
  ++ repeat 0 (2192 - 2121) ++ [1; 0].

(** A PAL16L8 map: all fuses intact but fuse 0 and fuse 33. *)
Definition pal_two_fuses : fusemap_t :=
  [0] ++ repeat 1 32 ++ [0] ++ repeat 1 (2048 - 34).

(** ** Well-formed JEDEC files *)

(** What [jedec_commands] does to a character before it is appended to the
    buffer. *)
Definition fold_newline (c : ascii) : ascii :=
  if Ascii.eqb c CR || Ascii.eqb c LF then SPACE else c.

(** The value of a string of decimal digits. *)
Definition dec_value (digits : str) : Z :=
  fold_left (fun acc c => 10 * acc + digit_value c) digits 0.

Definition is_number (digits : str) : bool :=
  nonempty digits && forallb is_digit digits.

Definition is_delimiter (c : ascii) : bool := Ascii.eqb c STAR || Ascii.eqb c ETX.

(** A character of the data part of an [L] field: a digit, or a blank or
    line break between digits. *)
Definition is_data_char (c : ascii) : bool :=
  is_digit c || Ascii.eqb c SPACE || Ascii.eqb c CR || Ascii.eqb c LF.

(** The fields of a JEDEC file, each written between two ["*"]. *)
Inductive field : Type :=
| FieldQF (digits : str)
| FieldF (digits : str)
| FieldL (pos sep data : str)
| FieldOther (text : str).

Definition field_text (f : field) : str :=
  match f with
  | FieldQF digits => lit "QF" ++ digits
  | FieldF digits => lit "F" ++ digits
  | FieldL pos sep data => lit "L" ++ pos ++ sep ++ data
  | FieldOther text => text
  end.

(** - [QF<digits>], [F<digits>];
    - [L<digits><blanks><data>], the data starting with a digit and holding
      digits, blanks and line breaks only;
    - any other text without delimiter that, once its line breaks are
      folded and its leading blanks dropped, starts with none of [QF], [F]
      and [L]. *)
Definition field_ok (f : field) : bool :=
  match f with
  | FieldQF digits => is_number digits
  | FieldF digits => is_number digits
  | FieldL pos sep data =>
      is_number pos
      && nonempty sep && forallb py_isspace sep
      && match data with
         | [] => false
         | c :: _ => is_digit c
         end
      && forallb is_data_char data
  | FieldOther text =>
      forallb (fun c => negb (is_delimiter c)) text
      && let cmd := lstrip (map fold_newline text) in
         negb (startswith cmd (lit "QF")) && negb (startswith cmd (lit "F"))
         && negb (startswith cmd (lit "L"))
  end.

(** The parts of a file: a preamble up to the first ["*"], fields each
    preceded by blanks or line breaks and closed by ["*"], the text without
    delimiter that follows the last field and, for a file closed by ETX, what
    follows the ETX. *)
Record jedec_file : Type := mkFile {
  preamble : str;
  fields : list (str * field);
  trailer : str;
  after_etx : str
}.

Definition fields_text (fs : list (str * field)) : str :=
  concat (map (fun lf => fst lf ++ field_text (snd lf) ++ [STAR]) fs).

(** The text of a file closed by ETX. *)
Definition text_with_etx (d : jedec_file) : str :=
  preamble d ++ [STAR] ++ fields_text (fields d) ++ trailer d ++ [ETX] ++ after_etx d.

(** The text of the same file when it ends without ETX, after the ["*"] of
    its last field and the trailer. *)
Definition text_without_etx (d : jedec_file) : str :=
  preamble d ++ [STAR] ++ fields_text (fields d) ++ trailer d.

Definition fields_ok (fs : list (str * field)) : bool :=
  forallb (fun lf => forallb py_isspace (fst lf) && field_ok (snd lf)) fs.

Definition file_ok (d : jedec_file) : bool :=
  forallb (fun c => negb (Ascii.eqb c STAR)) (preamble d)
  && fields_ok (fields d)
  && forallb (fun c => negb (is_delimiter c)) (trailer d).

(** From Python 3.11 on, [int] refuses by default a numeral of more than 4300
    digits; no numeral of the file is that long. *)
Definition max_str_digits : nat := 4300.

Definition field_numerals_short (f : field) : bool :=
  match f with
  | FieldQF digits => (List.length digits <=? max_str_digits)%nat
  | FieldF digits => (List.length digits <=? max_str_digits)%nat
  | FieldL pos _ _ => (List.length pos <=? max_str_digits)%nat
  | FieldOther _ => true
  end.

Definition numerals_short (d : jedec_file) : bool :=
  forallb (fun lf => field_numerals_short (snd lf)) (fields d).

(** The fuse count declared by the file: that of its last [QF] field. *)
Definition declared_count (fs : list (str * field)) : option Z :=
  fold_left (fun acc lf => match snd lf with
                           | FieldQF digits => Some (dec_value digits)
                           | _ => acc
                           end) fs None.

(** The default fuse value: that of the last [F] field, 0 without one. *)
Definition declared_default (fs : list (str * field)) : Z :=
  fold_left (fun acc lf => match snd lf with
                           | FieldF digits => dec_value digits
                           | _ => acc
                           end) fs 0.

(** An [L] field as a write: its position and the digits it writes. *)
Definition write : Type := Z * list Z.

Definition field_writes (f : field) : list write :=
  match f with
  | FieldL pos _ data => [(dec_value pos, map digit_value (filter is_digit data))]
  | _ => []
  end.

(** The writes of the file, in file order. *)
Definition file_writes (fs : list (str * field)) : list write :=
  flat_map (fun lf => field_writes (snd lf)) fs.

Definition covers (p : Z) (w : write) : bool :=
  (fst w <=? p) && (p <? fst w + Z.of_nat (List.length (snd w))).

Definition written (w : write) (p : Z) : Z := nth (Z.to_nat (p - fst w)) (snd w) 0.

(** Every write stays within [0, n). *)
Definition writes_in_range (ws : list write) (n : Z) : bool :=
  forallb (fun w => (0 <=? fst w) && (fst w + Z.of_nat (List.length (snd w)) <=? n)) ws.

(** The fuse at [p]: the digit of the last write, in file order, that
    covers [p], and the default value when no write covers it. *)
Definition expected_fuse (ws : list write) (dflt : Z) (p : Z) : Z :=
  match find (covers p) (rev ws) with
  | Some w => written w p
  | None => dflt
  end.

(** A sample file: 8 fuses, default 1, two overlapping [L] fields. *)
Definition sample_file : jedec_file :=
  mkFile (String.list_ascii_of_string (String "002"%char "sample"))
         [ ([], FieldOther (lit "QP20"));
           ([LF], FieldQF (lit "8"));
           ([LF], FieldF (lit "1"));
           ([LF], FieldL (lit "0002") [SPACE] (lit "01 0"));
           ([CR; LF], FieldL (lit "3") [SPACE] ([ "1"%char; LF; "0"%char ]));
           ([LF], FieldOther (lit "C0123")) ]
         [LF]
         (lit "0000").

(** A short file: 4 fuses, default 1, one [L] field; nothing after the
    ["*"] of its last field. *)
Definition short_file : jedec_file :=
  mkFile [] [ ([], FieldQF (lit "4"));
              ([], FieldF (lit "1"));
              ([], FieldL (lit "0") [SPACE] (lit "0101")) ] [] [].

(** The command yielded for a field, and its effect on the variables of
    [load_jedec]. *)
Definition field_command (f : field) : str :=
  lstrip (map fold_newline (field_text f)).

Definition L_command (pos sep data : str) : str :=
  pos ++ map fold_newline sep ++ map fold_newline data.

Definition load_field (st : loader) (f : field) : loader :=
  match f with
  | FieldQF digits => mkLoader (fuse_list st) (Some (dec_value digits)) (default st)
  | FieldF digits => mkLoader (fuse_list st) (num_fuses st) (dec_value digits)
  | FieldL pos sep data =>
      mkLoader (fuse_list st ++ [L_command pos sep data]) (num_fuses st) (default st)
  | FieldOther _ => st
  end.

Definition load_fields (st : loader) (fs : list (str * field)) : loader :=
  fold_left (fun st lf => load_field st (snd lf)) fs st.

(** The fuse at [p] after the writes [ws], applied in order to a map whose
    fuse at [p] was [cur]. *)
Definition fuse_after (ws : list write) (cur : Z) (p : Z) : Z :=
  fold_left (fun cur w => if covers p w then written w p else cur) ws cur.

Definition field_L_commands (f : field) : list str :=
  match f with
  | FieldL pos sep data => [L_command pos sep data]
  | _ => []
  end.

(** ** Vocabulary for the remaining properties *)

(** The loop of [get_input_names] written with [append_pair]. *)
Fixpoint append_pairs (self : PALBase) (input_map : list (Z * bool))
         (name_list : list string) : result (list string) :=
  match input_map with
  | [] => Ok name_list
  | (pin, inv) :: input_map' =>
      name <- get_pin_name self pin ;;
      name_list' <- append_pair name_list name inv ;;
      append_pairs self input_map' name_list'
  end.

(** A line of a pin file is blank when it holds white space only. *)
Definition blank_line (line : str) : bool := forallb py_isspace line.

(** [list(jedec_commands(fp))]: the generator run to its end. *)
Fixpoint commands_from (fuel : nat) (g : generator) : option (list str) :=
  match fuel with
  | O => None
  | S fuel' =>
      match next fuel g with
      | None => None
      | Some (None, _) => Some []
      | Some (Some cmd, g') =>
          match commands_from fuel' g' with
          | None => None
          | Some cmds => Some (cmd :: cmds)
          end
      end
  end.

(** The text of commands each closed by ["*"]. *)
Definition commands_text (raws : list str) : str :=
  concat (map (fun raw => raw ++ [STAR]) raws).

(** The configuration fuses [(fuse[2192], fuse[2193])] a GAL16V8 class
    requires. *)
Definition required_pattern (v : variant) : option (Z * Z) :=
  match v with
  | PAL16L8 => None
  | GAL16V8_Simple => Some (1, 0)
  | GAL16V8_Complex => Some (1, 1)
  | GAL16V8_Registered => Some (0, 1)
  end.

Definition pattern_eqb (p q : Z * Z) : bool :=
  (fst p =? fst q) && (snd p =? snd q).

(** The [.oe] equation and the output equation of the PAL16L8 and of the
    Complex mode, from the rows of a macrocell. *)
Definition oe_and_output_eqns (fm : fusemap_t) (name : string) (oe : Z * Z)
           (terms_fuses : list (Z * Z)) : list eqn :=
  (if nonempty (oe_term fm oe)
   then [((name ++ ".oe")%string, AND (row_term fm oe))] else [])
  ++ (if nonempty (live_terms fm terms_fuses)
      then [(name, OR (live_terms fm terms_fuses))] else []).

(** The rows of a macrocell: its OE row, then its product-term rows. *)
Definition macrocell_rows (v : variant) : OLMC (class_of v) -> list (Z * Z) :=
  match v with
  | PAL16L8 => fun cfg => P16L8.oe_fuses cfg :: P16L8.terms_fuses cfg
  | _ => fun cfg => G16V8xx.oe_fuses cfg :: G16V8xx.terms_fuses cfg
  end.

(** An AND term that is the non-empty literal list of a live row among
    [rows]. *)
Definition term_of_live_row (fm : fusemap_t) (rows : list (Z * Z)) (t : ANDList) : Prop :=
  t <> []
  /\ exists r, In r rows
               /\ is_term_nonzero fm r = Ok true
               /\ collect_and_terms fm r = Ok t.

Definition expr_of_live_rows (fm : fusemap_t) (rows : list (Z * Z)) (e : expr) : Prop :=
  match e with
  | AND t => term_of_live_row fm rows t
  | OR ts => ts <> [] /\ Forall (term_of_live_row fm rows) ts
  end.

(** No input column contributes both its literals to the term. *)
Definition term_consistent (t : ANDList) : Prop :=
  forall k, 0 <= k < 16 -> ~ (In (2 * k) t /\ In (2 * k + 1) t).

Definition expr_consistent (e : expr) : Prop :=
  match e with
  | AND t => term_consistent t
  | OR ts => Forall term_consistent ts
  end.



(** A Registered-mode map whose macrocell for pin 19 is combinational
    (AC1 = 1): the OE row has the literals 1 and 2, the first product-term
    row the literal 2, every other array row is all 0. *)
Definition gal_registered_ac1_set : fusemap_t :=
  [1; 0; 0] ++ repeat 1 29 ++ [1; 1; 0] ++ repeat 1 29 ++ repeat 0 (2120 - 64) ++ [1]
  ++ repeat 0 (2192 - 2121) ++ [0; 1].

(** * Verification *)

(** ** Lists, ranges and indexing *)

Lemma getitem_in_range {A} (l : list A) (i : Z) (d : A) :
  0 <= i < Z.of_nat (List.length l) ->
  getitem l i = Ok (nth (Z.to_nat i) l d).
Proof.
  intros Hi. unfold getitem, py_index.
  replace (0 <=? i) with true by (symmetry; apply Z.leb_le; lia).
  replace (i <? Z.of_nat (List.length l)) with true by (symmetry; apply Z.ltb_lt; lia).
  cbn [andb].
  destruct (nth_error l (Z.to_nat i)) eqn:E.
  - now rewrite (nth_error_nth _ _ d E).
  - apply nth_error_None in E. lia.
Qed.

Lemma getitem_fuse (fm : fusemap_t) (i : Z) :
  0 <= i < Z.of_nat (List.length fm) -> getitem fm i = Ok (fuse fm i).
Proof. intros Hi. unfold fuse. now apply getitem_in_range. Qed.

Lemma update_length {A} (l : list A) (k : nat) (v : A) :
  List.length (update l k v) = List.length l.
Proof.
  revert k. induction l as [|h t IH]; intros [|k]; cbn; auto.
Qed.

Lemma nth_update {A} (l : list A) (k j : nat) (v d : A) :
  (k < List.length l)%nat ->
  nth j (update l k v) d = if Nat.eqb j k then v else nth j l d.
Proof.
  revert k j. induction l as [|h t IH]; intros k j Hk; cbn in Hk; [lia|].
  destruct k as [|k], j as [|j]; cbn; auto.
  apply IH. lia.
Qed.

Lemma setitem_in_range {A} (l : list A) (i : Z) (v : A) :
  0 <= i < Z.of_nat (List.length l) ->
  setitem l i v = Ok (update l (Z.to_nat i) v).
Proof.
  intros Hi. unfold setitem, py_index.
  replace (0 <=? i) with true by (symmetry; apply Z.leb_le; lia).
  replace (i <? Z.of_nat (List.length l)) with true by (symmetry; apply Z.ltb_lt; lia).
  reflexivity.
Qed.

Lemma fuse_update (fm : fusemap_t) (i j v : Z) :
  0 <= i < Z.of_nat (List.length fm) -> 0 <= j ->
  fuse (update fm (Z.to_nat i) v) j = if j =? i then v else fuse fm j.
Proof.
  intros Hi Hj. unfold fuse. rewrite nth_update by lia.
  destruct (Z.eqb_spec j i) as [->|Hne].
  - now rewrite Nat.eqb_refl.
  - destruct (Nat.eqb_spec (Z.to_nat j) (Z.to_nat i)); [lia | reflexivity].
Qed.

Lemma py_range_In (a b x : Z) : In x (py_range a b) <-> a <= x < b.
Proof.
  unfold py_range. rewrite in_map_iff. split.
  - intros (k & <- & Hk). apply in_seq in Hk. lia.
  - intros Hx. exists (Z.to_nat (x - a)). split; [lia|]. apply in_seq. lia.
Qed.

Lemma py_range_length (a b : Z) : List.length (py_range a b) = Z.to_nat (b - a).
Proof. unfold py_range. now rewrite length_map, length_seq. Qed.

Lemma row_range_step (start : Z) :
  py_range_step start (start + 32) 2 = map (fun k => start + 2 * k) (py_range 0 16).
Proof.
  unfold py_range_step, py_range.
  replace ((start + 32 - start + 2 - 1) / 2) with 16
    by (replace (start + 32 - start + 2 - 1) with 33 by lia; reflexivity).
  rewrite map_map. reflexivity.
Qed.

Lemma StronglySorted_map_seq (f : nat -> Z) (a n : nat) :
  (forall i j, (i < j)%nat -> f i < f j) ->
  StronglySorted Z.lt (map f (seq a n)).
Proof.
  intros Hf. revert a. induction n as [|n IH]; intros a; cbn; constructor.
  - apply IH.
  - apply Forall_forall. intros x Hx. apply in_map_iff in Hx.
    destruct Hx as (k & <- & Hk). apply in_seq in Hk. apply Hf. lia.
Qed.

Lemma StronglySorted_filter {A} (R : A -> A -> Prop) (p : A -> bool) (l : list A) :
  StronglySorted R l -> StronglySorted R (filter p l).
Proof.
  induction 1 as [|x l Hs IH Hall]; cbn; [constructor|].
  destruct (p x); [|exact IH].
  constructor; [exact IH|].
  apply Forall_forall. intros y Hy. apply filter_In in Hy.
  rewrite Forall_forall in Hall. now apply Hall.
Qed.

Lemma py_range_sorted (a b : Z) : StronglySorted Z.lt (py_range a b).
Proof. apply StronglySorted_map_seq. intros; lia. Qed.

(** ** Term decoder *)

Lemma is_term_nonzero_loop_columns (fm : fusemap_t) (start : Z) (ks : list Z) :
  (forall k, In k ks ->
             0 <= start + 2 * k /\ start + 2 * k + 1 < Z.of_nat (List.length fm)) ->
  is_term_nonzero_loop fm (map (fun k => start + 2 * k) ks)
  = Ok (negb (existsb (column_blown fm start) ks)).
Proof.
  induction ks as [|k ks IH]; intros Hin; [reflexivity|].
  cbn [map is_term_nonzero_loop existsb].
  destruct (Hin k (or_introl eq_refl)) as [H0 H1].
  rewrite getitem_fuse by lia. cbn [bind].
  unfold column_blown at 1.
  destruct (fuse fm (start + 2 * k) =? 0) eqn:Ea; cbn [andb orb].
  - rewrite getitem_fuse by lia. cbn [bind].
    destruct (fuse fm (start + 2 * k + 1) =? 0); cbn [orb negb]; [reflexivity|].
    apply IH. intros; apply Hin; now right.
  - apply IH. intros; apply Hin; now right.
Qed.

Lemma is_term_nonzero_row (fm : fusemap_t) (start : Z) :
  row_in_map fm start (start + 32) ->
  is_term_nonzero fm (start, start + 32) = Ok (row_live fm start).
Proof.
  intros [H0 H1]. unfold is_term_nonzero, row_live. cbn [fst snd].
  rewrite row_range_step. apply is_term_nonzero_loop_columns.
  intros k Hk. apply py_range_In in Hk. lia.
Qed.

Lemma column_blown_getitem (fm : fusemap_t) (start k : Z) :
  row_in_map fm start (start + 32) -> 0 <= k < 16 ->
  column_blown fm start k = true <->
  getitem fm (start + 2 * k) = Ok 0 /\ getitem fm (start + 2 * k + 1) = Ok 0.
Proof.
  intros [H0 H1] Hk. unfold column_blown.
  rewrite !getitem_fuse by lia. rewrite andb_true_iff, !Z.eqb_eq.
  split; intros [Ha Hb]; split; congruence.
Qed.

Lemma row_live_false (fm : fusemap_t) (start : Z) :
  row_live fm start = false <->
  exists k, 0 <= k < 16 /\ column_blown fm start k = true.
Proof.
  unfold row_live. rewrite negb_false_iff, existsb_exists.
  split; intros (k & Hk & Hb); exists k; (split; [|exact Hb]);
    now apply py_range_In in Hk || apply py_range_In.
Qed.

Lemma collect_and_terms_loop_filter (fm : fusemap_t) (start : Z) (rng : list Z) :
  (forall i, In i rng -> 0 <= start + i < Z.of_nat (List.length fm)) ->
  collect_and_terms_loop fm start rng
  = Ok (filter (fun i => fuse fm (start + i) =? 0) rng).
Proof.
  induction rng as [|i rng IH]; intros Hin; [reflexivity|].
  cbn [collect_and_terms_loop filter].
  rewrite getitem_fuse by (apply Hin; now left). cbn [bind].
  rewrite IH by (intros; apply Hin; now right). reflexivity.
Qed.

Lemma collect_and_terms_row (fm : fusemap_t) (start stop : Z) :
  row_in_map fm start stop ->
  collect_and_terms fm (start, stop) = Ok (row_literals fm start stop).
Proof.
  intros [H0 H1]. unfold collect_and_terms, row_literals. cbn [fst snd].
  apply collect_and_terms_loop_filter.
  intros i Hi. apply py_range_In in Hi. lia.
Qed.

Lemma row_literals_In (fm : fusemap_t) (start stop i : Z) :
  In i (row_literals fm start stop) <->
  0 <= i < stop - start /\ fuse fm (start + i) = 0.
Proof.
  unfold row_literals. now rewrite filter_In, py_range_In, Z.eqb_eq.
Qed.

Lemma row_literals_sorted (fm : fusemap_t) (start stop : Z) :
  StronglySorted Z.lt (row_literals fm start stop).
Proof. apply StronglySorted_filter, py_range_sorted. Qed.

(** ** Claims about the term decoder *)

Lemma is_term_nonzero_false_iff (fm : fusemap_t) (start : Z) :
  row_in_map fm start (start + 32) ->
  is_term_nonzero fm (start, start + 32) = Ok false <->
  exists k, 0 <= k < 16 /\ column_reads_zero fm start k.
Proof.
  intros Hrow. rewrite (is_term_nonzero_row _ _ Hrow).
  split.
  - intros H. injection H as H. apply row_live_false in H.
    destruct H as (k & Hk & Hb). exists k. split; [exact Hk|].
    now apply column_blown_getitem.
  - intros (k & Hk & Hb). f_equal. apply row_live_false.
    exists k. split; [exact Hk|]. now apply column_blown_getitem.
Qed.

Lemma is_term_nonzero_true_iff (fm : fusemap_t) (start : Z) :
  row_in_map fm start (start + 32) ->
  is_term_nonzero fm (start, start + 32) = Ok true <->
  ~ exists k, 0 <= k < 16 /\ column_reads_zero fm start k.
Proof.
  intros Hrow. rewrite <- (is_term_nonzero_false_iff _ _ Hrow).
  rewrite (is_term_nonzero_row _ _ Hrow).
  destruct (row_live fm start); split; intros H; congruence.
Qed.

(** C4: on a 32-fuse row of the fuse map, [is_term_nonzero] returns [False]
    exactly when some input column (the adjacent fuses [start+2k] and
    [start+2k+1], [0 <= k < 16]) has both fuses equal to 0, and returns
    [True] otherwise. *)
Theorem is_term_nonzero_blown_column (fm : fusemap_t) (start : Z) :
  row_in_map fm start (start + 32) ->
  (is_term_nonzero fm (start, start + 32) = Ok false <->
   exists k, 0 <= k < 16 /\ column_reads_zero fm start k)
  /\ (is_term_nonzero fm (start, start + 32) = Ok true <->
      ~ exists k, 0 <= k < 16 /\ column_reads_zero fm start k).
Proof.
  intros Hrow. split.
  - now apply is_term_nonzero_false_iff.
  - now apply is_term_nonzero_true_iff.
Qed.

Lemma row_in_map_32 (fm : fusemap_t) :
  List.length fm = 32%nat -> row_in_map fm 0 (0 + 32).
Proof. intros H. unfold row_in_map. rewrite H. lia. Defined.

Lemma is_term_nonzero_blown_column_witness :
  (is_term_nonzero row_first_column_blown (0, 0 + 32) = Ok false <->
   exists k, 0 <= k < 16 /\ column_reads_zero row_first_column_blown 0 k)
  /\ (is_term_nonzero row_first_column_blown (0, 0 + 32) = Ok true <->
      ~ exists k, 0 <= k < 16 /\ column_reads_zero row_first_column_blown 0 k).
Proof.
  apply (is_term_nonzero_blown_column row_first_column_blown 0).
  apply row_in_map_32. reflexivity.
Defined.

(** C5: on a row [start, stop) of the fuse map, [collect_and_terms] returns,
    in increasing order, exactly the relative positions [i] with
    [fusemap[start+i] == 0]; on a row of 0/1 fuses it returns the empty list
    if and only if every fuse of the row is 1. *)
Theorem collect_and_terms_exact (fm : fusemap_t) (start stop : Z) :
  row_in_map fm start stop ->
  exists lits,
    collect_and_terms fm (start, stop) = Ok lits
    /\ StronglySorted Z.lt lits
    /\ (forall i, In i lits <->
                  0 <= i < stop - start /\ getitem fm (start + i) = Ok 0)
    /\ (row_binary fm start stop ->
        (lits = [] <->
         forall i, 0 <= i < stop - start -> getitem fm (start + i) = Ok 1)).
Proof.
  intros Hrow. exists (row_literals fm start stop).
  assert (Hget : forall i, 0 <= i < stop - start ->
                           getitem fm (start + i) = Ok (fuse fm (start + i))).
  { intros i Hi. destruct Hrow. apply getitem_fuse. lia. }
  assert (Hin : forall i, In i (row_literals fm start stop) <->
                          0 <= i < stop - start /\ getitem fm (start + i) = Ok 0).
  { intros i. rewrite row_literals_In. split; intros [Hi Hz]; split; auto.
    - rewrite Hget by exact Hi. now rewrite Hz.
    - rewrite Hget in Hz by exact Hi. congruence. }
  split; [now apply collect_and_terms_row|].
  split; [apply row_literals_sorted|].
  split; [exact Hin|].
  intros Hbin. split.
  - intros Hnil i Hi. destruct (Hbin i Hi) as [Hz|Ho]; [|exact Ho].
    exfalso. assert (Hi' : In i (row_literals fm start stop)) by (apply Hin; auto).
    rewrite Hnil in Hi'. exact Hi'.
  - intros Hones. destruct (row_literals fm start stop) as [|i l] eqn:E; [reflexivity|].
    exfalso. assert (Hi : In i (i :: l)) by now left.
    apply Hin in Hi. destruct Hi as [Hi Hz]. rewrite (Hones i Hi) in Hz. discriminate.
Qed.

Lemma row_two_literals_binary : row_binary row_two_literals 0 32.
Proof.
  intros i Hi.
  assert (Hc : i = 0 \/ i = 3 \/ (i <> 0 /\ i <> 3)) by lia.
  destruct Hc as [->|[->|[H0 H3]]]; [left; reflexivity | left; reflexivity |].
  right. rewrite (getitem_in_range _ _ 0) by (cbn; lia). f_equal.
  assert (Hn : exists n, (n < 32)%nat /\ i = Z.of_nat n) by (exists (Z.to_nat i); lia).
  destruct Hn as (n & Hn & ->). cbn [Z.add]. rewrite Nat2Z.id.
  do 32 (destruct n as [|n]; [try reflexivity; lia|]). lia.
Defined.

Lemma collect_and_terms_exact_witness :
  exists lits,
    collect_and_terms row_two_literals (0, 32) = Ok lits
    /\ StronglySorted Z.lt lits
    /\ (forall i, In i lits <->
                  0 <= i < 32 - 0 /\ getitem row_two_literals (0 + i) = Ok 0)
    /\ (lits = [] <->
        forall i, 0 <= i < 32 - 0 -> getitem row_two_literals (0 + i) = Ok 1).
Proof.
  destruct (collect_and_terms_exact row_two_literals 0 32)
    as (lits & Hret & Hsorted & Hin & Hempty).
  - unfold row_in_map. cbn. lia.
  - exists lits. split; [exact Hret|]. split; [exact Hsorted|].
    split; [exact Hin|]. apply Hempty, row_two_literals_binary.
Defined.

(** C9, as the specification states it, fails: a row with a single blown
    column is dead although its other columns are intact, and on the all-zero
    row setting one fuse to 1 leaves the row dead. *)
Lemma is_term_nonzero_every_column_counterexample :
  (is_term_nonzero row_first_column_blown (0, 32) = Ok false
   /\ ~ (forall k, 0 <= k < 16 -> column_reads_zero row_first_column_blown 0 k))
  /\ (is_term_nonzero row_all_zeros (0, 32) = Ok false
      /\ exists fm', setitem row_all_zeros 0 1 = Ok fm'
                     /\ is_term_nonzero fm' (0, 32) = Ok false).
Proof.
  split; split.
  - reflexivity.
  - intros H. destruct (H 1 ltac:(lia)) as [H2 _]. discriminate H2.
  - reflexivity.
  - eexists. split; reflexivity.
Qed.

(** C9, amended: [is_term_nonzero] is [False] on a 32-fuse row if and only
    if at least one input column has both fuses equal to 0; and from a dead
    row whose only such column is [k], setting either fuse of column [k] to 1
    makes the row live. *)
Theorem is_term_nonzero_single_fuse (fm : fusemap_t) (start : Z) :
  row_in_map fm start (start + 32) ->
  (is_term_nonzero fm (start, start + 32) = Ok false <->
   exists k, 0 <= k < 16 /\ column_reads_zero fm start k)
  /\ (forall k j,
        0 <= k < 16 -> 0 <= j <= 1 ->
        is_term_nonzero fm (start, start + 32) = Ok false ->
        (forall k', 0 <= k' < 16 -> column_reads_zero fm start k' -> k' = k) ->
        exists fm',
          setitem fm (start + 2 * k + j) 1 = Ok fm'
          /\ is_term_nonzero fm' (start, start + 32) = Ok true).
Proof.
  intros Hrow. split; [now apply is_term_nonzero_false_iff|].
  intros k j Hk Hj _ Honly. destruct Hrow as [H0 H1].
  exists (update fm (Z.to_nat (start + 2 * k + j)) 1).
  split; [apply setitem_in_range; lia|].
  set (fm' := update fm (Z.to_nat (start + 2 * k + j)) 1).
  assert (Hrow' : row_in_map fm' start (start + 32)).
  { unfold row_in_map, fm'. rewrite update_length. lia. }
  rewrite (is_term_nonzero_row _ _ Hrow'). f_equal.
  destruct (row_live fm' start) eqn:E; [reflexivity|exfalso].
  apply row_live_false in E. destruct E as (k' & Hk' & Hb).
  unfold column_blown, fm' in Hb.
  rewrite !fuse_update in Hb by lia.
  apply andb_true_iff in Hb. destruct Hb as [Ha Hb].
  destruct (Z.eqb_spec (start + 2 * k') (start + 2 * k + j)) as [E1|E1];
    [discriminate Ha|].
  destruct (Z.eqb_spec (start + 2 * k' + 1) (start + 2 * k + j)) as [E2|E2];
    [discriminate Hb|].
  assert (k' = k); [|lia].
  apply Honly; [exact Hk'|].
  apply column_blown_getitem; [split; lia | exact Hk' |].
  unfold column_blown. now rewrite Ha, Hb.
Qed.

Lemma is_term_nonzero_single_fuse_witness :
  (is_term_nonzero row_first_column_blown (0, 0 + 32) = Ok false <->
   exists k, 0 <= k < 16 /\ column_reads_zero row_first_column_blown 0 k)
  /\ (forall k j,
        0 <= k < 16 -> 0 <= j <= 1 ->
        is_term_nonzero row_first_column_blown (0, 0 + 32) = Ok false ->
        (forall k', 0 <= k' < 16 ->
                    column_reads_zero row_first_column_blown 0 k' -> k' = k) ->
        exists fm',
          setitem row_first_column_blown (0 + 2 * k + j) 1 = Ok fm'
          /\ is_term_nonzero fm' (0, 0 + 32) = Ok true).
Proof.
  apply (is_term_nonzero_single_fuse row_first_column_blown 0).
  apply row_in_map_32. reflexivity.
Defined.

(** ** Claims about device construction *)

Lemma device_type_map_G16V8MS : device_type_map "G16V8MS" = Some (new GAL16V8_Registered).
Proof. reflexivity. Qed.

Lemma device_type_map_G16V8AS : device_type_map "G16V8AS" = Some (new GAL16V8_Simple).
Proof. reflexivity. Qed.

Lemma device_type_map_G16V8MA : device_type_map "G16V8MA" = Some (new GAL16V8_Complex).
Proof. reflexivity. Qed.

Lemma device_type_map_G16V8 : device_type_map "G16V8" = Some G16V8.
Proof. reflexivity. Qed.

Lemma G16V8MS_init_mismatch (fm : fusemap_t) (pm : option (list string)) (a b : Z) :
  getitem fm 2192 = Ok a -> getitem fm 2193 = Ok b -> (a, b) <> (0, 1) ->
  G16V8MS.init fm pm = Raise incorrect_device.
Proof.
  intros Ha Hb Hne. unfold G16V8MS.init. rewrite Ha. cbn [bind].
  destruct (Z.eqb_spec a 0) as [->|Ha0]; cbn [negb bind]; [|reflexivity].
  rewrite Hb. cbn [bind].
  destruct (Z.eqb_spec b 1) as [->|Hb1]; cbn [negb]; [congruence | reflexivity].
Qed.

Lemma G16V8AS_init_mismatch (fm : fusemap_t) (pm : option (list string)) (a b : Z) :
  getitem fm 2192 = Ok a -> getitem fm 2193 = Ok b -> (a, b) <> (1, 0) ->
  G16V8AS.init fm pm = Raise incorrect_device.
Proof.
  intros Ha Hb Hne. unfold G16V8AS.init. rewrite Ha. cbn [bind].
  destruct (Z.eqb_spec a 1) as [->|Ha1]; cbn [negb bind]; [|reflexivity].
  rewrite Hb. cbn [bind].
  destruct (Z.eqb_spec b 0) as [->|Hb0]; cbn [negb]; [congruence | reflexivity].
Qed.

Lemma G16V8MA_init_mismatch (fm : fusemap_t) (pm : option (list string)) (a b : Z) :
  getitem fm 2192 = Ok a -> getitem fm 2193 = Ok b -> (a, b) <> (1, 1) ->
  G16V8MA.init fm pm = Raise incorrect_device.
Proof.
  intros Ha Hb Hne. unfold G16V8MA.init. rewrite Ha. cbn [bind].
  destruct (Z.eqb_spec a 1) as [->|Ha1]; cbn [negb bind]; [|reflexivity].
  rewrite Hb. cbn [bind].
  destruct (Z.eqb_spec b 1) as [->|Hb1]; cbn [negb]; [congruence | reflexivity].
Qed.

Lemma main_init_raises (name : string) (v : variant) (fm : fusemap_t)
      (pm : option (list string)) (e : exn) :
  device_type_map name = Some (new v) ->
  init (class_of v) fm pm = Raise e ->
  new v fm pm = Raise e /\ main name fm pm = ([], Raise e).
Proof.
  intros Hmap Hinit. unfold main. rewrite Hmap. unfold new. rewrite Hinit.
  split; reflexivity.
Qed.

(** C7: when the configuration fuses [(fuse[2192], fuse[2193])] are not
    [(0, 1)], constructing [G16V8MS] raises the device-mismatch error, and a
    run that requests it prints nothing; likewise for [G16V8AS] and every
    pattern other than [(1, 0)]. *)
Theorem explicit_variant_mismatch (fm : fusemap_t) (pm : option (list string)) (a b : Z) :
  getitem fm 2192 = Ok a -> getitem fm 2193 = Ok b ->
  ((a, b) <> (0, 1) ->
   G16V8MS.init fm pm = Raise incorrect_device
   /\ new GAL16V8_Registered fm pm = Raise incorrect_device
   /\ main "G16V8MS" fm pm = ([], Raise incorrect_device))
  /\ ((a, b) <> (1, 0) ->
      G16V8AS.init fm pm = Raise incorrect_device
      /\ new GAL16V8_Simple fm pm = Raise incorrect_device
      /\ main "G16V8AS" fm pm = ([], Raise incorrect_device)).
Proof.
  intros Ha Hb. split; intros Hne.
  - pose proof (G16V8MS_init_mismatch fm pm a b Ha Hb Hne) as Hinit.
    split; [exact Hinit|].
    exact (main_init_raises _ GAL16V8_Registered fm pm _ device_type_map_G16V8MS Hinit).
  - pose proof (G16V8AS_init_mismatch fm pm a b Ha Hb Hne) as Hinit.
    split; [exact Hinit|].
    exact (main_init_raises _ GAL16V8_Simple fm pm _ device_type_map_G16V8AS Hinit).
Qed.

Lemma explicit_variant_mismatch_witness :
  (G16V8MS.init gal_simple_zeros None = Raise incorrect_device
   /\ new GAL16V8_Registered gal_simple_zeros None = Raise incorrect_device
   /\ main "G16V8MS" gal_simple_zeros None = ([], Raise incorrect_device))
  /\ (G16V8AS.init gal_registered_zeros None = Raise incorrect_device
      /\ new GAL16V8_Simple gal_registered_zeros None = Raise incorrect_device
      /\ main "G16V8AS" gal_registered_zeros None = ([], Raise incorrect_device)).
Proof.
  split.
  - apply (explicit_variant_mismatch gal_simple_zeros None 1 0);
      [reflexivity | reflexivity | discriminate].
  - apply (explicit_variant_mismatch gal_registered_zeros None 0 1);
      [reflexivity | reflexivity | discriminate].
Defined.

(** C1 does not hold of the code: with configuration fuses (1, 1) the first
    test of [G16V8], [fusemap[2192] == 1 or fusemap[2193] == 0], already
    succeeds, so the Simple class is constructed and its own check raises the
    device-mismatch error, although [G16V8MA] itself accepts the fuse map. *)
Theorem G16V8_complex_pattern_raises (fm : fusemap_t) (pm : option (list string)) :
  getitem fm 2192 = Ok 1 -> getitem fm 2193 = Ok 1 ->
  G16V8 fm pm = Raise incorrect_device
  /\ new GAL16V8_Complex fm pm = Ok (mkDevice GAL16V8_Complex (PALBase_init fm pm)).
Proof.
  intros Ha Hb. split.
  - unfold G16V8. rewrite Ha. cbn [bind Z.eqb Pos.eqb]. unfold new.
    cbn [class_of init].
    now rewrite (G16V8AS_init_mismatch fm pm 1 1 Ha Hb) by discriminate.
  - unfold new. cbn [class_of init]. unfold G16V8MA.init.
    rewrite Ha. cbn [bind Z.eqb Pos.eqb negb]. rewrite Hb. reflexivity.
Qed.

Lemma G16V8_complex_pattern_raises_witness :
  G16V8 gal_all_ones None = Raise incorrect_device
  /\ new GAL16V8_Complex gal_all_ones None
     = Ok (mkDevice GAL16V8_Complex (PALBase_init gal_all_ones None)).
Proof.
  apply (G16V8_complex_pattern_raises gal_all_ones None); reflexivity.
Defined.

(** The auto-detecting entry point never constructs the Complex class. *)
Lemma G16V8_never_complex (fm : fusemap_t) (pm : option (list string)) (d : device) :
  G16V8 fm pm = Ok d -> kind d <> GAL16V8_Complex.
Proof.
  unfold G16V8. destruct (getitem fm 2192) as [a|e] eqn:Ha; cbn [bind]; [|discriminate].
  destruct (Z.eqb_spec a 1) as [->|Ha1]; cbn [bind].
  - unfold new. destruct (init _ fm pm); cbn [bind]; intros H; inversion H; discriminate.
  - destruct (getitem fm 2193) as [b|e] eqn:Hb; cbn [bind]; [|discriminate].
    destruct (Z.eqb_spec b 0) as [->|Hb0].
    + unfold new. destruct (init _ fm pm); cbn [bind]; intros H; inversion H; discriminate.
    + destruct (Z.eqb_spec a 0) as [->|Ha0]; cbn [bind].
      * unfold new. destruct (init _ fm pm); cbn [bind]; intros H; inversion H; discriminate.
      * destruct (Z.eqb_spec b 1) as [->|Hb1]; cbn [negb bind].
        -- discriminate.
        -- unfold new. destruct (init _ fm pm); cbn [bind]; intros H; inversion H; discriminate.
Qed.

(** ** Macrocell tables *)

Lemma pal_table_ok : forallb pal_config_ok P16L8.macrocell_config = true.
Proof. vm_compute. reflexivity. Qed.

Lemma gal_table_ok : forallb gal_config_ok G16V8xx.macrocell_config = true.
Proof. vm_compute. reflexivity. Qed.

Lemma table_row_spec (r : Z * Z) :
  table_row r = true -> r = (fst r, fst r + 32) /\ 0 <= fst r /\ fst r + 32 <= 2048.
Proof.
  unfold table_row. rewrite !andb_true_iff, Z.eqb_eq, !Z.leb_le.
  destruct r as [s e]. cbn [fst snd]. intros [[He H0] H1]. subst e. auto.
Qed.

Lemma table_row_in_map (fm : fusemap_t) (r : Z * Z) :
  table_row r = true -> 2048 <= Z.of_nat (List.length fm) ->
  row_in_map fm (fst r) (fst r + 32).
Proof.
  intros Hr Hlen. apply table_row_spec in Hr. unfold row_in_map. lia.
Qed.

Lemma is_term_nonzero_table_row (fm : fusemap_t) (r : Z * Z) :
  table_row r = true -> 2048 <= Z.of_nat (List.length fm) ->
  is_term_nonzero fm r = Ok (row_live fm (fst r)).
Proof.
  intros Hr Hlen. pose proof (table_row_in_map fm r Hr Hlen) as Hin.
  apply table_row_spec in Hr. destruct Hr as [Hr _]. rewrite Hr at 1.
  now apply is_term_nonzero_row.
Qed.

Lemma collect_and_terms_table_row (fm : fusemap_t) (r : Z * Z) :
  table_row r = true -> 2048 <= Z.of_nat (List.length fm) ->
  collect_and_terms fm r = Ok (row_term fm r).
Proof.
  intros Hr Hlen. pose proof (table_row_in_map fm r Hr Hlen) as Hin.
  apply table_row_spec in Hr. destruct Hr as [Hr _].
  unfold row_term. rewrite Hr at 1. cbn [fst snd].
  replace (snd r) with (fst r + 32) by (rewrite Hr at 2; reflexivity).
  now apply collect_and_terms_row.
Qed.

(** ** Equation assembly *)

Lemma append_terms_live (fm : fusemap_t) (terms_fuses : list (Z * Z)) (acc : ORList) :
  forallb table_row terms_fuses = true ->
  2048 <= Z.of_nat (List.length fm) ->
  append_terms fm terms_fuses acc = Ok (acc ++ live_terms fm terms_fuses).
Proof.
  intros Hrows Hlen. revert acc Hrows.
  induction terms_fuses as [|r rs IH]; intros acc Hrows.
  - cbn. now rewrite app_nil_r.
  - cbn [forallb] in Hrows. apply andb_true_iff in Hrows. destruct Hrows as [Hr Hrs].
    cbn [append_terms]. rewrite is_term_nonzero_table_row by assumption. cbn [bind].
    unfold live_terms. cbn [filter].
    destruct (row_live fm (fst r)).
    + rewrite collect_and_terms_table_row by assumption. cbn [bind map filter].
      rewrite IH by assumption. unfold live_terms.
      destruct (nonempty (row_term fm r)); [|reflexivity].
      now rewrite <- app_assoc.
    + now apply IH.
Qed.

Lemma gal_config_In (cfg : G16V8xx.OLMC) :
  In cfg G16V8xx.macrocell_config -> gal_config_ok cfg = true.
Proof. intros Hin. exact (proj1 (forallb_forall _ _) gal_table_ok cfg Hin). Qed.

Lemma pal_config_In (cfg : P16L8.OLMC) :
  In cfg P16L8.macrocell_config -> pal_config_ok cfg = true.
Proof. intros Hin. exact (proj1 (forallb_forall _ _) pal_table_ok cfg Hin). Qed.

Lemma gal_config_rows (cfg : G16V8xx.OLMC) :
  In cfg G16V8xx.macrocell_config ->
  table_row (G16V8xx.oe_fuses cfg) = true
  /\ forallb table_row (G16V8xx.terms_fuses cfg) = true
  /\ 0 <= G16V8xx.ac1_fuse cfg < 2194.
Proof.
  intros Hin. apply gal_config_In in Hin. unfold gal_config_ok in Hin.
  rewrite !andb_true_iff, !Z.leb_le, !Z.ltb_lt in Hin. intuition lia.
Qed.

(** The merged list has a literal-free OE row dropped, so it is never
    longer than the list the claims describe. *)
Lemma oe_term_cases (fm : fusemap_t) (oe : Z * Z) :
  oe_term fm oe
  = if nonempty (if row_live fm (fst oe) then row_term fm oe else [])
    then [row_term fm oe] else [].
Proof. unfold oe_term. destruct (row_live fm (fst oe)); reflexivity. Qed.

(** ** Claims about equation assembly *)

(** C2, as stated, fails on the Registered class: when every row of a
    macrocell with AC1 = 0 is dead no equation is returned at all, and a live
    OE row without literals (all fuses intact) is not made a product term. *)
Lemma registered_single_equation_counterexample :
  In gal_pin19 G16V8xx.macrocell_config
  /\ (G16V8MS.init gal_registered_zeros None = Ok (PALBase_init gal_registered_zeros None)
      /\ getitem gal_registered_zeros (G16V8xx.ac1_fuse gal_pin19) = Ok 0
      /\ G16V8MS.get_macrocell_eqns (PALBase_init gal_registered_zeros None) gal_pin19
         = Ok [])
  /\ (G16V8MS.init gal_registered_oe_intact None
      = Ok (PALBase_init gal_registered_oe_intact None)
      /\ getitem gal_registered_oe_intact (G16V8xx.ac1_fuse gal_pin19) = Ok 0
      /\ is_term_nonzero gal_registered_oe_intact (G16V8xx.oe_fuses gal_pin19) = Ok true
      /\ G16V8MS.get_macrocell_eqns (PALBase_init gal_registered_oe_intact None) gal_pin19
         = Ok [("PIN19.d"%string, OR [[0]])]
      /\ G16V8MS.get_macrocell_eqns (PALBase_init gal_registered_oe_intact None) gal_pin19
         <> Ok [("PIN19.d"%string,
                 OR (merged_terms_as_claimed gal_registered_oe_intact
                       (G16V8xx.oe_fuses gal_pin19) (G16V8xx.terms_fuses gal_pin19)))]).
Proof.
  split; [left; reflexivity|].
  split; [repeat split; vm_compute; reflexivity|].
  split; [vm_compute; reflexivity|].
  split; [vm_compute; reflexivity|].
  split; [vm_compute; reflexivity|].
  split; [vm_compute; reflexivity|].
  vm_compute. intros H. discriminate H.
Qed.

(** C2, amended: for the Registered class and a macrocell whose AC1 fuse is
    0, [get_macrocell_eqns] returns at most one equation; its name carries
    the suffix [.d] and its OR list is the OE row's AND term, when the OE row
    is live and has at least one literal, followed by the AND terms of all
    live, non-empty product-term rows in table order; when that list is empty
    no equation is returned. *)
Theorem registered_merged_equation (self : PALBase) (cfg : G16V8xx.OLMC) (name : string) :
  In cfg G16V8xx.macrocell_config ->
  2194 <= Z.of_nat (List.length (fusemap self)) ->
  get_pin_name self (G16V8xx.pin cfg) = Ok name ->
  getitem (fusemap self) (G16V8xx.ac1_fuse cfg) = Ok 0 ->
  G16V8MS.get_macrocell_eqns self cfg
  = Ok (let d_terms := merged_terms (fusemap self) (G16V8xx.oe_fuses cfg)
                                    (G16V8xx.terms_fuses cfg) in
        if nonempty d_terms then [((name ++ ".d")%string, OR d_terms)] else []).
Proof.
  intros Hin Hlen Hname Hac1.
  destruct (gal_config_rows cfg Hin) as (Hoe & Hrows & _).
  unfold G16V8MS.get_macrocell_eqns. rewrite Hname. cbn [bind].
  rewrite is_term_nonzero_table_row by (assumption || lia). cbn [bind].
  unfold merged_terms. rewrite oe_term_cases.
  destruct (row_live (fusemap self) (fst (G16V8xx.oe_fuses cfg))).
  - rewrite collect_and_terms_table_row by (assumption || lia). cbn [bind].
    rewrite append_terms_live by (assumption || lia). cbn [bind app].
    rewrite Hac1. cbn [bind Z.eqb negb].
    destruct (nonempty (row_term (fusemap self) (G16V8xx.oe_fuses cfg))); reflexivity.
  - cbn [bind]. rewrite append_terms_live by (assumption || lia). cbn [bind app].
    rewrite Hac1. reflexivity.
Qed.

Lemma registered_merged_equation_witness :
  G16V8MS.get_macrocell_eqns (PALBase_init gal_registered_oe_intact None) gal_pin19
  = Ok (let d_terms := merged_terms gal_registered_oe_intact (G16V8xx.oe_fuses gal_pin19)
                                    (G16V8xx.terms_fuses gal_pin19) in
        if nonempty d_terms then [(("PIN19" ++ ".d")%string, OR d_terms)] else []).
Proof.
  apply (registered_merged_equation (PALBase_init gal_registered_oe_intact None)
                                    gal_pin19 "PIN19").
  - left. reflexivity.
  - apply Z.leb_le. vm_compute. reflexivity.
  - vm_compute. reflexivity.
  - vm_compute. reflexivity.
Defined.

(** C6, as stated, fails on the Simple class: a live OE row without
    literals (all fuses intact) is not made a product term of the equation. *)
Lemma simple_oe_row_counterexample :
  In gal_pin19 G16V8xx.macrocell_config
  /\ G16V8AS.init gal_simple_oe_intact None = Ok (PALBase_init gal_simple_oe_intact None)
  /\ getitem gal_simple_oe_intact (G16V8xx.ac1_fuse gal_pin19) = Ok 0
  /\ is_term_nonzero gal_simple_oe_intact (G16V8xx.oe_fuses gal_pin19) = Ok true
  /\ G16V8AS.get_macrocell_eqns (PALBase_init gal_simple_oe_intact None) gal_pin19
     = Ok [("PIN19"%string, OR [[0]])]
  /\ merged_terms_as_claimed gal_simple_oe_intact
       (G16V8xx.oe_fuses gal_pin19) (G16V8xx.terms_fuses gal_pin19) = [[]; [0]].
Proof.
  split; [left; reflexivity|].
  repeat split; vm_compute; reflexivity.
Qed.

(** C6, amended: for the Simple class, a macrocell whose AC1 fuse is not 0
    (in particular 1) yields no equation; a macrocell whose AC1 fuse is 0
    yields at most one equation, unsuffixed, whose OR list is the OE row's
    AND term, when the OE row is live and has at least one literal, followed
    by the AND terms of all live, non-empty product-term rows in table order;
    when that list is empty no equation is returned. *)
Theorem simple_merged_equation (self : PALBase) (cfg : G16V8xx.OLMC) :
  In cfg G16V8xx.macrocell_config ->
  2194 <= Z.of_nat (List.length (fusemap self)) ->
  (forall ac1, getitem (fusemap self) (G16V8xx.ac1_fuse cfg) = Ok ac1 -> ac1 <> 0 ->
               G16V8AS.get_macrocell_eqns self cfg = Ok [])
  /\ (forall name,
        getitem (fusemap self) (G16V8xx.ac1_fuse cfg) = Ok 0 ->
        get_pin_name self (G16V8xx.pin cfg) = Ok name ->
        G16V8AS.get_macrocell_eqns self cfg
        = Ok (let d_terms := merged_terms (fusemap self) (G16V8xx.oe_fuses cfg)
                                          (G16V8xx.terms_fuses cfg) in
              if nonempty d_terms then [(name, OR d_terms)] else [])).
Proof.
  intros Hin Hlen.
  destruct (gal_config_rows cfg Hin) as (Hoe & Hrows & _).
  split.
  - intros ac1 Hac1 Hne. unfold G16V8AS.get_macrocell_eqns. rewrite Hac1. cbn [bind].
    destruct (Z.eqb_spec ac1 0); [contradiction | reflexivity].
  - intros name Hac1 Hname. unfold G16V8AS.get_macrocell_eqns.
    rewrite Hac1. cbn [bind Z.eqb]. rewrite Hname. cbn [bind].
    rewrite is_term_nonzero_table_row by (assumption || lia). cbn [bind].
    unfold merged_terms, oe_term.
    destruct (row_live (fusemap self) (fst (G16V8xx.oe_fuses cfg))); cbn [andb].
    + rewrite collect_and_terms_table_row by (assumption || lia). cbn [bind].
      rewrite append_terms_live by (assumption || lia). reflexivity.
    + cbn [bind]. rewrite append_terms_live by (assumption || lia). reflexivity.
Qed.

Lemma simple_merged_equation_witness :
  G16V8AS.get_macrocell_eqns (PALBase_init gal_simple_ac1_set None) gal_pin19 = Ok []
  /\ G16V8AS.get_macrocell_eqns (PALBase_init gal_simple_oe_intact None) gal_pin19
     = Ok (let d_terms := merged_terms gal_simple_oe_intact (G16V8xx.oe_fuses gal_pin19)
                                       (G16V8xx.terms_fuses gal_pin19) in
           if nonempty d_terms then [("PIN19"%string, OR d_terms)] else []).
Proof.
  split.
  - apply (proj1 (simple_merged_equation (PALBase_init gal_simple_ac1_set None) gal_pin19
                    ltac:(left; reflexivity)
                    ltac:(apply Z.leb_le; vm_compute; reflexivity)) 1).
    + vm_compute. reflexivity.
    + discriminate.
  - apply (proj2 (simple_merged_equation (PALBase_init gal_simple_oe_intact None) gal_pin19
                    ltac:(left; reflexivity)
                    ltac:(apply Z.leb_le; vm_compute; reflexivity)) "PIN19"%string).
    + vm_compute. reflexivity.
    + vm_compute. reflexivity.
Defined.

(** ** Literal indices and the input-name table *)

Lemma collect_and_terms_loop_is_filter (fm : fusemap_t) (start : Z) (rng : list Z)
      (lits : ANDList) :
  collect_and_terms_loop fm start rng = Ok lits ->
  exists keep, lits = filter keep rng.
Proof.
  intros H.
  exists (fun i => match getitem fm (start + i) with
                   | Ok v => v =? 0
                   | Raise _ => false
                   end).
  revert lits H. induction rng as [|i rng IH]; cbn [collect_and_terms_loop filter].
  - intros lits H. now injection H as <-.
  - intros lits H. destruct (getitem fm (start + i)) as [v|e]; cbn [bind] in H;
      [|discriminate].
    destruct (collect_and_terms_loop fm start rng) as [rest|e]; cbn [bind] in H;
      [|discriminate].
    injection H as <-. rewrite (IH rest eq_refl). reflexivity.
Qed.

Lemma collect_and_terms_term_ok (fm : fusemap_t) (r : Z * Z) (lits : ANDList) :
  snd r - fst r = 32 ->
  collect_and_terms fm r = Ok lits -> term_ok lits.
Proof.
  intros Hw H. unfold collect_and_terms in H. rewrite Hw in H.
  apply collect_and_terms_loop_is_filter in H. destruct H as (keep & ->).
  split.
  - apply StronglySorted_filter, py_range_sorted.
  - apply Forall_forall. intros i Hi. apply filter_In in Hi.
    destruct Hi as [Hi _]. now apply py_range_In in Hi.
Qed.

Lemma append_terms_term_ok (fm : fusemap_t) (terms_fuses : list (Z * Z))
      (acc d_terms : ORList) :
  Forall (fun r => snd r - fst r = 32) terms_fuses ->
  Forall term_ok acc ->
  append_terms fm terms_fuses acc = Ok d_terms ->
  Forall term_ok d_terms.
Proof.
  intros Hrows. revert acc. induction Hrows as [|r rs Hr Hrs IH]; intros acc Hacc H.
  - cbn in H. now injection H as <-.
  - cbn [append_terms] in H.
    destruct (is_term_nonzero fm r) as [[|]|e]; cbn [bind] in H; [| |discriminate].
    + destruct (collect_and_terms fm r) as [terms|e] eqn:Et; cbn [bind] in H;
        [|discriminate].
      refine (IH _ _ H).
      destruct (nonempty terms); [|exact Hacc].
      apply Forall_app. split; [exact Hacc|]. constructor; [|constructor].
      now apply (collect_and_terms_term_ok fm r).
    + now apply (IH acc).
Qed.

Lemma table_row_width (r : Z * Z) : table_row r = true -> snd r - fst r = 32.
Proof.
  intros H. apply table_row_spec in H. destruct H as [H _]. rewrite H. cbn. lia.
Qed.

Lemma table_rows_width (rs : list (Z * Z)) :
  forallb table_row rs = true -> Forall (fun r => snd r - fst r = 32) rs.
Proof.
  intros H. apply Forall_forall. intros r Hr. apply table_row_width.
  exact (proj1 (forallb_forall _ _) H r Hr).
Qed.

(** The assembly of [P16L8] and [G16V8MA]: an optional [.oe] equation and an
    optional output equation. *)
Lemma oe_and_output_eqns_ok (fm : fusemap_t) (oe : Z * Z) (terms_fuses : list (Z * Z))
      (name : string) (eqns : list eqn) :
  snd oe - fst oe = 32 ->
  Forall (fun r => snd r - fst r = 32) terms_fuses ->
  (live <- is_term_nonzero fm oe ;;
   eqns <- (if live : bool then
              oe_terms <- collect_and_terms fm oe ;;
              Ok (if nonempty oe_terms then [((name ++ ".oe")%string, AND oe_terms)] else [])
            else Ok []) ;;
   d_terms <- append_terms fm terms_fuses [] ;;
   Ok (if nonempty d_terms then eqns ++ [(name, OR d_terms)] else eqns)) = Ok eqns ->
  Forall (fun e : eqn => expr_ok (snd e)) eqns.
Proof.
  intros Hoe Hrows H.
  destruct (is_term_nonzero fm oe) as [live|e]; cbn [bind] in H; [|discriminate].
  assert (Hfirst : forall es,
             (if live then
                oe_terms <- collect_and_terms fm oe ;;
                Ok (if nonempty oe_terms
                    then [((name ++ ".oe")%string, AND oe_terms)] else [])
              else Ok []) = Ok es ->
             Forall (fun e : eqn => expr_ok (snd e)) es).
  { intros es Hes. destruct live.
    - destruct (collect_and_terms fm oe) as [oe_terms|e] eqn:Eo; cbn [bind] in Hes;
        [|discriminate].
      injection Hes as <-. destruct (nonempty oe_terms); constructor; [|constructor].
      cbn. now apply (collect_and_terms_term_ok fm oe).
    - injection Hes as <-. constructor. }
  destruct (if live then _ else _) as [es|e]; cbn [bind] in H; [|discriminate].
  specialize (Hfirst es eq_refl).
  destruct (append_terms fm terms_fuses []) as [d_terms|e] eqn:Ed; cbn [bind] in H;
    [|discriminate].
  injection H as <-.
  destruct (nonempty d_terms); [|exact Hfirst].
  apply Forall_app. split; [exact Hfirst|]. constructor; [|constructor].
  cbn. now apply (append_terms_term_ok fm terms_fuses [] d_terms).
Qed.

Lemma P16L8_eqns_ok (self : PALBase) (cfg : P16L8.OLMC) (eqns : list eqn) :
  In cfg P16L8.macrocell_config ->
  P16L8.get_macrocell_eqns self cfg = Ok eqns ->
  Forall (fun e : eqn => expr_ok (snd e)) eqns.
Proof.
  intros Hin H. apply pal_config_In in Hin. unfold pal_config_ok in Hin.
  rewrite !andb_true_iff in Hin. destruct Hin as [[[Hoe Hrows] _] _].
  unfold P16L8.get_macrocell_eqns in H.
  destruct (get_pin_name self (P16L8.pin cfg)) as [name|e]; cbn [bind] in H;
    [|discriminate].
  eapply oe_and_output_eqns_ok; [| |exact H].
  - now apply table_row_width.
  - now apply table_rows_width.
Qed.

Lemma gal_config_widths (cfg : G16V8xx.OLMC) :
  In cfg G16V8xx.macrocell_config ->
  snd (G16V8xx.oe_fuses cfg) - fst (G16V8xx.oe_fuses cfg) = 32
  /\ Forall (fun r => snd r - fst r = 32) (G16V8xx.terms_fuses cfg).
Proof.
  intros Hin. destruct (gal_config_rows cfg Hin) as (Hoe & Hrows & _). split.
  - now apply table_row_width.
  - now apply table_rows_width.
Qed.

Lemma G16V8MA_eqns_ok (self : PALBase) (cfg : G16V8xx.OLMC) (eqns : list eqn) :
  In cfg G16V8xx.macrocell_config ->
  G16V8MA.get_macrocell_eqns self cfg = Ok eqns ->
  Forall (fun e : eqn => expr_ok (snd e)) eqns.
Proof.
  intros Hin H. destruct (gal_config_widths cfg Hin) as [Hoe Hrows].
  unfold G16V8MA.get_macrocell_eqns in H.
  destruct (get_pin_name self (G16V8xx.pin cfg)) as [name|e]; cbn [bind] in H;
    [|discriminate].
  eapply oe_and_output_eqns_ok; [exact Hoe | exact Hrows | exact H].
Qed.

Lemma G16V8MS_eqns_ok (self : PALBase) (cfg : G16V8xx.OLMC) (eqns : list eqn) :
  In cfg G16V8xx.macrocell_config ->
  G16V8MS.get_macrocell_eqns self cfg = Ok eqns ->
  Forall (fun e : eqn => expr_ok (snd e)) eqns.
Proof.
  intros Hin H. destruct (gal_config_widths cfg Hin) as [Hoe Hrows].
  unfold G16V8MS.get_macrocell_eqns in H.
  destruct (get_pin_name self (G16V8xx.pin cfg)) as [name|e]; cbn [bind] in H;
    [|discriminate].
  destruct (is_term_nonzero (fusemap self) (G16V8xx.oe_fuses cfg)) as [live|e];
    cbn [bind] in H; [|discriminate].
  assert (Hoe_ok : forall oe_terms,
             (if live then collect_and_terms (fusemap self) (G16V8xx.oe_fuses cfg)
              else Ok []) = Ok oe_terms -> term_ok oe_terms).
  { intros t Ht. destruct live.
    - now apply (collect_and_terms_term_ok (fusemap self) (G16V8xx.oe_fuses cfg)).
    - injection Ht as <-. split; constructor. }
  destruct (if live then _ else _) as [oe_terms|e]; cbn [bind] in H; [|discriminate].
  specialize (Hoe_ok oe_terms eq_refl).
  destruct (append_terms (fusemap self) (G16V8xx.terms_fuses cfg) []) as [d_terms|e] eqn:Ed;
    cbn [bind] in H; [|discriminate].
  pose proof (append_terms_term_ok _ _ _ _ Hrows (Forall_nil _) Ed) as Hd.
  destruct (getitem (fusemap self) (G16V8xx.ac1_fuse cfg)) as [ac1|e]; cbn [bind] in H;
    [|discriminate].
  destruct (negb (ac1 =? 0)); injection H as <-.
  - destruct (nonempty oe_terms), (nonempty d_terms);
      repeat (constructor; try assumption).
  - destruct (nonempty oe_terms).
    + cbn [nonempty]. constructor; [|constructor]. cbn. now constructor.
    + destruct (nonempty d_terms); constructor; [exact Hd | constructor].
Qed.

Lemma G16V8AS_eqns_ok (self : PALBase) (cfg : G16V8xx.OLMC) (eqns : list eqn) :
  In cfg G16V8xx.macrocell_config ->
  G16V8AS.get_macrocell_eqns self cfg = Ok eqns ->
  Forall (fun e : eqn => expr_ok (snd e)) eqns.
Proof.
  intros Hin H. destruct (gal_config_widths cfg Hin) as [Hoe Hrows].
  unfold G16V8AS.get_macrocell_eqns in H.
  destruct (getitem (fusemap self) (G16V8xx.ac1_fuse cfg)) as [ac1|e]; cbn [bind] in H;
    [|discriminate].
  destruct (ac1 =? 0); [|injection H as <-; constructor].
  destruct (get_pin_name self (G16V8xx.pin cfg)) as [name|e]; cbn [bind] in H;
    [|discriminate].
  destruct (is_term_nonzero (fusemap self) (G16V8xx.oe_fuses cfg)) as [live|e];
    cbn [bind] in H; [|discriminate].
  assert (Hfirst : forall ts,
             (if live then
                terms <- collect_and_terms (fusemap self) (G16V8xx.oe_fuses cfg) ;;
                Ok (if nonempty terms then [terms] else [])
              else Ok []) = Ok ts -> Forall term_ok ts).
  { intros ts Hts. destruct live.
    - destruct (collect_and_terms (fusemap self) (G16V8xx.oe_fuses cfg)) as [terms|e] eqn:Et;
        cbn [bind] in Hts; [|discriminate].
      injection Hts as <-. destruct (nonempty terms); constructor; [|constructor].
      now apply (collect_and_terms_term_ok (fusemap self) (G16V8xx.oe_fuses cfg)).
    - injection Hts as <-. constructor. }
  destruct (if live then _ else _) as [ts|e]; cbn [bind] in H; [|discriminate].
  specialize (Hfirst ts eq_refl).
  destruct (append_terms (fusemap self) (G16V8xx.terms_fuses cfg) ts) as [d_terms|e] eqn:Ed;
    cbn [bind] in H; [|discriminate].
  pose proof (append_terms_term_ok _ _ _ _ Hrows Hfirst Ed) as Hd.
  injection H as <-. destruct (nonempty d_terms); constructor; [exact Hd | constructor].
Qed.

Lemma input_names_loop_length (self : PALBase) (input_map : list (Z * bool))
      (names : list string) :
  input_names_loop self input_map = Ok names ->
  List.length names = (2 * List.length input_map)%nat.
Proof.
  revert names. induction input_map as [|[p inv] m IH]; intros names H.
  - cbn in H. now injection H as <-.
  - cbn [input_names_loop] in H.
    destruct (get_pin_name self p) as [name|e]; cbn [bind] in H; [|discriminate].
    destruct (inverted name) as [iname|e]; cbn [bind] in H; [|discriminate].
    destruct (input_names_loop self m) as [ns|e]; cbn [bind] in H; [|discriminate].
    injection H as <-. specialize (IH ns eq_refl).
    destruct inv; cbn [List.length]; lia.
Qed.

Ltac input_map_length H :=
  repeat match type of H with
         | (_ <- ?m ;; _) = Ok _ =>
             destruct m; cbn [bind] in H; [|discriminate H]
         end;
  injection H as <-; reflexivity.

Lemma get_input_map_length (v : variant) (self : PALBase) (m : list (Z * bool)) :
  get_input_map (class_of v) self = Ok m -> List.length m = 16%nat.
Proof.
  intros H. destruct v; cbn [class_of get_input_map] in H.
  - unfold P16L8.get_input_map in H. input_map_length H.
  - unfold G16V8AS.get_input_map in H. input_map_length H.
  - unfold G16V8MA.get_input_map in H. input_map_length H.
  - unfold G16V8MS.get_input_map in H. input_map_length H.
Qed.

Lemma get_input_names_length (d : device) (names : list string) :
  get_input_names d = Ok names -> List.length names = 32%nat.
Proof.
  unfold get_input_names. intros H.
  destruct (get_input_map (class_of (kind d)) (self_of d)) as [m|e] eqn:Em;
    cbn [bind] in H; [|discriminate].
  apply input_names_loop_length in H.
  apply get_input_map_length in Em. lia.
Qed.

Lemma lookup_names_ok (names : list string) (t : ANDList) :
  List.length names = 32%nat -> Forall (fun i => 0 <= i < 32) t ->
  exists items, CUPLPrinter.lookup_names names t = Ok items.
Proof.
  intros Hlen Ht. induction Ht as [|i t Hi Ht IH]; [now eexists|].
  destruct IH as (items & IH). cbn [CUPLPrinter.lookup_names].
  rewrite (getitem_in_range names i EmptyString) by lia. cbn [bind].
  rewrite IH. now eexists.
Qed.

Lemma stringize_terms_ok (names : list string) (ts : ORList) :
  List.length names = 32%nat -> Forall term_ok ts ->
  exists items, CUPLPrinter.stringize_terms names ts = Ok items.
Proof.
  intros Hlen Hts. induction Hts as [|t ts [_ Ht] Hts IH]; [now eexists|].
  destruct IH as (items & IH). cbn [CUPLPrinter.stringize_terms].
  unfold CUPLPrinter.stringize_term.
  destruct (lookup_names_ok names t Hlen Ht) as (ns & ->). cbn [bind].
  rewrite IH. now eexists.
Qed.

Lemma eqn_text_ok (names : list string) (e : eqn) :
  List.length names = 32%nat -> expr_ok (snd e) ->
  exists text, CUPLPrinter.eqn_text (fst e) (snd e) names = Ok text.
Proof.
  intros Hlen He. unfold CUPLPrinter.eqn_text. destruct (snd e) as [t|ts]; cbn in He.
  - cbn [CUPLPrinter.stringize_list]. unfold CUPLPrinter.stringize_term.
    destruct He as [_ Ht].
    destruct (lookup_names_ok names t Hlen Ht) as (ns & ->). now eexists.
  - cbn [CUPLPrinter.stringize_list].
    destruct (stringize_terms_ok names ts Hlen He) as (items & ->). now eexists.
Qed.

(** C10: for every device variant and every macrocell of its table, every
    AND node of every equation returned by [get_macrocell_eqns] lists literal
    indices of [0, 32) in strictly increasing order; the table returned by
    [get_input_names] has 32 entries, so rendering each of these equations
    against it succeeds. *)
Theorem literal_indices_in_range (d : device) (cfg : OLMC (class_of (kind d)))
        (eqns : list eqn) :
  In cfg (macrocell_config (class_of (kind d))) ->
  get_macrocell_eqns (class_of (kind d)) (self_of d) cfg = Ok eqns ->
  Forall (fun e : eqn => expr_ok (snd e)) eqns
  /\ (forall names,
        get_input_names d = Ok names ->
        List.length names = 32%nat
        /\ Forall (fun e : eqn =>
                     exists text,
                       CUPLPrinter.eqn_text (fst e) (snd e) names = Ok text) eqns).
Proof.
  intros Hin H.
  assert (Hok : Forall (fun e : eqn => expr_ok (snd e)) eqns).
  { destruct d as [v self]. destruct v; cbn in cfg, Hin, H.
    - now apply (P16L8_eqns_ok self cfg).
    - now apply (G16V8AS_eqns_ok self cfg).
    - now apply (G16V8MA_eqns_ok self cfg).
    - now apply (G16V8MS_eqns_ok self cfg). }
  split; [exact Hok|].
  intros names Hnames. pose proof (get_input_names_length d names Hnames) as Hlen.
  split; [exact Hlen|].
  apply Forall_forall. intros e He. rewrite Forall_forall in Hok.
  apply eqn_text_ok; auto.
Qed.

Lemma literal_indices_in_range_witness :
  Forall (fun e : eqn => expr_ok (snd e))
         [("PIN19.oe"%string, AND [0]); ("PIN19"%string, OR [[1]])]
  /\ (forall names,
        get_input_names (mkDevice PAL16L8 (PALBase_init pal_two_fuses None)) = Ok names ->
        List.length names = 32%nat
        /\ Forall (fun e : eqn =>
                     exists text,
                       CUPLPrinter.eqn_text (fst e) (snd e) names = Ok text)
                  [("PIN19.oe"%string, AND [0]); ("PIN19"%string, OR [[1]])]).
Proof.
  apply (literal_indices_in_range
           (mkDevice PAL16L8 (PALBase_init pal_two_fuses None)) pal_pin19).
  - left. reflexivity.
  - vm_compute. reflexivity.
Defined.

(** ** Characters *)

Ltac ascii_cases c :=
  destruct c as [[|] [|] [|] [|] [|] [|] [|] [|]].

Lemma digit_char (c : ascii) :
  is_digit c = true ->
  py_isspace c = false /\ fold_newline c = c /\ is_delimiter c = false
  /\ Ascii.eqb c SPACE = false /\ Ascii.eqb c "+"%char = false
  /\ Ascii.eqb c "-"%char = false.
Proof.
  intros H. ascii_cases c; vm_compute in H; try discriminate H;
    vm_compute; repeat split; reflexivity.
Qed.

Lemma space_char (c : ascii) :
  py_isspace c = true ->
  py_isspace (fold_newline c) = true /\ is_delimiter c = false.
Proof.
  intros H. ascii_cases c; vm_compute in H; try discriminate H;
    vm_compute; split; reflexivity.
Qed.

Lemma data_char (c : ascii) :
  is_data_char c = true ->
  if is_digit c then fold_newline c = c else fold_newline c = SPACE.
Proof.
  intros H. ascii_cases c; vm_compute in H; try discriminate H;
    vm_compute; reflexivity.
Qed.

Lemma is_delimiter_false (c : ascii) :
  is_delimiter c = false -> Ascii.eqb c STAR = false /\ Ascii.eqb c ETX = false.
Proof. unfold is_delimiter. intros H. now apply orb_false_iff in H. Qed.

(** ** [int], [lstrip] and [split] on well-formed text *)

Lemma lstrip_first (c : ascii) (s : str) :
  py_isspace c = false -> lstrip (c :: s) = c :: s.
Proof. intros H. cbn [lstrip]. now rewrite H. Qed.

Lemma lstrip_no_blank (s : str) :
  forallb (fun c => negb (py_isspace c)) s = true -> lstrip s = s.
Proof.
  destruct s as [|c s]; [reflexivity|]. cbn [forallb lstrip]. intros H.
  apply andb_true_iff in H. destruct H as [H _].
  apply negb_true_iff in H. now rewrite H.
Qed.

Lemma lstrip_blanks (lead s : str) :
  forallb py_isspace lead = true -> lstrip (lead ++ s) = lstrip s.
Proof.
  induction lead as [|c lead IH]; [reflexivity|]. cbn [forallb app lstrip]. intros H.
  apply andb_true_iff in H. destruct H as [Hc Hl]. rewrite Hc. now apply IH.
Qed.

Lemma digits_no_blank (ds : str) :
  forallb is_digit ds = true -> forallb (fun c => negb (py_isspace c)) ds = true.
Proof.
  intros H. apply forallb_forall. intros c Hc.
  pose proof (proj1 (forallb_forall _ _) H c Hc) as Hd.
  apply digit_char in Hd. destruct Hd as [Hs _]. now rewrite Hs.
Qed.

Lemma int_isspace_isspace (c : ascii) : int_isspace c = true -> py_isspace c = true.
Proof.
  intros H. ascii_cases c; vm_compute in H; try discriminate H; reflexivity.
Qed.

Lemma int_lstrip_no_blank (s : str) :
  forallb (fun c => negb (py_isspace c)) s = true -> int_lstrip s = s.
Proof.
  destruct s as [|c s]; [reflexivity|]. cbn [forallb int_lstrip]. intros H.
  apply andb_true_iff in H. destruct H as [H _]. apply negb_true_iff in H.
  destruct (int_isspace c) eqn:E; [|reflexivity].
  apply int_isspace_isspace in E. congruence.
Qed.

Lemma int_strip_no_blank (s : str) :
  forallb (fun c => negb (py_isspace c)) s = true -> int_strip s = s.
Proof.
  intros H. unfold int_strip.
  assert (Hrev : forallb (fun c => negb (py_isspace c)) (rev s) = true).
  { apply forallb_forall. intros c Hc. apply in_rev in Hc.
    exact (proj1 (forallb_forall _ _) H c Hc). }
  rewrite (int_lstrip_no_blank (rev s)) by exact Hrev.
  rewrite rev_involutive. now apply int_lstrip_no_blank.
Qed.

Lemma strip_digits (ds : str) : forallb is_digit ds = true -> int_strip ds = ds.
Proof. intros H. now apply int_strip_no_blank, digits_no_blank. Qed.

Lemma parse_digits_number (ds : str) (acc : Z) (seen : bool) :
  forallb is_digit ds = true -> nonempty ds || seen = true ->
  parse_digits acc seen ds
  = Some (fold_left (fun acc c => 10 * acc + digit_value c) ds acc).
Proof.
  revert acc seen. induction ds as [|c ds IH]; intros acc seen Hd Hn.
  - cbn in Hn. subst seen. reflexivity.
  - cbn [forallb] in Hd. apply andb_true_iff in Hd. destruct Hd as [Hc Hd].
    cbn [parse_digits fold_left]. rewrite Hc. apply IH; [exact Hd|].
    apply orb_true_r.
Qed.

Lemma py_int_number (ds : str) : is_number ds = true -> py_int ds = Ok (dec_value ds).
Proof.
  unfold is_number. intros H. apply andb_true_iff in H. destruct H as [Hn Hd].
  unfold py_int. rewrite strip_digits by exact Hd.
  destruct ds as [|c ds]; [discriminate Hn|].
  pose proof Hd as Hd'. cbn [forallb] in Hd'. apply andb_true_iff in Hd'.
  destruct Hd' as [Hc _]. apply digit_char in Hc.
  destruct Hc as (_ & _ & _ & _ & Hplus & Hminus). rewrite Hplus, Hminus.
  rewrite parse_digits_number by (exact Hd || reflexivity). reflexivity.
Qed.

Lemma py_int_digit (c : ascii) : is_digit c = true -> py_int [c] = Ok (digit_value c).
Proof.
  intros H. rewrite py_int_number by (unfold is_number; cbn; now rewrite H).
  unfold dec_value. cbn [fold_left]. f_equal.
Qed.

(** [int] drops blanks and line breaks around a numeral, accepts a sign and
    single underscores between digits and, unlike [str.split], refuses the
    separators U+001C..U+001F. *)
Example py_int_samples :
  py_int (lit " 12" ++ [LF]) = Ok 12
  /\ py_int (lit "1_2") = Ok 12
  /\ py_int (lit "-7") = Ok (-7)
  /\ py_int ("028"%char :: lit "12") = Raise ValueError
  /\ py_int (lit "1 2") = Raise ValueError
  /\ py_int [] = Raise ValueError.
Proof. repeat split. Qed.

Lemma map_fold_digits (ds : str) :
  forallb is_digit ds = true -> map fold_newline ds = ds.
Proof.
  induction ds as [|c ds IH]; [reflexivity|]. cbn [forallb map]. intros H.
  apply andb_true_iff in H. destruct H as [Hc Hd]. apply digit_char in Hc.
  destruct Hc as (_ & -> & _). now rewrite IH.
Qed.

Lemma map_fold_blanks (s : str) :
  forallb py_isspace s = true -> forallb py_isspace (map fold_newline s) = true.
Proof.
  induction s as [|c s IH]; [reflexivity|]. cbn [forallb map]. intros H.
  apply andb_true_iff in H. destruct H as [Hc Hs]. apply space_char in Hc.
  destruct Hc as [-> _]. now apply IH.
Qed.

Lemma split_word_digits (w r : str) (c : ascii) :
  forallb is_digit w = true -> py_isspace c = true ->
  split_word (w ++ c :: r) = (w, c :: r).
Proof.
  intros Hw Hc. induction w as [|d w IH].
  - cbn. now rewrite Hc.
  - cbn [forallb] in Hw. apply andb_true_iff in Hw. destruct Hw as [Hd Hw].
    apply digit_char in Hd. destruct Hd as [Hd _].
    cbn [app split_word]. rewrite Hd, IH by exact Hw. reflexivity.
Qed.

Lemma remove_spaces_data (data : str) :
  forallb is_data_char data = true ->
  remove_spaces (map fold_newline data) = filter is_digit data.
Proof.
  unfold remove_spaces. induction data as [|c data IH]; [reflexivity|].
  cbn [forallb map filter]. intros H. apply andb_true_iff in H.
  destruct H as [Hc Hd]. apply data_char in Hc. rewrite IH by exact Hd.
  destruct (is_digit c) eqn:Ec; rewrite Hc.
  - apply digit_char in Ec. destruct Ec as (_ & _ & _ & -> & _). reflexivity.
  - reflexivity.
Qed.

Lemma py_split1_L_command (pos sep data : str) :
  field_ok (FieldL pos sep data) = true ->
  py_split1 (L_command pos sep data) = [pos; map fold_newline data].
Proof.
  cbn [field_ok]. rewrite !andb_true_iff. intros [[[[Hpos Hsep] Hblank] Hfirst] Hdata].
  unfold is_number in Hpos. apply andb_true_iff in Hpos. destruct Hpos as [Hpn Hpd].
  unfold py_split1, L_command.
  destruct sep as [|s sep]; [discriminate Hsep|].
  pose proof (map_fold_blanks _ Hblank) as Hb. cbn [map forallb] in Hb.
  apply andb_true_iff in Hb. destruct Hb as [Hs Hb].
  assert (Hl : lstrip (pos ++ map fold_newline (s :: sep) ++ map fold_newline data)
               = pos ++ map fold_newline (s :: sep) ++ map fold_newline data).
  { destruct pos as [|d pos]; [discriminate Hpn|]. cbn [forallb] in Hpd.
    apply andb_true_iff in Hpd. destruct Hpd as [Hd _]. apply digit_char in Hd.
    destruct Hd as [Hd _]. cbn [app]. now apply lstrip_first. }
  rewrite Hl. cbn [map app].
  destruct pos as [|d pos]; [discriminate Hpn|].
  rewrite <- app_comm_cons.
  change (d :: pos ++ fold_newline s :: map fold_newline sep ++ map fold_newline data)
    with ((d :: pos) ++ fold_newline s :: map fold_newline sep ++ map fold_newline data).
  rewrite split_word_digits by assumption.
  cbn [lstrip]. rewrite Hs. rewrite lstrip_blanks by exact Hb.
  destruct data as [|c data]; [discriminate Hfirst|].
  pose proof Hfirst as Hc. apply digit_char in Hc. destruct Hc as (Hc & Hfold & _).
  cbn [map]. rewrite Hfold. rewrite lstrip_first by exact Hc. reflexivity.
Qed.

(** ** The tokenizer *)

Lemma skip_preamble_star (pre rest : str) :
  forallb (fun c => negb (Ascii.eqb c STAR)) pre = true ->
  skip_preamble (pre ++ STAR :: rest) = Some rest.
Proof.
  induction pre as [|c pre IH]; [reflexivity|]. cbn [forallb app skip_preamble].
  intros H. apply andb_true_iff in H. destruct H as [Hc Hp].
  apply negb_true_iff in Hc. rewrite Hc. now apply IH.
Qed.

Lemma read_command_step (fuel : nat) (buffer : str) (c : ascii) (fp : str) :
  is_delimiter c = false ->
  read_command (S fuel) buffer (Some c) fp
  = read_command fuel (buffer ++ [fold_newline c]) (fst (read1 fp)) (snd (read1 fp)).
Proof.
  intros Hc. apply is_delimiter_false in Hc. destruct Hc as [Hstar Hetx].
  cbn [read_command]. rewrite Hstar, Hetx. now destruct (read1 fp).
Qed.

Lemma read_command_star (raw rest : str) (fuel : nat) (buffer : str) :
  forallb (fun c => negb (is_delimiter c)) raw = true ->
  (List.length raw < fuel)%nat ->
  read_command fuel buffer (fst (read1 (raw ++ STAR :: rest)))
               (snd (read1 (raw ++ STAR :: rest)))
  = Some (Some (buffer ++ map fold_newline raw, rest)).
Proof.
  revert fuel buffer. induction raw as [|c raw IH]; intros fuel buffer Hraw Hfuel.
  - destruct fuel as [|fuel]; [cbn in Hfuel; lia|]. cbn. now rewrite app_nil_r.
  - cbn [forallb] in Hraw. apply andb_true_iff in Hraw. destruct Hraw as [Hc Hraw].
    apply negb_true_iff in Hc.
    destruct fuel as [|fuel]; [cbn in Hfuel; lia|]. cbn [List.length] in Hfuel.
    cbn [app read1 fst snd]. rewrite read_command_step by exact Hc.
    rewrite IH by (assumption || lia). cbn [map]. now rewrite <- app_assoc.
Qed.

Lemma read_command_etx (raw rest : str) (fuel : nat) (buffer : str) :
  forallb (fun c => negb (is_delimiter c)) raw = true ->
  (List.length raw < fuel)%nat ->
  read_command fuel buffer (fst (read1 (raw ++ ETX :: rest)))
               (snd (read1 (raw ++ ETX :: rest)))
  = Some None.
Proof.
  revert fuel buffer. induction raw as [|c raw IH]; intros fuel buffer Hraw Hfuel.
  - destruct fuel as [|fuel]; [cbn in Hfuel; lia|]. reflexivity.
  - cbn [forallb] in Hraw. apply andb_true_iff in Hraw. destruct Hraw as [Hc Hraw].
    apply negb_true_iff in Hc.
    destruct fuel as [|fuel]; [cbn in Hfuel; lia|]. cbn [List.length] in Hfuel.
    cbn [app read1 fst snd]. rewrite read_command_step by exact Hc.
    apply IH; assumption || lia.
Qed.

(** Without a delimiter in the unread text the inner loop never exits: at
    end of file [fp.read(1)] keeps returning the empty string. *)
Lemma read_command_no_delimiter (fuel : nat) (buffer : str) (ch : option ascii) (fp : str) :
  match ch with
  | Some c => is_delimiter c = false
  | None => True
  end ->
  forallb (fun c => negb (is_delimiter c)) fp = true ->
  read_command fuel buffer ch fp = None.
Proof.
  revert buffer ch fp. induction fuel as [|fuel IH]; intros buffer ch fp Hch Hfp;
    [reflexivity|].
  assert (Hnext : match fst (read1 fp) with
                  | Some c => is_delimiter c = false
                  | None => True
                  end
                  /\ forallb (fun c => negb (is_delimiter c)) (snd (read1 fp)) = true).
  { destruct fp as [|c fp]; cbn [read1 fst snd]; [now split|].
    cbn [forallb] in Hfp. apply andb_true_iff in Hfp. destruct Hfp as [Hc Hfp].
    apply negb_true_iff in Hc. now split. }
  destruct Hnext as [Hn1 Hn2].
  destruct ch as [c|].
  - rewrite read_command_step by exact Hch. now apply IH.
  - cbn [read_command]. destruct (read1 fp) as [ch' fp']. now apply IH.
Qed.

Lemma next_command_star (raw rest : str) (fuel : nat) :
  forallb (fun c => negb (is_delimiter c)) raw = true ->
  (List.length raw < fuel)%nat ->
  next_command fuel (raw ++ STAR :: rest)
  = Some (Some (lstrip (map fold_newline raw)), GenSuspended rest).
Proof.
  intros Hraw Hfuel. unfold next_command.
  pose proof (read_command_star raw rest fuel [] Hraw Hfuel) as H.
  destruct (read1 (raw ++ STAR :: rest)) as [ch fp']. cbn [fst snd] in H.
  now rewrite H.
Qed.

Lemma next_command_etx (raw rest : str) (fuel : nat) :
  forallb (fun c => negb (is_delimiter c)) raw = true ->
  (List.length raw < fuel)%nat ->
  next_command fuel (raw ++ ETX :: rest) = Some (None, GenDone).
Proof.
  intros Hraw Hfuel. unfold next_command.
  pose proof (read_command_etx raw rest fuel [] Hraw Hfuel) as H.
  destruct (read1 (raw ++ ETX :: rest)) as [ch fp']. cbn [fst snd] in H.
  now rewrite H.
Qed.

Lemma next_command_no_delimiter (fuel : nat) (fp : str) :
  forallb (fun c => negb (is_delimiter c)) fp = true ->
  next_command fuel fp = None.
Proof.
  intros Hfp. unfold next_command.
  destruct fp as [|c fp]; cbn [read1].
  - now rewrite read_command_no_delimiter.
  - cbn [forallb] in Hfp. apply andb_true_iff in Hfp. destruct Hfp as [Hc Hfp].
    apply negb_true_iff in Hc. now rewrite read_command_no_delimiter.
Qed.

(** ** Commands *)

Lemma startswith_nil (s : str) : startswith s [] = true.
Proof. now destruct s. Qed.

Lemma field_command_lead (lead : str) (f : field) :
  forallb py_isspace lead = true ->
  lstrip (map fold_newline (lead ++ field_text f)) = field_command f.
Proof.
  intros H. rewrite map_app. now rewrite lstrip_blanks by now apply map_fold_blanks.
Qed.

Lemma field_command_QF (ds : str) :
  forallb is_digit ds = true -> field_command (FieldQF ds) = lit "QF" ++ ds.
Proof.
  intros H. unfold field_command, field_text. rewrite map_app, (map_fold_digits ds) by exact H.
  reflexivity.
Qed.

Lemma field_command_F (ds : str) :
  forallb is_digit ds = true -> field_command (FieldF ds) = lit "F" ++ ds.
Proof.
  intros H. unfold field_command, field_text. rewrite map_app, (map_fold_digits ds) by exact H.
  reflexivity.
Qed.

Lemma field_command_L (pos sep data : str) :
  forallb is_digit pos = true ->
  field_command (FieldL pos sep data) = lit "L" ++ L_command pos sep data.
Proof.
  intros H. unfold field_command, field_text, L_command.
  rewrite !map_app, (map_fold_digits pos) by exact H. reflexivity.
Qed.

Lemma load_command_field (st : loader) (f : field) :
  field_ok f = true -> load_command st (field_command f) = Ok (load_field st f).
Proof.
  destruct f as [ds|ds|pos sep data|text]; cbn [field_ok load_field]; intros Hok.
  - pose proof Hok as Hn. unfold is_number in Hn. apply andb_true_iff in Hn.
    rewrite field_command_QF by apply Hn.
    unfold load_command. cbn [lit list_ascii_of_string app startswith skipn].
    cbn [Ascii.eqb Bool.eqb andb]. rewrite startswith_nil.
    now rewrite py_int_number.
  - pose proof Hok as Hn. unfold is_number in Hn. apply andb_true_iff in Hn.
    rewrite field_command_F by apply Hn.
    unfold load_command. cbn [lit list_ascii_of_string app startswith skipn].
    cbn [Ascii.eqb Bool.eqb andb]. rewrite startswith_nil.
    now rewrite py_int_number.
  - rewrite !andb_true_iff in Hok. destruct Hok as [[[[Hpos _] _] _] _].
    unfold is_number in Hpos. apply andb_true_iff in Hpos.
    rewrite field_command_L by apply Hpos.
    unfold load_command. cbn [lit list_ascii_of_string app startswith skipn].
    cbn [Ascii.eqb Bool.eqb andb]. rewrite startswith_nil. reflexivity.
  - apply andb_true_iff in Hok. destruct Hok as [_ Hcmd].
    cbn zeta in Hcmd. rewrite !andb_true_iff, !negb_true_iff in Hcmd.
    destruct Hcmd as [[Hqf Hf] Hl].
    unfold load_command, field_command, field_text. now rewrite Hqf, Hf, Hl.
Qed.

Lemma field_text_no_delimiter (lead : str) (f : field) :
  forallb py_isspace lead = true -> field_ok f = true ->
  forallb (fun c => negb (is_delimiter c)) (lead ++ field_text f) = true.
Proof.
  intros Hlead Hok.
  assert (Hdigits : forall ds, forallb is_digit ds = true ->
                               forallb (fun c => negb (is_delimiter c)) ds = true).
  { intros ds H. apply forallb_forall. intros c Hc.
    pose proof (proj1 (forallb_forall _ _) H c Hc) as Hd. apply digit_char in Hd.
    destruct Hd as (_ & _ & -> & _). reflexivity. }
  assert (Hblanks : forall s, forallb py_isspace s = true ->
                              forallb (fun c => negb (is_delimiter c)) s = true).
  { intros s H. apply forallb_forall. intros c Hc.
    pose proof (proj1 (forallb_forall _ _) H c Hc) as Hd. apply space_char in Hd.
    destruct Hd as [_ ->]. reflexivity. }
  assert (Hdata : forall s, forallb is_data_char s = true ->
                            forallb (fun c => negb (is_delimiter c)) s = true).
  { intros s H. apply forallb_forall. intros c Hc.
    pose proof (proj1 (forallb_forall _ _) H c Hc) as Hd.
    ascii_cases c; vm_compute in Hd; try discriminate Hd; reflexivity. }
  rewrite forallb_app. rewrite Hblanks by exact Hlead. cbn [andb].
  destruct f as [ds|ds|pos sep data|text]; cbn [field_ok field_text] in *.
  - unfold is_number in Hok. apply andb_true_iff in Hok.
    rewrite forallb_app. rewrite (Hdigits ds) by apply Hok. reflexivity.
  - unfold is_number in Hok. apply andb_true_iff in Hok.
    rewrite forallb_app. rewrite (Hdigits ds) by apply Hok. reflexivity.
  - rewrite !andb_true_iff in Hok. destruct Hok as [[[[Hpos _] Hsep] _] Hd].
    unfold is_number in Hpos. apply andb_true_iff in Hpos.
    rewrite !forallb_app. rewrite (Hdigits pos) by apply Hpos.
    rewrite (Hblanks sep) by exact Hsep. rewrite (Hdata data) by exact Hd. reflexivity.
  - apply andb_true_iff in Hok. apply Hok.
Qed.

(** ** The first loop of [load_jedec] *)

Lemma load_commands_fields (fs : list (str * field)) (trailer rest : str) :
  fields_ok fs = true ->
  forallb (fun c => negb (is_delimiter c)) trailer = true ->
  forall (fuel : nat) (g : generator) (st : loader),
    (forall k, next k g = next_command k (fields_text fs ++ trailer ++ ETX :: rest)) ->
    (List.length (fields_text fs ++ trailer) < fuel)%nat ->
    load_commands fuel g st = Some (Ok (load_fields st fs)).
Proof.
  intros Hfs Htrailer. induction fs as [|[lead f] fs IH]; intros fuel g st Hg Hfuel.
  - destruct fuel as [|fuel]; [cbn in Hfuel; lia|].
    cbn [load_commands]. rewrite Hg. cbn [fields_text map concat app] in *.
    now rewrite next_command_etx.
  - unfold fields_ok in Hfs. cbn [forallb fst snd] in Hfs.
    rewrite !andb_true_iff in Hfs. destruct Hfs as [[Hlead Hf] Hfs].
    destruct fuel as [|fuel]; [cbn in Hfuel; lia|].
    cbn [load_commands]. rewrite Hg.
    assert (Htext : fields_text ((lead, f) :: fs) ++ trailer ++ ETX :: rest
                    = (lead ++ field_text f)
                        ++ STAR :: (fields_text fs ++ trailer ++ ETX :: rest)).
    { unfold fields_text. cbn [map concat fst snd]. rewrite <- !app_assoc. reflexivity. }
    assert (Hlen : List.length (fields_text ((lead, f) :: fs) ++ trailer)
                   = (List.length (lead ++ field_text f) + 1
                      + List.length (fields_text fs ++ trailer))%nat).
    { unfold fields_text. cbn [map concat fst snd]. rewrite !length_app. cbn. lia. }
    rewrite Htext.
    rewrite next_command_star
      by (try (apply field_text_no_delimiter; assumption); lia).
    rewrite field_command_lead by exact Hlead.
    rewrite load_command_field by exact Hf.
    apply IH; [exact Hfs | reflexivity | lia].
Qed.

Lemma load_fields_num_fuses (fs : list (str * field)) (st : loader) :
  num_fuses (load_fields st fs)
  = fold_left (fun acc lf => match snd lf with
                             | FieldQF digits => Some (dec_value digits)
                             | _ => acc
                             end) fs (num_fuses st).
Proof.
  revert st. induction fs as [|[lead f] fs IH]; intros st; [reflexivity|].
  unfold load_fields in *. cbn [fold_left snd]. rewrite IH. now destruct f.
Qed.

Lemma load_fields_default (fs : list (str * field)) (st : loader) :
  default (load_fields st fs)
  = fold_left (fun acc lf => match snd lf with
                             | FieldF digits => dec_value digits
                             | _ => acc
                             end) fs (default st).
Proof.
  revert st. induction fs as [|[lead f] fs IH]; intros st; [reflexivity|].
  unfold load_fields in *. cbn [fold_left snd]. rewrite IH. now destruct f.
Qed.

Lemma load_fields_fuse_list (fs : list (str * field)) (st : loader) :
  fuse_list (load_fields st fs)
  = fuse_list st ++ flat_map (fun lf => field_L_commands (snd lf)) fs.
Proof.
  revert st. induction fs as [|[lead f] fs IH]; intros st.
  - cbn. now rewrite app_nil_r.
  - unfold load_fields in *. cbn [fold_left flat_map snd]. rewrite IH.
    destruct f; cbn [load_field field_L_commands fuse_list app]; try reflexivity.
    now rewrite <- app_assoc.
Qed.

(** ** The second loop of [load_jedec] *)

Lemma py_range_cons (a b : Z) : a < b -> py_range a b = a :: py_range (a + 1) b.
Proof.
  intros Hab. unfold py_range.
  replace (Z.to_nat (b - a)) with (S (Z.to_nat (b - (a + 1)))) by lia.
  cbn [seq map]. f_equal; [lia|].
  rewrite <- seq_shift, map_map. apply map_ext. intros k. lia.
Qed.

Lemma py_range_empty (a b : Z) : b <= a -> py_range a b = [].
Proof.
  intros Hab. unfold py_range. now replace (Z.to_nat (b - a)) with 0%nat by lia.
Qed.

Lemma covers_spec (p : Z) (w : write) :
  covers p w = true <-> fst w <= p < fst w + Z.of_nat (List.length (snd w)).
Proof. unfold covers. rewrite andb_true_iff, Z.leb_le, Z.ltb_lt. tauto. Qed.

Lemma covers_false (p : Z) (w : write) :
  covers p w = false <-> ~ (fst w <= p < fst w + Z.of_nat (List.length (snd w))).
Proof. rewrite <- covers_spec. now destruct (covers p w). Qed.

Lemma write_fuses_digits (cs : str) (p : Z) (fm : fusemap_t) :
  forallb is_digit cs = true ->
  0 <= p -> p + Z.of_nat (List.length cs) <= Z.of_nat (List.length fm) ->
  exists fm',
    write_fuses fm (combine (py_range p (p + Z.of_nat (List.length cs))) cs) = Ok fm'
    /\ List.length fm' = List.length fm
    /\ forall q, 0 <= q ->
                 fuse fm' q = if covers q (p, map digit_value cs)
                              then written (p, map digit_value cs) q
                              else fuse fm q.
Proof.
  revert p fm. induction cs as [|c cs IH]; intros p fm Hd Hp Hlen.
  - exists fm. rewrite py_range_empty by (cbn; lia). cbn [combine write_fuses].
    split; [reflexivity|]. split; [reflexivity|]. intros q Hq.
    replace (covers q (p, map digit_value [])) with false; [reflexivity|].
    symmetry. apply covers_false. cbn. lia.
  - cbn [forallb] in Hd. apply andb_true_iff in Hd. destruct Hd as [Hc Hd].
    cbn [List.length] in Hlen |- *.
    rewrite py_range_cons by lia. cbn [combine write_fuses].
    rewrite py_int_digit by exact Hc. cbn [bind].
    rewrite setitem_in_range by lia. cbn [bind].
    set (fm1 := update fm (Z.to_nat p) (digit_value c)).
    assert (Hlen1 : List.length fm1 = List.length fm) by apply update_length.
    destruct (IH (p + 1) fm1 Hd ltac:(lia) ltac:(rewrite Hlen1; lia))
      as (fm' & Hw & Hl & Hq).
    exists fm'.
    replace (p + Z.of_nat (S (List.length cs)))
      with (p + 1 + Z.of_nat (List.length cs)) by lia.
    split; [exact Hw|]. split; [congruence|].
    intros q Hq0. rewrite (Hq q Hq0). unfold fm1.
    rewrite fuse_update by lia.
    destruct (covers q (p + 1, map digit_value cs)) eqn:E1;
      destruct (covers q (p, map digit_value (c :: cs))) eqn:E2;
      [apply covers_spec in E1; apply covers_spec in E2
      |apply covers_spec in E1; apply covers_false in E2
      |apply covers_false in E1; apply covers_spec in E2
      |apply covers_false in E1; apply covers_false in E2];
      cbn [fst snd map List.length] in E1, E2; rewrite ?length_map in E1, E2.
    + unfold written. cbn [fst snd map].
      replace (Z.to_nat (q - p)) with (S (Z.to_nat (q - (p + 1)))) by lia.
      reflexivity.
    + lia.
    + destruct (Z.eqb_spec q p) as [->|Hne]; [|lia].
      unfold written. cbn [fst snd map]. now rewrite Z.sub_diag.
    + destruct (Z.eqb_spec q p) as [->|Hne]; [lia | reflexivity].
Qed.

Lemma write_command_L (pos sep data : str) (fm : fusemap_t) :
  field_ok (FieldL pos sep data) = true ->
  writes_in_range (field_writes (FieldL pos sep data)) (Z.of_nat (List.length fm)) = true ->
  exists fm',
    write_command fm (L_command pos sep data) = Ok fm'
    /\ List.length fm' = List.length fm
    /\ forall q, 0 <= q ->
                 fuse fm' q
                 = fuse_after (field_writes (FieldL pos sep data)) (fuse fm q) q.
Proof.
  intros Hok Hin. unfold write_command. rewrite py_split1_L_command by exact Hok.
  pose proof Hok as Hok'. cbn [field_ok] in Hok'. rewrite !andb_true_iff in Hok'.
  destruct Hok' as [[[[Hpos _] _] _] Hdata].
  rewrite remove_spaces_data by exact Hdata.
  rewrite py_int_number by exact Hpos. cbn [bind].
  cbn [field_writes writes_in_range forallb fst snd] in Hin.
  rewrite andb_true_r, andb_true_iff, !Z.leb_le, length_map in Hin.
  destruct Hin as [Hp Hlen].
  destruct (write_fuses_digits (filter is_digit data) (dec_value pos) fm)
    as (fm' & Hw & Hl & Hq).
  - apply forallb_forall. intros c Hc. now apply filter_In in Hc.
  - exact Hp.
  - exact Hlen.
  - exists fm'. split; [exact Hw|]. split; [exact Hl|]. exact Hq.
Qed.

Lemma writes_in_range_app (ws1 ws2 : list write) (n : Z) :
  writes_in_range (ws1 ++ ws2) n = writes_in_range ws1 n && writes_in_range ws2 n.
Proof. apply forallb_app. Qed.

Lemma write_commands_fields (fs : list (str * field)) (fm : fusemap_t) :
  fields_ok fs = true ->
  writes_in_range (file_writes fs) (Z.of_nat (List.length fm)) = true ->
  exists fm',
    write_commands fm (flat_map (fun lf => field_L_commands (snd lf)) fs) = Ok fm'
    /\ List.length fm' = List.length fm
    /\ forall q, 0 <= q -> fuse fm' q = fuse_after (file_writes fs) (fuse fm q) q.
Proof.
  revert fm. induction fs as [|[lead f] fs IH]; intros fm Hfs Hin.
  - exists fm. repeat split; reflexivity.
  - unfold fields_ok in Hfs. cbn [forallb fst snd] in Hfs.
    rewrite !andb_true_iff in Hfs. destruct Hfs as [[_ Hf] Hfs].
    unfold file_writes in Hin. cbn [flat_map snd] in Hin.
    rewrite writes_in_range_app in Hin. apply andb_true_iff in Hin.
    destruct Hin as [Hin1 Hin2].
    assert (Hskip : field_L_commands f = [] -> field_writes f = [] ->
                    exists fm',
                      write_commands fm
                        (flat_map (fun lf => field_L_commands (snd lf)) ((lead, f) :: fs))
                      = Ok fm'
                      /\ List.length fm' = List.length fm
                      /\ forall q, 0 <= q ->
                           fuse fm' q
                           = fuse_after (file_writes ((lead, f) :: fs)) (fuse fm q) q).
    { intros E1 E2. unfold file_writes. cbn [flat_map snd]. rewrite E1, E2.
      cbn [app]. now apply IH. }
    destruct f as [ds|ds|pos sep data|text]; try (apply Hskip; reflexivity).
    destruct (write_command_L pos sep data fm Hf Hin1) as (fm1 & Hw1 & Hl1 & Hq1).
    destruct (IH fm1 Hfs ltac:(rewrite Hl1; exact Hin2)) as (fm' & Hw & Hl & Hq).
    exists fm'. cbn [flat_map snd field_L_commands app write_commands].
    rewrite Hw1. cbn [bind]. split; [exact Hw|]. split; [congruence|].
    intros q Hq0. rewrite (Hq q Hq0), (Hq1 q Hq0).
    unfold file_writes, fuse_after. cbn [flat_map snd].
    now rewrite fold_left_app.
Qed.

Lemma find_snoc {A} (f : A -> bool) (l : list A) (x : A) :
  find f (l ++ [x])
  = match find f l with
    | Some y => Some y
    | None => if f x then Some x else None
    end.
Proof.
  induction l as [|y l IH]; cbn [app find]; [reflexivity|].
  now destruct (f y).
Qed.

Lemma fuse_after_expected (ws : list write) (cur p : Z) :
  fuse_after ws cur p = expected_fuse ws cur p.
Proof.
  unfold fuse_after, expected_fuse. revert cur.
  induction ws as [|w ws IH]; intros cur; [reflexivity|].
  cbn [fold_left rev]. rewrite IH, find_snoc.
  destruct (find (covers p) (rev ws)); [reflexivity|].
  now destruct (covers p w).
Qed.

Lemma fuse_repeat (v : Z) (n : nat) (q : Z) :
  0 <= q < Z.of_nat n -> fuse (repeat v n) q = v.
Proof.
  intros Hq. unfold fuse.
  rewrite (nth_indep _ 0 v) by (rewrite repeat_length; lia).
  apply nth_repeat.
Qed.

(** ** End of file inside the command loop *)

(** The inner loop is still running after [fuel] iterations when more than
    [fuel] characters precede the next ["*"]. *)
Lemma read_command_short (raw rest : str) (fuel : nat) (buffer : str) :
  forallb (fun c => negb (is_delimiter c)) raw = true ->
  (fuel <= List.length raw)%nat ->
  read_command fuel buffer (fst (read1 (raw ++ STAR :: rest)))
               (snd (read1 (raw ++ STAR :: rest)))
  = None.
Proof.
  revert fuel buffer. induction raw as [|c raw IH]; intros fuel buffer Hraw Hfuel.
  - destruct fuel as [|fuel]; [reflexivity | cbn in Hfuel; lia].
  - cbn [forallb] in Hraw. apply andb_true_iff in Hraw. destruct Hraw as [Hc Hraw].
    apply negb_true_iff in Hc.
    destruct fuel as [|fuel]; [reflexivity|]. cbn [List.length] in Hfuel.
    cbn [app read1 fst snd]. rewrite read_command_step by exact Hc.
    apply IH; assumption || lia.
Qed.

Lemma next_command_short (raw rest : str) (fuel : nat) :
  forallb (fun c => negb (is_delimiter c)) raw = true ->
  (fuel <= List.length raw)%nat ->
  next_command fuel (raw ++ STAR :: rest) = None.
Proof.
  intros Hraw Hfuel. unfold next_command.
  pose proof (read_command_short raw rest fuel [] Hraw Hfuel) as H.
  destruct (read1 (raw ++ STAR :: rest)) as [ch fp']. cbn [fst snd] in H.
  now rewrite H.
Qed.

(** After the last field of a text that holds no ETX, the generator reads
    the trailer, reaches the end of the file and stays in its inner loop:
    the first loop of [load_jedec] has not finished after any number of
    iterations. *)
Lemma load_commands_no_etx (fs : list (str * field)) (trailer : str) :
  fields_ok fs = true ->
  forallb (fun c => negb (is_delimiter c)) trailer = true ->
  forall (fuel : nat) (g : generator) (st : loader),
    (forall k, next k g = next_command k (fields_text fs ++ trailer)) ->
    load_commands fuel g st = None.
Proof.
  intros Hfs Htrailer. induction fs as [|[lead f] fs IH]; intros fuel g st Hg.
  - destruct fuel as [|fuel]; [reflexivity|].
    cbn [load_commands]. rewrite Hg. cbn [fields_text map concat app].
    now rewrite next_command_no_delimiter.
  - unfold fields_ok in Hfs. cbn [forallb fst snd] in Hfs.
    rewrite !andb_true_iff in Hfs. destruct Hfs as [[Hlead Hf] Hfs].
    destruct fuel as [|fuel]; [reflexivity|].
    cbn [load_commands]. rewrite Hg.
    assert (Htext : fields_text ((lead, f) :: fs) ++ trailer
                    = (lead ++ field_text f) ++ STAR :: (fields_text fs ++ trailer)).
    { unfold fields_text. cbn [map concat fst snd]. rewrite <- !app_assoc. reflexivity. }
    rewrite Htext.
    pose proof (field_text_no_delimiter lead f Hlead Hf) as Hraw.
    destruct (Nat.ltb_spec (List.length (lead ++ field_text f)) (S fuel)) as [Hlt|Hge].
    + rewrite next_command_star by assumption.
      rewrite field_command_lead by exact Hlead.
      rewrite load_command_field by exact Hf.
      apply IH; [exact Hfs | reflexivity].
    + now rewrite next_command_short.
Qed.

(** ** Claims about the JEDEC parser *)

Lemma digit_value_range (c : ascii) : is_digit c = true -> 0 <= digit_value c <= 9.
Proof.
  unfold is_digit, digit_value. intros H. apply andb_true_iff in H.
  destruct H as [H1 H2]. apply Nat.leb_le in H1. apply Nat.leb_le in H2. lia.
Qed.

Lemma dec_value_nonneg (ds : str) : forallb is_digit ds = true -> 0 <= dec_value ds.
Proof.
  unfold dec_value.
  assert (H : forall a, 0 <= a -> forallb is_digit ds = true ->
                        0 <= fold_left (fun acc c => 10 * acc + digit_value c) ds a).
  { induction ds as [|c ds IH]; intros a Ha Hd; [exact Ha|].
    cbn [forallb] in Hd. apply andb_true_iff in Hd. destruct Hd as [Hc Hd].
    cbn [fold_left]. apply IH; [|exact Hd]. apply digit_value_range in Hc. lia. }
  intros Hd. apply H; [lia | exact Hd].
Qed.

Lemma declared_count_nonneg (fs : list (str * field)) (n : Z) :
  fields_ok fs = true -> declared_count fs = Some n -> 0 <= n.
Proof.
  unfold declared_count.
  assert (H : forall acc,
             (forall m, acc = Some m -> 0 <= m) ->
             fields_ok fs = true ->
             fold_left (fun acc lf => match snd lf with
                                      | FieldQF digits => Some (dec_value digits)
                                      | _ => acc
                                      end) fs acc = Some n -> 0 <= n).
  { induction fs as [|[lead f] fs IH]; intros acc Hacc Hfs Hn.
    - now apply Hacc.
    - unfold fields_ok in Hfs. cbn [forallb fst snd] in Hfs.
      rewrite !andb_true_iff in Hfs. destruct Hfs as [[_ Hf] Hfs].
      cbn [fold_left snd] in Hn. refine (IH _ _ Hfs Hn).
      destruct f as [ds|ds|pos sep data|text]; try exact Hacc.
      intros m Hm. injection Hm as <-. cbn [field_ok] in Hf.
      unfold is_number in Hf. apply andb_true_iff in Hf. now apply dec_value_nonneg. }
  apply H. discriminate.
Qed.

(** C3 does not hold of the code.  A well-formed file need not end in ETX,
    and on every well-formed text that ends without one (after the ["*"] of
    its last field, or after a trailer without delimiter) [load_jedec] has
    not returned after any number of loop iterations, whatever fuse count
    and [L] fields the file holds: at end of file the inner loop of
    [jedec_commands] keeps reading the empty string.  The numerals are taken
    within 4300 digits, so that every [int] accepts them.  The array the
    claim describes is returned only for a text closed by ETX. *)
Theorem load_jedec_without_ETX_never_returns (d : jedec_file) :
  file_ok d = true ->
  numerals_short d = true ->
  forall fuel : nat, load_jedec fuel (text_without_etx d) = None.
Proof.
  intros Hok _ fuel. unfold file_ok in Hok. rewrite !andb_true_iff in Hok.
  destruct Hok as [[Hpre Hfs] Htrailer].
  unfold load_jedec, jedec_commands.
  rewrite (load_commands_no_etx (fields d) (trailer d) Hfs Htrailer); [reflexivity|].
  intros k. unfold text_without_etx. cbn [next app].
  now rewrite skip_preamble_star by exact Hpre.
Qed.

Lemma load_jedec_without_ETX_never_returns_witness :
  text_without_etx short_file = lit "*QF4*F1*L0 0101*"
  /\ declared_count (fields short_file) = Some 4
  /\ writes_in_range (file_writes (fields short_file)) 4 = true
  /\ (forall fuel : nat, load_jedec fuel (lit "*QF4*F1*L0 0101*") = None)
  /\ load_jedec 20 (lit "*QF4*F1*L0 0101*" ++ [ETX]) = Some (Ok [0; 1; 0; 1]).
Proof.
  split; [reflexivity|]. split; [reflexivity|]. split; [reflexivity|].
  split; [|vm_compute; reflexivity].
  apply (load_jedec_without_ETX_never_returns short_file); reflexivity.
Defined.

(** The sample file, with its line breaks, trailer and eight fuses, behaves
    the same: without its ETX it is still being read after 1000
    iterations. *)
Example load_jedec_sample_without_ETX :
  load_jedec 1000 (text_without_etx sample_file) = None.
Proof. vm_compute. reflexivity. Qed.

(** What the sample file loads to. *)
Example load_jedec_sample :
  load_jedec 100 (text_with_etx sample_file) = Some (Ok [1; 1; 0; 1; 0; 1; 1; 1]).
Proof. vm_compute. reflexivity. Qed.

(** When no ["*"] and no ETX follows the first ["*"], the inner loop of
    [jedec_commands] runs forever, whatever the fuel. *)
Lemma load_jedec_no_delimiter (pre tail : str) (fuel : nat) :
  forallb (fun c => negb (Ascii.eqb c STAR)) pre = true ->
  forallb (fun c => negb (is_delimiter c)) tail = true ->
  load_jedec fuel (pre ++ STAR :: tail) = None.
Proof.
  intros Hpre Htail. unfold load_jedec, jedec_commands.
  destruct fuel as [|fuel]; [reflexivity|]. cbn [load_commands next].
  rewrite skip_preamble_star by exact Hpre.
  now rewrite next_command_no_delimiter.
Qed.

(** The same after a last command closed by ["*"] with no ETX behind it. *)
Lemma load_jedec_star_then_eof (fuel : nat) : load_jedec fuel (lit "*QF4*") = None.
Proof.
  unfold load_jedec, jedec_commands.
  destruct fuel as [|fuel]; [reflexivity|]. cbn [load_commands next].
  change (skip_preamble (lit "*QF4*")) with (Some (lit "QF4" ++ STAR :: [])).
  cbv iota beta.
  destruct (Nat.ltb_spec 3 (S fuel)) as [Hlt|Hge].
  - rewrite next_command_star by (reflexivity || exact Hlt).
    change (load_command (mkLoader [] None 0) (lstrip (map fold_newline (lit "QF4"))))
      with (Ok (mkLoader [] (Some 4) 0)).
    cbv iota beta.
    destruct fuel as [|fuel]; [reflexivity|]. cbn [load_commands next].
    now rewrite next_command_no_delimiter.
  - destruct fuel as [|[|[|fuel]]]; [reflexivity | reflexivity | reflexivity | lia].
Qed.

(** C8 does not hold of the code: on the text [*QF4], whose last command is
    closed neither by ["*"] nor by ETX, [load_jedec] has not returned after
    any number of iterations (nor on [*QF4*]), while [*QF4*] followed by ETX
    loads within 6 iterations. *)
Theorem load_jedec_unterminated_never_returns :
  forall fuel : nat,
    load_jedec fuel (lit "*QF4") = None
    /\ load_jedec fuel (lit "*QF4*") = None
    /\ load_jedec 6 (lit "*QF4*" ++ [ETX]) = Some (Ok [0; 0; 0; 0]).
Proof.
  intros fuel. split; [|split].
  - apply (load_jedec_no_delimiter [] (lit "QF4") fuel); reflexivity.
  - apply load_jedec_star_then_eof.
  - reflexivity.
Qed.

(** ** Names: [inverted], [append_pair], [get_pin_name], [read_pin_map] *)

Lemma string_not_longer (c1 c2 : ascii) (s : string) : s <> String c1 (String c2 s).
Proof.
  intros H. apply (f_equal String.length) in H. cbn in H. lia.
Qed.

(** X1: [inverted] raises [IndexError] on the empty string and on no other
    name.  On a name that starts with ["!"] it returns the name without that
    first character; on any other non-empty name it returns the name with
    one ["!"] put in front.  Inverting the result gives the name back exactly
    when the name is not ["!"] itself and does not start with ["!!"]. *)
Theorem inverted_round_trip (x : string) :
  match inverted x with
  | Raise e => x = EmptyString /\ e = IndexError
  | Ok y =>
      x <> EmptyString
      /\ (if prefix "!" x then x = String "!"%char y else y = String "!"%char x)
      /\ (inverted y = Ok x <-> x <> "!"%string /\ prefix "!!" x = false)
  end.
Proof.
  assert (Hp : forall s, prefix "" s = true) by (intros [|? ?]; reflexivity).
  destruct x as [|c x]; cbn [inverted]; [now split|].
  destruct (Ascii.eqb_spec c "!"%char) as [->|Hc].
  - split; [discriminate|]. split.
    { cbn [prefix]. destruct (ascii_dec "!" "!") as [_|Hne]; [|now contradiction Hne].
      now rewrite Hp. }
    destruct x as [|c2 x]; cbn [inverted].
    + split; [discriminate | intros [H _]; now contradiction H].
    + cbn [prefix]. destruct (ascii_dec "!" "!") as [_|Hne]; [|now contradiction Hne].
      destruct (Ascii.eqb_spec c2 "!"%char) as [->|Hc2].
      * destruct (ascii_dec "!" "!") as [_|Hne]; [|now contradiction Hne].
        rewrite Hp. split.
        -- intros H. injection H as H. now apply string_not_longer in H.
        -- intros [_ H]. discriminate H.
      * destruct (ascii_dec "!" c2) as [E|_]; [now contradiction Hc2|].
        split; [intros _; split; [discriminate | reflexivity] | reflexivity].
  - split; [discriminate|]. split.
    { cbn [prefix]. destruct (ascii_dec "!" c) as [E|_]; [now contradiction Hc|].
      reflexivity. }
    cbn [inverted Ascii.eqb Bool.eqb andb].
    cbn [prefix]. destruct (ascii_dec "!" c) as [E|_]; [now contradiction Hc|].
    split; [intros _; split; [|reflexivity] | reflexivity].
    intros H. injection H as H _. now contradiction Hc.
Qed.

(** [inverted] on the three kinds of name. *)
Example inverted_samples :
  inverted "PIN02" = Ok "!PIN02"%string
  /\ inverted "!PIN02" = Ok "PIN02"%string
  /\ inverted "!" = Ok ""%string
  /\ inverted "!!a" = Ok "!a"%string
  /\ inverted "" = Raise IndexError.
Proof. repeat split. Qed.

Lemma append_pairs_acc (self : PALBase) (input_map : list (Z * bool))
      (name_list : list string) :
  append_pairs self input_map name_list
  = (names <- input_names_loop self input_map ;; Ok (name_list ++ names)).
Proof.
  revert name_list. induction input_map as [|[p inv] m IH]; intros name_list.
  - cbn. now rewrite app_nil_r.
  - cbn [append_pairs input_names_loop].
    destruct (get_pin_name self p) as [name|e]; cbn [bind]; [|reflexivity].
    unfold append_pair.
    destruct (inverted name) as [iname|e]; [|destruct inv; reflexivity].
    destruct inv; cbn [bind]; rewrite IH;
      (destruct (input_names_loop self m) as [names|e]; cbn [bind]; [|reflexivity]);
      now rewrite <- !app_assoc.
Qed.

(** X2: the name table built by [get_input_names] is the list that calling
    [append_pair] on an empty list for each entry of the input map builds,
    with the same error when a pin has no name or an empty one. *)
Theorem get_input_names_append_pair (d : device) :
  get_input_names d
  = (input_map <- get_input_map (class_of (kind d)) (self_of d) ;;
     append_pairs (self_of d) input_map []).
Proof.
  unfold get_input_names.
  destruct (get_input_map (class_of (kind d)) (self_of d)) as [m|e]; cbn [bind];
    [|reflexivity].
  rewrite append_pairs_acc. now destruct (input_names_loop (self_of d) m).
Qed.

Lemma getitem_wrap {A} (l : list A) (i : Z) (d : A) :
  - Z.of_nat (List.length l) <= i < 0 ->
  getitem l i = Ok (nth (Z.to_nat (i + Z.of_nat (List.length l))) l d).
Proof.
  intros Hi. unfold getitem, py_index.
  replace (0 <=? i) with false by (symmetry; apply Z.leb_gt; lia).
  cbn [andb].
  replace (- Z.of_nat (List.length l) <=? i) with true by (symmetry; apply Z.leb_le; lia).
  replace (i <? 0) with true by (symmetry; apply Z.ltb_lt; lia).
  cbn [andb].
  destruct (nth_error l (Z.to_nat (i + Z.of_nat (List.length l)))) eqn:E.
  - now rewrite (nth_error_nth _ _ d E).
  - apply nth_error_None in E. lia.
Qed.

Lemma getitem_out_of_range {A} (l : list A) (i : Z) :
  i < - Z.of_nat (List.length l) \/ Z.of_nat (List.length l) <= i ->
  getitem l i = Raise IndexError.
Proof.
  intros Hi. unfold getitem, py_index.
  destruct (Z.leb_spec 0 i), (Z.ltb_spec i (Z.of_nat (List.length l)));
    cbn [andb]; try lia;
    destruct (Z.leb_spec (- Z.of_nat (List.length l)) i), (Z.ltb_spec i 0);
    cbn [andb]; try lia; reflexivity.
Qed.

Lemma getitem_only_IndexError {A} (l : list A) (i : Z) (e : exn) :
  getitem l i = Raise e -> e = IndexError.
Proof.
  unfold getitem. destruct (py_index l i) as [k|]; [|now intros [= <-]].
  destruct (nth_error l k); [discriminate | now intros [= <-]].
Qed.

(** X3: [get_pin_name] accepts the pins [1..n] of a pin map of [n] names,
    and also the pins [1-n..0], which wrap around to the end of the map (pin
    0 is the last pin); every other pin raises [IndexError]. *)
Theorem get_pin_name_wraps (self : PALBase) (p : Z) :
  (1 <= p <= Z.of_nat (List.length (pinmap self)) ->
   get_pin_name self p = Ok (nth (Z.to_nat (p - 1)) (pinmap self) EmptyString))
  /\ (1 - Z.of_nat (List.length (pinmap self)) <= p <= 0 ->
      get_pin_name self p
      = Ok (nth (Z.to_nat (p - 1 + Z.of_nat (List.length (pinmap self))))
                (pinmap self) EmptyString))
  /\ (p < 1 - Z.of_nat (List.length (pinmap self))
      \/ Z.of_nat (List.length (pinmap self)) < p ->
      get_pin_name self p = Raise IndexError).
Proof.
  unfold get_pin_name. split; [|split]; intros Hp.
  - apply getitem_in_range. lia.
  - apply getitem_wrap. lia.
  - apply getitem_out_of_range. lia.
Qed.

Lemma default_pinmap_nth (k : nat) :
  (k < 20)%nat ->
  nth k default_pinmap EmptyString = ("PIN" ++ fmt_02d (Z.of_nat k + 1))%string.
Proof.
  intros Hk. do 20 (destruct k as [|k]; [reflexivity|]). lia.
Qed.

(** X4: without a pin file the pins 1 to 20 are named [PIN01] to [PIN20];
    pin 0 and the negative pins down to -19 name the pins from the end
    ([PIN20] for pin 0); any other pin raises [IndexError]. *)
Theorem default_pin_names (fm : fusemap_t) (p : Z) :
  (1 <= p <= 20 ->
   get_pin_name (PALBase_init fm None) p = Ok ("PIN" ++ fmt_02d p)%string)
  /\ (-19 <= p <= 0 ->
      get_pin_name (PALBase_init fm None) p = Ok ("PIN" ++ fmt_02d (p + 20))%string)
  /\ (p < -19 \/ 20 < p ->
      get_pin_name (PALBase_init fm None) p = Raise IndexError).
Proof.
  unfold get_pin_name. cbn [PALBase_init pinmap].
  assert (Hlen : List.length default_pinmap = 20%nat) by reflexivity.
  split; [|split]; intros Hp.
  - rewrite (getitem_in_range _ _ EmptyString) by (rewrite Hlen; lia).
    rewrite default_pinmap_nth by lia. do 3 f_equal. lia.
  - rewrite (getitem_wrap _ _ EmptyString) by (rewrite Hlen; lia).
    rewrite Hlen. rewrite default_pinmap_nth by lia. do 3 f_equal. lia.
  - apply getitem_out_of_range. rewrite Hlen. lia.
Qed.

Lemma lstrip_nil_iff (s : str) : lstrip s = [] <-> forallb py_isspace s = true.
Proof.
  induction s as [|c s IH]; cbn [lstrip forallb]; [tauto|].
  destruct (py_isspace c); cbn [andb]; [exact IH|].
  split; discriminate.
Qed.

Lemma rstrip_nil_iff (line : str) : nonempty (rstrip line) = false <-> blank_line line = true.
Proof.
  unfold rstrip, blank_line.
  assert (Hrev : forallb py_isspace (rev line) = forallb py_isspace line).
  { destruct (forallb py_isspace line) eqn:E.
    - apply forallb_forall. intros c Hc. apply in_rev in Hc.
      exact (proj1 (forallb_forall _ _) E c Hc).
    - destruct (forallb py_isspace (rev line)) eqn:E'; [|reflexivity].
      rewrite <- E. symmetry. apply forallb_forall. intros c Hc.
      apply in_rev in Hc. exact (proj1 (forallb_forall _ _) E' c Hc). }
  rewrite <- Hrev, <- lstrip_nil_iff.
  destruct (lstrip (rev line)) as [|c s] eqn:E; cbn [rev nonempty].
  - tauto.
  - destruct (rev s ++ [c]) eqn:E'; [now destruct (rev s)|].
    cbn [nonempty]. split; discriminate.
Qed.

Lemma fill_blank_lines_spec (lines : list str) (i0 : Z) :
  List.length (fill_blank_lines i0 lines) = List.length lines
  /\ Forall (fun name => name <> EmptyString) (fill_blank_lines i0 lines)
  /\ forall i line,
       nth_error lines i = Some line ->
       nth_error (fill_blank_lines i0 lines) i
       = Some (if nonempty line then string_of_list_ascii line
               else ("PIN" ++ fmt_02d (i0 + Z.of_nat i + 1))%string).
Proof.
  revert i0. induction lines as [|l lines IH]; intros i0.
  - split; [reflexivity|]. split; [constructor|]. intros [|i] line H; discriminate H.
  - destruct (IH (i0 + 1)) as (Hlen & Hne & Hnth).
    cbn [fill_blank_lines List.length]. split; [now rewrite Hlen|]. split.
    + constructor; [|exact Hne]. destruct l as [|c l]; cbn; discriminate.
    + intros [|i] line H; cbn [nth_error] in H |- *.
      * injection H as <-.
        now replace (i0 + Z.of_nat 0 + 1) with (i0 + 1) by lia.
      * rewrite (Hnth i line H).
        now replace (i0 + 1 + Z.of_nat i + 1) with (i0 + Z.of_nat (S i) + 1) by lia.
Qed.

(** X5: [read_pin_map] returns one name per line of the pin file: the line
    without its trailing white space, or [PINnn] (the 1-based line number)
    for a blank line; no name it returns is empty.  Without a pin file it
    returns [None]. *)
Theorem read_pin_map_names (lines : list str) :
  read_pin_map None = None
  /\ exists names,
       read_pin_map (Some lines) = Some names
       /\ List.length names = List.length lines
       /\ Forall (fun name => name <> EmptyString) names
       /\ forall i line,
            nth_error lines i = Some line ->
            nth_error names i
            = Some (if blank_line line
                    then ("PIN" ++ fmt_02d (Z.of_nat i + 1))%string
                    else string_of_list_ascii (rstrip line)).
Proof.
  split; [reflexivity|].
  exists (fill_blank_lines 0 (map rstrip lines)). split; [reflexivity|].
  destruct (fill_blank_lines_spec (map rstrip lines) 0) as (Hlen & Hne & Hnth).
  split; [now rewrite Hlen, length_map|]. split; [exact Hne|].
  intros i line H.
  rewrite (Hnth i (rstrip line)) by (rewrite nth_error_map, H; reflexivity).
  cbn [Z.add]. pose proof (rstrip_nil_iff line) as Hb.
  destruct (nonempty (rstrip line)), (blank_line line); try reflexivity.
  - destruct Hb as [_ Hb]. discriminate (Hb eq_refl).
  - destruct Hb as [Hb _]. discriminate (Hb eq_refl).
Qed.

(** ** Equation assembly of the four classes *)

Lemma oe_and_output_exact (fm : fusemap_t) (oe : Z * Z) (terms_fuses : list (Z * Z))
      (name : string) :
  table_row oe = true -> forallb table_row terms_fuses = true ->
  2048 <= Z.of_nat (List.length fm) ->
  (live <- is_term_nonzero fm oe ;;
   eqns <- (if live : bool then
              oe_terms <- collect_and_terms fm oe ;;
              Ok (if nonempty oe_terms then [((name ++ ".oe")%string, AND oe_terms)] else [])
            else Ok []) ;;
   d_terms <- append_terms fm terms_fuses [] ;;
   Ok (if nonempty d_terms then eqns ++ [(name, OR d_terms)] else eqns))
  = Ok (oe_and_output_eqns fm name oe terms_fuses).
Proof.
  intros Hoe Hrows Hlen. unfold oe_and_output_eqns, oe_term.
  rewrite is_term_nonzero_table_row by assumption. cbn [bind].
  destruct (row_live fm (fst oe)); cbn [andb].
  - rewrite collect_and_terms_table_row by assumption. cbn [bind].
    rewrite append_terms_live by assumption. cbn [bind app].
    destruct (nonempty (row_term fm oe)); cbn [nonempty];
      destruct (nonempty (live_terms fm terms_fuses)); cbn [app];
      rewrite ?app_nil_r; reflexivity.
  - cbn [bind]. rewrite append_terms_live by assumption. cbn [bind app nonempty].
    destruct (nonempty (live_terms fm terms_fuses)); reflexivity.
Qed.

(** X6: on a PAL16L8 fuse map of at least 2048 fuses, a macrocell of the
    table yields the [.oe] equation, an AND of the OE row's literals, exactly
    when the OE row is live and has a literal, followed by the output
    equation, the OR of the live, non-empty product-term rows in table order,
    exactly when there is such a row. *)
Theorem P16L8_macrocell_eqns (self : PALBase) (cfg : P16L8.OLMC) (name : string) :
  In cfg P16L8.macrocell_config ->
  2048 <= Z.of_nat (List.length (fusemap self)) ->
  get_pin_name self (P16L8.pin cfg) = Ok name ->
  P16L8.get_macrocell_eqns self cfg
  = Ok (oe_and_output_eqns (fusemap self) name (P16L8.oe_fuses cfg)
                           (P16L8.terms_fuses cfg)).
Proof.
  intros Hin Hlen Hname. apply pal_config_In in Hin. unfold pal_config_ok in Hin.
  rewrite !andb_true_iff in Hin. destruct Hin as [[[Hoe Hrows] _] _].
  unfold P16L8.get_macrocell_eqns. rewrite Hname. cbn [bind].
  now apply oe_and_output_exact.
Qed.

Lemma P16L8_macrocell_eqns_witness :
  P16L8.get_macrocell_eqns (PALBase_init pal_two_fuses None) pal_pin19
  = Ok (oe_and_output_eqns pal_two_fuses "PIN19" (P16L8.oe_fuses pal_pin19)
                           (P16L8.terms_fuses pal_pin19)).
Proof.
  apply (P16L8_macrocell_eqns (PALBase_init pal_two_fuses None) pal_pin19 "PIN19").
  - left. reflexivity.
  - apply Z.leb_le. vm_compute. reflexivity.
  - vm_compute. reflexivity.
Defined.

(** X7: in Complex mode a macrocell yields the same two optional equations
    as on the PAL16L8, from the rows of the AND array alone: the first 2048
    fuses decide the result, the AC1 and XOR fuses are not read. *)
Theorem G16V8MA_macrocell_eqns (self : PALBase) (cfg : G16V8xx.OLMC) (name : string) :
  In cfg G16V8xx.macrocell_config ->
  2048 <= Z.of_nat (List.length (fusemap self)) ->
  get_pin_name self (G16V8xx.pin cfg) = Ok name ->
  G16V8MA.get_macrocell_eqns self cfg
  = Ok (oe_and_output_eqns (fusemap self) name (G16V8xx.oe_fuses cfg)
                           (G16V8xx.terms_fuses cfg)).
Proof.
  intros Hin Hlen Hname. destruct (gal_config_rows cfg Hin) as (Hoe & Hrows & _).
  unfold G16V8MA.get_macrocell_eqns. rewrite Hname. cbn [bind].
  now apply oe_and_output_exact.
Qed.

Lemma G16V8MA_macrocell_eqns_witness :
  G16V8MA.get_macrocell_eqns (PALBase_init pal_two_fuses None) gal_pin19
  = Ok (oe_and_output_eqns pal_two_fuses "PIN19" (G16V8xx.oe_fuses gal_pin19)
                           (G16V8xx.terms_fuses gal_pin19)).
Proof.
  apply (G16V8MA_macrocell_eqns (PALBase_init pal_two_fuses None) gal_pin19 "PIN19").
  - left. reflexivity.
  - apply Z.leb_le. vm_compute. reflexivity.
  - vm_compute. reflexivity.
Defined.

(** X8: in Registered mode a macrocell whose AC1 fuse is not 0 yields
    exactly what the Complex class yields for it, errors included: a
    separate [.oe] equation and an unsuffixed output equation.  On
    [gal_registered_ac1_set] both give the equation [PIN19.oe] with the
    literals 1 and 2 and the equation [PIN19] with the single term of
    literal 2. *)
Theorem G16V8MS_combinational_eqns (self : PALBase) (cfg : G16V8xx.OLMC) (ac1 : Z) :
  getitem (fusemap self) (G16V8xx.ac1_fuse cfg) = Ok ac1 -> ac1 <> 0 ->
  G16V8MS.get_macrocell_eqns self cfg = G16V8MA.get_macrocell_eqns self cfg.
Proof.
  intros Hac1 Hne. unfold G16V8MS.get_macrocell_eqns, G16V8MA.get_macrocell_eqns.
  destruct (get_pin_name self (G16V8xx.pin cfg)) as [name|e]; cbn [bind]; [|reflexivity].
  destruct (is_term_nonzero (fusemap self) (G16V8xx.oe_fuses cfg)) as [[|]|e];
    cbn [bind]; [| |reflexivity].
  - destruct (collect_and_terms (fusemap self) (G16V8xx.oe_fuses cfg)) as [oe_terms|e];
      cbn [bind]; [|reflexivity].
    destruct (append_terms (fusemap self) (G16V8xx.terms_fuses cfg) []) as [d_terms|e];
      cbn [bind]; [|reflexivity].
    rewrite Hac1. cbn [bind].
    destruct (Z.eqb_spec ac1 0); [contradiction | reflexivity].
  - destruct (append_terms (fusemap self) (G16V8xx.terms_fuses cfg) []) as [d_terms|e];
      cbn [bind]; [|reflexivity].
    rewrite Hac1. cbn [bind].
    destruct (Z.eqb_spec ac1 0); [contradiction | reflexivity].
Qed.

Lemma G16V8MS_combinational_eqns_witness :
  G16V8MS.init gal_registered_ac1_set None = Ok (PALBase_init gal_registered_ac1_set None)
  /\ G16V8MS.get_macrocell_eqns (PALBase_init gal_registered_ac1_set None) gal_pin19
     = G16V8MA.get_macrocell_eqns (PALBase_init gal_registered_ac1_set None) gal_pin19
  /\ G16V8MS.get_macrocell_eqns (PALBase_init gal_registered_ac1_set None) gal_pin19
     = Ok [("PIN19.oe"%string, AND [1; 2]); ("PIN19"%string, OR [[2]])].
Proof.
  split; [vm_compute; reflexivity|]. split; [|vm_compute; reflexivity].
  apply (G16V8MS_combinational_eqns (PALBase_init gal_registered_ac1_set None) gal_pin19 1).
  - vm_compute. reflexivity.
  - discriminate.
Defined.

(** *** Where the product terms come from *)

Lemma term_of_live_row_incl (fm : fusemap_t) (rows rows' : list (Z * Z)) (t : ANDList) :
  incl rows rows' -> term_of_live_row fm rows t -> term_of_live_row fm rows' t.
Proof.
  intros Hincl (Hne & r & Hr & Hlive & Hlits). split; [exact Hne|].
  exists r. split; [now apply Hincl | now split].
Qed.

Lemma nonempty_true {A} (l : list A) : nonempty l = true -> l <> [].
Proof. destruct l; [discriminate | discriminate]. Qed.

Lemma append_terms_live_rows (fm : fusemap_t) (rows : list (Z * Z))
      (terms_fuses : list (Z * Z)) (acc d_terms : ORList) :
  incl terms_fuses rows ->
  Forall (term_of_live_row fm rows) acc ->
  append_terms fm terms_fuses acc = Ok d_terms ->
  Forall (term_of_live_row fm rows) d_terms.
Proof.
  revert acc. induction terms_fuses as [|r rs IH]; intros acc Hincl Hacc H.
  - cbn in H. now injection H as <-.
  - cbn [append_terms] in H.
    assert (Hrs : incl rs rows) by (intros x Hx; apply Hincl; now right).
    destruct (is_term_nonzero fm r) as [[|]|e] eqn:El; cbn [bind] in H;
      [| |discriminate].
    + destruct (collect_and_terms fm r) as [terms|e] eqn:Et; cbn [bind] in H;
        [|discriminate].
      refine (IH _ Hrs _ H).
      destruct (nonempty terms) eqn:En; [|exact Hacc].
      apply Forall_app. split; [exact Hacc|]. constructor; [|constructor].
      split; [now apply nonempty_true|].
      exists r. split; [apply Hincl; now left | now split].
    + now apply (IH acc).
Qed.

Lemma oe_and_output_live_rows (fm : fusemap_t) (oe : Z * Z) (terms_fuses : list (Z * Z))
      (name : string) (eqns : list eqn) :
  (live <- is_term_nonzero fm oe ;;
   eqns <- (if live : bool then
              oe_terms <- collect_and_terms fm oe ;;
              Ok (if nonempty oe_terms then [((name ++ ".oe")%string, AND oe_terms)] else [])
            else Ok []) ;;
   d_terms <- append_terms fm terms_fuses [] ;;
   Ok (if nonempty d_terms then eqns ++ [(name, OR d_terms)] else eqns)) = Ok eqns ->
  (List.length eqns <= 2)%nat
  /\ Forall (fun e : eqn => expr_of_live_rows fm (oe :: terms_fuses) (snd e)) eqns.
Proof.
  intros H.
  destruct (is_term_nonzero fm oe) as [live|e] eqn:El; cbn [bind] in H; [|discriminate].
  assert (Hfirst : forall es,
             (if live then
                oe_terms <- collect_and_terms fm oe ;;
                Ok (if nonempty oe_terms
                    then [((name ++ ".oe")%string, AND oe_terms)] else [])
              else Ok []) = Ok es ->
             (List.length es <= 1)%nat
             /\ Forall (fun e : eqn => expr_of_live_rows fm (oe :: terms_fuses) (snd e)) es).
  { intros es Hes. destruct live.
    - destruct (collect_and_terms fm oe) as [oe_terms|e] eqn:Eo; cbn [bind] in Hes;
        [|discriminate].
      injection Hes as <-. destruct (nonempty oe_terms) eqn:En.
      + split; [cbn; lia|]. constructor; [|constructor]. cbn.
        split; [now apply nonempty_true|]. exists oe. split; [now left | now split].
      + split; [cbn; lia | constructor].
    - injection Hes as <-. split; [cbn; lia | constructor]. }
  destruct (if live then _ else _) as [es|e]; cbn [bind] in H; [|discriminate].
  destruct (Hfirst es eq_refl) as [Hlen Hes].
  destruct (append_terms fm terms_fuses []) as [d_terms|e] eqn:Ed; cbn [bind] in H;
    [|discriminate].
  injection H as <-.
  destruct (nonempty d_terms) eqn:En; cbv iota;
    [|split; [unfold eqn in *; lia | exact Hes]].
  split; [rewrite length_app; cbn; unfold eqn in *; lia|].
  apply Forall_app. split; [exact Hes|]. constructor; [|constructor].
  cbn. split; [now apply nonempty_true|].
  apply (append_terms_live_rows fm (oe :: terms_fuses) terms_fuses [] d_terms);
    [intros x Hx; now right | constructor | exact Ed].
Qed.

Lemma G16V8MS_live_rows (self : PALBase) (cfg : G16V8xx.OLMC) (eqns : list eqn) :
  G16V8MS.get_macrocell_eqns self cfg = Ok eqns ->
  (List.length eqns <= 2)%nat
  /\ Forall (fun e : eqn =>
               expr_of_live_rows (fusemap self)
                 (G16V8xx.oe_fuses cfg :: G16V8xx.terms_fuses cfg) (snd e)) eqns.
Proof.
  intros H. unfold G16V8MS.get_macrocell_eqns in H.
  set (rows := G16V8xx.oe_fuses cfg :: G16V8xx.terms_fuses cfg).
  destruct (get_pin_name self (G16V8xx.pin cfg)) as [name|e]; cbn [bind] in H;
    [|discriminate].
  destruct (is_term_nonzero (fusemap self) (G16V8xx.oe_fuses cfg)) as [live|e] eqn:El;
    cbn [bind] in H; [|discriminate].
  assert (Hoe : forall oe_terms,
             (if live then collect_and_terms (fusemap self) (G16V8xx.oe_fuses cfg)
              else Ok []) = Ok oe_terms ->
             nonempty oe_terms = true ->
             term_of_live_row (fusemap self) rows oe_terms).
  { intros t Ht Hn. destruct live.
    - split; [now apply nonempty_true|]. exists (G16V8xx.oe_fuses cfg).
      split; [now left | now split].
    - injection Ht as <-. discriminate Hn. }
  destruct (if live then _ else _) as [oe_terms|e]; cbn [bind] in H; [|discriminate].
  specialize (Hoe oe_terms eq_refl).
  destruct (append_terms (fusemap self) (G16V8xx.terms_fuses cfg) []) as [d_terms|e] eqn:Ed;
    cbn [bind] in H; [|discriminate].
  assert (Hd : Forall (term_of_live_row (fusemap self) rows) d_terms).
  { apply (append_terms_live_rows _ rows (G16V8xx.terms_fuses cfg) [] d_terms);
      [intros x Hx; now right | constructor | exact Ed]. }
  destruct (getitem (fusemap self) (G16V8xx.ac1_fuse cfg)) as [ac1|e]; cbn [bind] in H;
    [|discriminate].
  assert (Hoe_eq : nonempty oe_terms = true ->
                   expr_of_live_rows (fusemap self) rows (AND oe_terms)) by exact Hoe.
  assert (Hd_eq : nonempty d_terms = true ->
                  expr_of_live_rows (fusemap self) rows (OR d_terms)).
  { intros Hn. split; [now apply nonempty_true | exact Hd]. }
  destruct (negb (ac1 =? 0)); injection H as <-.
  - destruct (nonempty oe_terms), (nonempty d_terms); cbn [app List.length];
      (split; [lia|]);
      repeat first [ apply Forall_nil
                   | apply Forall_cons;
                     [cbn [snd]; first [apply Hoe_eq; reflexivity
                                       |apply Hd_eq; reflexivity]|] ].
  - destruct (nonempty oe_terms) eqn:En1.
    + cbn [nonempty List.length]. split; [lia|]. constructor; [|constructor].
      cbn [snd expr_of_live_rows]. split; [discriminate|].
      constructor; [now apply Hoe | exact Hd].
    + destruct (nonempty d_terms); cbn [List.length]; (split; [lia|]);
        [constructor; [now apply Hd_eq | constructor] | constructor].
Qed.

Lemma G16V8AS_live_rows (self : PALBase) (cfg : G16V8xx.OLMC) (eqns : list eqn) :
  G16V8AS.get_macrocell_eqns self cfg = Ok eqns ->
  (List.length eqns <= 2)%nat
  /\ Forall (fun e : eqn =>
               expr_of_live_rows (fusemap self)
                 (G16V8xx.oe_fuses cfg :: G16V8xx.terms_fuses cfg) (snd e)) eqns.
Proof.
  intros H. unfold G16V8AS.get_macrocell_eqns in H.
  set (rows := G16V8xx.oe_fuses cfg :: G16V8xx.terms_fuses cfg).
  destruct (getitem (fusemap self) (G16V8xx.ac1_fuse cfg)) as [ac1|e]; cbn [bind] in H;
    [|discriminate].
  destruct (ac1 =? 0); [|injection H as <-; split; [cbn; lia | constructor]].
  destruct (get_pin_name self (G16V8xx.pin cfg)) as [name|e]; cbn [bind] in H;
    [|discriminate].
  destruct (is_term_nonzero (fusemap self) (G16V8xx.oe_fuses cfg)) as [live|e] eqn:El;
    cbn [bind] in H; [|discriminate].
  assert (Hfirst : forall ts,
             (if live then
                terms <- collect_and_terms (fusemap self) (G16V8xx.oe_fuses cfg) ;;
                Ok (if nonempty terms then [terms] else [])
              else Ok []) = Ok ts ->
             Forall (term_of_live_row (fusemap self) rows) ts).
  { intros ts Hts. destruct live.
    - destruct (collect_and_terms (fusemap self) (G16V8xx.oe_fuses cfg)) as [terms|e] eqn:Et;
        cbn [bind] in Hts; [|discriminate].
      injection Hts as <-. destruct (nonempty terms) eqn:En; constructor; [|constructor].
      split; [now apply nonempty_true|]. exists (G16V8xx.oe_fuses cfg).
      split; [now left | now split].
    - injection Hts as <-. constructor. }
  destruct (if live then _ else _) as [ts|e]; cbn [bind] in H; [|discriminate].
  specialize (Hfirst ts eq_refl).
  destruct (append_terms (fusemap self) (G16V8xx.terms_fuses cfg) ts) as [d_terms|e] eqn:Ed;
    cbn [bind] in H; [|discriminate].
  assert (Hd : Forall (term_of_live_row (fusemap self) rows) d_terms).
  { apply (append_terms_live_rows _ rows (G16V8xx.terms_fuses cfg) ts d_terms);
      [intros x Hx; now right | exact Hfirst | exact Ed]. }
  injection H as <-. destruct (nonempty d_terms) eqn:En; cbn [List.length];
    (split; [lia|]); [|constructor].
  constructor; [|constructor]. cbn [snd expr_of_live_rows].
  split; [now apply nonempty_true | exact Hd].
Qed.

Lemma macrocell_eqns_live_rows (d : device) (cfg : OLMC (class_of (kind d)))
      (eqns : list eqn) :
  get_macrocell_eqns (class_of (kind d)) (self_of d) cfg = Ok eqns ->
  (List.length eqns <= 2)%nat
  /\ Forall (fun e : eqn =>
               expr_of_live_rows (fusemap (self_of d)) (macrocell_rows (kind d) cfg)
                                 (snd e)) eqns.
Proof.
  destruct d as [v self]. destruct v; cbn in cfg |- *; intros H.
  - unfold P16L8.get_macrocell_eqns in H.
    destruct (get_pin_name self (P16L8.pin cfg)) as [name|e]; cbn [bind] in H;
      [|discriminate].
    now apply (oe_and_output_live_rows _ _ _ name).
  - now apply G16V8AS_live_rows.
  - unfold G16V8MA.get_macrocell_eqns in H.
    destruct (get_pin_name self (G16V8xx.pin cfg)) as [name|e]; cbn [bind] in H;
      [|discriminate].
    now apply (oe_and_output_live_rows _ _ _ name).
  - now apply G16V8MS_live_rows.
Qed.

(** X9: for every device class and every macrocell record, whenever
    [get_macrocell_eqns] returns it returns at most two equations, no OR list
    and no AND term in them is empty, and every AND term is the literal list
    of a live row of that macrocell: a dead row, or a row without literal,
    never shows up in an equation. *)
Theorem macrocell_eqns_from_live_rows (d : device) (cfg : OLMC (class_of (kind d)))
        (eqns : list eqn) :
  get_macrocell_eqns (class_of (kind d)) (self_of d) cfg = Ok eqns ->
  (List.length eqns <= 2)%nat
  /\ Forall (fun e : eqn =>
               expr_of_live_rows (fusemap (self_of d)) (macrocell_rows (kind d) cfg)
                                 (snd e)) eqns.
Proof.
  intros H. destruct (macrocell_eqns_live_rows d cfg eqns H) as [Hlen Hrows].
  split; [exact Hlen | exact Hrows].
Qed.

Lemma macrocell_eqns_from_live_rows_witness :
  (List.length [("PIN19.d"%string, OR [[0%Z]])] <= 2)%nat
  /\ Forall (fun e : eqn =>
               expr_of_live_rows gal_registered_oe_intact
                 (macrocell_rows GAL16V8_Registered gal_pin19) (snd e))
            [("PIN19.d"%string, OR [[0]])].
Proof.
  apply (macrocell_eqns_from_live_rows
           (mkDevice GAL16V8_Registered (PALBase_init gal_registered_oe_intact None))
           gal_pin19).
  vm_compute. reflexivity.
Defined.

(** ** Live rows *)

Lemma live_row_consistent (fm : fusemap_t) (start : Z) :
  row_live fm start = true ->
  term_consistent (row_literals fm start (start + 32)).
Proof.
  intros Hlive k Hk [H0 H1].
  apply row_literals_In in H0. apply row_literals_In in H1.
  destruct H0 as [_ H0], H1 as [_ H1].
  assert (Hb : row_live fm start = false).
  { apply row_live_false. exists k. split; [exact Hk|]. unfold column_blown.
    rewrite H0. replace (start + 2 * k + 1) with (start + (2 * k + 1)) by lia.
    now rewrite H1. }
  congruence.
Qed.

Lemma table_rows_of_config (v : variant) (cfg : OLMC (class_of v)) :
  In cfg (macrocell_config (class_of v)) ->
  forallb table_row (macrocell_rows v cfg) = true.
Proof.
  destruct v; cbn in cfg |- *; intros Hin.
  - apply pal_config_In in Hin. unfold pal_config_ok in Hin.
    rewrite !andb_true_iff in Hin. destruct Hin as [[[Hoe Hrows] _] _].
    now rewrite Hoe, Hrows.
  - destruct (gal_config_rows cfg Hin) as (Hoe & Hrows & _). now rewrite Hoe, Hrows.
  - destruct (gal_config_rows cfg Hin) as (Hoe & Hrows & _). now rewrite Hoe, Hrows.
  - destruct (gal_config_rows cfg Hin) as (Hoe & Hrows & _). now rewrite Hoe, Hrows.
Qed.

Lemma term_of_live_table_row_consistent (fm : fusemap_t) (rows : list (Z * Z))
      (t : ANDList) :
  forallb table_row rows = true -> 2048 <= Z.of_nat (List.length fm) ->
  term_of_live_row fm rows t -> term_consistent t.
Proof.
  intros Hrows Hlen (_ & r & Hr & Hlive & Hlits).
  pose proof (proj1 (forallb_forall _ _) Hrows r Hr) as Hrow.
  rewrite is_term_nonzero_table_row in Hlive by assumption.
  rewrite collect_and_terms_table_row in Hlits by assumption.
  injection Hlive as Hlive. injection Hlits as <-.
  apply table_row_spec in Hrow. destruct Hrow as [Hrow _].
  unfold row_term. replace (snd r) with (fst r + 32) by (rewrite Hrow at 2; reflexivity).
  now apply live_row_consistent.
Qed.

(** X10: on a fuse map holding the AND array (at least 2048 fuses), no AND
    term of any equation returned for a macrocell of the table contains both
    literals of one input column: both positions [2k] and [2k+1] in a term
    would need both fuses of column [k] at 0, which makes the row dead. *)
Theorem macrocell_eqns_consistent (d : device) (cfg : OLMC (class_of (kind d)))
        (eqns : list eqn) :
  In cfg (macrocell_config (class_of (kind d))) ->
  2048 <= Z.of_nat (List.length (fusemap (self_of d))) ->
  get_macrocell_eqns (class_of (kind d)) (self_of d) cfg = Ok eqns ->
  Forall (fun e : eqn => expr_consistent (snd e)) eqns.
Proof.
  intros Hin Hlen H.
  destruct (macrocell_eqns_live_rows d cfg eqns H) as [_ Hrows].
  pose proof (table_rows_of_config (kind d) cfg Hin) as Htable.
  apply Forall_forall. intros e He. rewrite Forall_forall in Hrows.
  specialize (Hrows e He). destruct (snd e) as [t|ts]; cbn in Hrows |- *.
  - now apply (term_of_live_table_row_consistent _ _ _ Htable Hlen).
  - destruct Hrows as [_ Hts]. apply Forall_forall. intros t Ht.
    rewrite Forall_forall in Hts.
    now apply (term_of_live_table_row_consistent _ _ _ Htable Hlen), Hts.
Qed.

Lemma macrocell_eqns_consistent_witness :
  Forall (fun e : eqn => expr_consistent (snd e))
         [("PIN19.oe"%string, AND [0]); ("PIN19"%string, OR [[1]])].
Proof.
  apply (macrocell_eqns_consistent
           (mkDevice PAL16L8 (PALBase_init pal_two_fuses None)) pal_pin19).
  - left. reflexivity.
  - apply Z.leb_le. vm_compute. reflexivity.
  - vm_compute. reflexivity.
Defined.

(** X11: liveness of a 32-fuse row is monotone in its fuses: writing a
    non-zero value into any fuse of the map keeps a live row live, and
    writing 0 into any fuse keeps a dead row dead. *)
Theorem is_term_nonzero_monotone (fm : fusemap_t) (start i v : Z) :
  row_in_map fm start (start + 32) ->
  0 <= i < Z.of_nat (List.length fm) ->
  exists fm',
    setitem fm i v = Ok fm'
    /\ (v <> 0 -> is_term_nonzero fm (start, start + 32) = Ok true ->
        is_term_nonzero fm' (start, start + 32) = Ok true)
    /\ (v = 0 -> is_term_nonzero fm (start, start + 32) = Ok false ->
        is_term_nonzero fm' (start, start + 32) = Ok false).
Proof.
  intros Hrow Hi. exists (update fm (Z.to_nat i) v).
  split; [now apply setitem_in_range|].
  set (fm' := update fm (Z.to_nat i) v).
  assert (Hrow' : row_in_map fm' start (start + 32)).
  { destruct Hrow. unfold row_in_map, fm'. rewrite update_length. lia. }
  rewrite (is_term_nonzero_row _ _ Hrow), (is_term_nonzero_row _ _ Hrow').
  destruct Hrow as [H0 H1].
  assert (Hfuse : forall j, 0 <= j -> fuse fm' j = if j =? i then v else fuse fm j).
  { intros j Hj. unfold fm'. now apply fuse_update. }
  split.
  - intros Hv Hlive. injection Hlive as Hlive. f_equal.
    destruct (row_live fm' start) eqn:E; [reflexivity|exfalso].
    apply row_live_false in E. destruct E as (k & Hk & Hb).
    assert (Hdead : row_live fm start = false); [|congruence].
    apply row_live_false. exists k. split; [exact Hk|].
    unfold column_blown in *. rewrite !Hfuse in Hb by lia.
    apply andb_true_iff in Hb. destruct Hb as [Ha Hb].
    destruct (start + 2 * k =? i); [apply Z.eqb_eq in Ha; contradiction|].
    destruct (start + 2 * k + 1 =? i); [apply Z.eqb_eq in Hb; contradiction|].
    now rewrite Ha, Hb.
  - intros -> Hdead. injection Hdead as Hdead. f_equal.
    apply row_live_false in Hdead. destruct Hdead as (k & Hk & Hb).
    apply row_live_false. exists k. split; [exact Hk|].
    unfold column_blown in *. rewrite !Hfuse by lia.
    apply andb_true_iff in Hb. destruct Hb as [Ha Hb].
    destruct (start + 2 * k =? i), (start + 2 * k + 1 =? i);
      rewrite ?Ha, ?Hb; reflexivity.
Qed.

Lemma is_term_nonzero_monotone_witness :
  exists fm',
    setitem row_two_literals 5 1 = Ok fm'
    /\ (1 <> 0 -> is_term_nonzero row_two_literals (0, 0 + 32) = Ok true ->
        is_term_nonzero fm' (0, 0 + 32) = Ok true)
    /\ (1 = 0 -> is_term_nonzero row_two_literals (0, 0 + 32) = Ok false ->
        is_term_nonzero fm' (0, 0 + 32) = Ok false).
Proof.
  apply (is_term_nonzero_monotone row_two_literals 0 5 1).
  - apply row_in_map_32. reflexivity.
  - cbn. lia.
Defined.

(** ** Construction and auto-detection *)

Lemma new_gal_pattern (v : variant) (p : Z * Z) (fm : fusemap_t)
      (pm : option (list string)) (a b : Z) :
  required_pattern v = Some p ->
  getitem fm 2192 = Ok a -> getitem fm 2193 = Ok b ->
  new v fm pm = if pattern_eqb (a, b) p
                then Ok (mkDevice v (PALBase_init fm pm))
                else Raise incorrect_device.
Proof.
  intros Hp Ha Hb. unfold new, pattern_eqb. cbn [fst snd].
  destruct v; cbn [required_pattern] in Hp; [discriminate| | |];
    injection Hp as <-; cbn [class_of init fst snd];
    unfold G16V8AS.init, G16V8MA.init, G16V8MS.init; rewrite Ha; cbn [bind];
    (destruct (a =? _); cbn [negb bind andb]; [|reflexivity]);
    rewrite Hb; cbn [bind]; (destruct (b =? _); reflexivity).
Qed.

(** X12: when both configuration fuses can be read, the auto-detecting
    entry point [G16V8] returns a Simple device for the pattern (1, 0), a
    Registered device for (0, 1) and raises the device-mismatch error for
    every other pair of values; it never returns a Complex device. *)
Theorem G16V8_dispatch (fm : fusemap_t) (pm : option (list string)) (a b : Z) :
  getitem fm 2192 = Ok a -> getitem fm 2193 = Ok b ->
  G16V8 fm pm
  = if pattern_eqb (a, b) (1, 0)
    then Ok (mkDevice GAL16V8_Simple (PALBase_init fm pm))
    else if pattern_eqb (a, b) (0, 1)
         then Ok (mkDevice GAL16V8_Registered (PALBase_init fm pm))
         else Raise incorrect_device.
Proof.
  intros Ha Hb. unfold G16V8. rewrite Ha, Hb. cbn [bind].
  rewrite (new_gal_pattern GAL16V8_Simple (1, 0) fm pm a b eq_refl Ha Hb).
  rewrite (new_gal_pattern GAL16V8_Registered (0, 1) fm pm a b eq_refl Ha Hb).
  rewrite (new_gal_pattern GAL16V8_Complex (1, 1) fm pm a b eq_refl Ha Hb).
  unfold pattern_eqb. cbn [fst snd].
  destruct (Z.eqb_spec a 1) as [->|Ha1], (Z.eqb_spec b 0) as [->|Hb0];
    cbn [bind andb negb]; try reflexivity;
    try (destruct (Z.eqb_spec a 0) as [->|Ha0]);
    try (destruct (Z.eqb_spec b 1) as [->|Hb1]);
    cbn [bind andb negb]; reflexivity.
Qed.

Lemma G16V8_dispatch_witness :
  G16V8 gal_registered_zeros None
  = if pattern_eqb (0, 1) (1, 0)
    then Ok (mkDevice GAL16V8_Simple (PALBase_init gal_registered_zeros None))
    else if pattern_eqb (0, 1) (0, 1)
         then Ok (mkDevice GAL16V8_Registered (PALBase_init gal_registered_zeros None))
         else Raise incorrect_device.
Proof.
  apply (G16V8_dispatch gal_registered_zeros None 0 1); reflexivity.
Defined.

(** X13: a class called with a fuse map checks the configuration fuses in
    order: [P16L8] checks nothing and accepts any map, even an empty one; a
    GAL16V8 class raises [IndexError] when fuse 2192 cannot be read, the
    device-mismatch error when fuse 2192 differs from its pattern (fuse 2193
    is then not read), and otherwise accepts exactly the maps whose fuse 2193
    matches too. *)
Theorem new_checks_pattern (v : variant) (fm : fusemap_t) (pm : option (list string)) :
  match required_pattern v with
  | None => new v fm pm = Ok (mkDevice v (PALBase_init fm pm))
  | Some p =>
      match getitem fm 2192 with
      | Raise e => new v fm pm = Raise IndexError
      | Ok a =>
          if a =? fst p then
            match getitem fm 2193 with
            | Raise e => new v fm pm = Raise IndexError
            | Ok b =>
                new v fm pm = if b =? snd p
                              then Ok (mkDevice v (PALBase_init fm pm))
                              else Raise incorrect_device
            end
          else new v fm pm = Raise incorrect_device
      end
  end.
Proof.
  unfold new.
  destruct v; cbn [required_pattern class_of init fst snd]; [reflexivity| | |];
    unfold G16V8AS.init, G16V8MA.init, G16V8MS.init;
    (destruct (getitem fm 2192) as [a|e] eqn:Ea; cbn [bind];
     [|now rewrite (getitem_only_IndexError _ _ _ Ea)]);
    (destruct (a =? _); cbn [negb bind]; [|reflexivity]);
    (destruct (getitem fm 2193) as [b|e] eqn:Eb; cbn [bind];
     [|now rewrite (getitem_only_IndexError _ _ _ Eb)]);
    destruct (b =? _); reflexivity.
Qed.

(** ** The JEDEC parser on other inputs *)

Lemma skip_preamble_no_star (text : str) :
  forallb (fun c => negb (Ascii.eqb c STAR)) text = true -> skip_preamble text = None.
Proof.
  induction text as [|c text IH]; [reflexivity|]. cbn [forallb skip_preamble].
  intros H. apply andb_true_iff in H. destruct H as [Hc Ht].
  apply negb_true_iff in Hc. rewrite Hc. now apply IH.
Qed.

(** X14: on a text without any ["*"], the empty text included,
    [jedec_commands] yields no command and [load_jedec] raises the
    [TypeError] of [range(None)] as soon as it runs. *)
Theorem load_jedec_no_star (text : str) (fuel : nat) :
  forallb (fun c => negb (Ascii.eqb c STAR)) text = true ->
  commands_from (S fuel) (jedec_commands text) = Some []
  /\ load_jedec (S fuel) text = Some (Raise NoneType_range).
Proof.
  intros H. unfold load_jedec, jedec_commands.
  cbn [commands_from load_commands next].
  rewrite skip_preamble_no_star by exact H. split; reflexivity.
Qed.

Lemma load_jedec_no_star_witness :
  commands_from 1 (jedec_commands (lit "QF4 L0 1111")) = Some []
  /\ load_jedec 1 (lit "QF4 L0 1111") = Some (Raise NoneType_range).
Proof.
  apply (load_jedec_no_star (lit "QF4 L0 1111") 0). reflexivity.
Defined.

Lemma commands_from_text (raws : list str) (trailer rest : str) :
  forallb (forallb (fun c => negb (is_delimiter c))) raws = true ->
  forallb (fun c => negb (is_delimiter c)) trailer = true ->
  forall (fuel : nat) (g : generator),
    (forall k, next k g = next_command k (commands_text raws ++ trailer ++ ETX :: rest)) ->
    (List.length (commands_text raws ++ trailer) < fuel)%nat ->
    commands_from fuel g = Some (map (fun raw => lstrip (map fold_newline raw)) raws).
Proof.
  intros Hraws Htrailer. induction raws as [|raw raws IH]; intros fuel g Hg Hfuel.
  - destruct fuel as [|fuel]; [cbn in Hfuel; lia|].
    cbn [commands_from]. rewrite Hg. cbn [commands_text map concat app] in *.
    now rewrite next_command_etx.
  - cbn [forallb] in Hraws. apply andb_true_iff in Hraws. destruct Hraws as [Hraw Hraws].
    destruct fuel as [|fuel]; [cbn in Hfuel; lia|].
    cbn [commands_from]. rewrite Hg.
    assert (Htext : commands_text (raw :: raws) ++ trailer ++ ETX :: rest
                    = raw ++ STAR :: (commands_text raws ++ trailer ++ ETX :: rest)).
    { unfold commands_text. cbn [map concat]. rewrite <- !app_assoc. reflexivity. }
    assert (Hlen : List.length (commands_text (raw :: raws) ++ trailer)
                   = (List.length raw + 1 + List.length (commands_text raws ++ trailer))%nat).
    { unfold commands_text. cbn [map concat]. rewrite !length_app. cbn. lia. }
    rewrite Htext. rewrite next_command_star by (assumption || lia).
    rewrite (IH Hraws fuel (GenSuspended _)); [reflexivity | reflexivity | lia].
Qed.

(** X15: on a text made of a preamble, commands each closed by ["*"] and
    then ETX (after text without delimiter), [jedec_commands] yields exactly
    the commands in order, each with its line breaks turned into blanks and
    its leading white space dropped; the text before the first ["*"], the
    text between the last ["*"] and ETX, and everything after ETX is
    discarded.  The generator finishes within the length of the text. *)
Theorem jedec_commands_yields (pre : str) (raws : list str) (trailer rest : str)
        (fuel : nat) :
  forallb (fun c => negb (Ascii.eqb c STAR)) pre = true ->
  forallb (forallb (fun c => negb (is_delimiter c))) raws = true ->
  forallb (fun c => negb (is_delimiter c)) trailer = true ->
  (List.length (pre ++ STAR :: commands_text raws ++ trailer ++ ETX :: rest) < fuel)%nat ->
  commands_from fuel
    (jedec_commands (pre ++ STAR :: commands_text raws ++ trailer ++ ETX :: rest))
  = Some (map (fun raw => lstrip (map fold_newline raw)) raws).
Proof.
  intros Hpre Hraws Htrailer Hfuel.
  apply (commands_from_text raws trailer rest Hraws Htrailer).
  - intros k. unfold jedec_commands. cbn [next].
    now rewrite skip_preamble_star by exact Hpre.
  - rewrite !length_app in Hfuel. cbn [List.length] in Hfuel.
    rewrite !length_app in Hfuel. rewrite length_app. lia.
Qed.

Lemma jedec_commands_yields_witness :
  commands_from 40
    (jedec_commands (lit "hdr" ++ STAR :: commands_text [lit "QF4"; [LF; SPACE] ++ lit "L0 01" ++ [CR; LF] ++ lit "10 "]
                           ++ lit "junk" ++ ETX :: lit "1A2B"))
  = Some (map (fun raw => lstrip (map fold_newline raw))
              [lit "QF4"; [LF; SPACE] ++ lit "L0 01" ++ [CR; LF] ++ lit "10 "]).
Proof.
  apply (jedec_commands_yields (lit "hdr")
           [lit "QF4"; [LF; SPACE] ++ lit "L0 01" ++ [CR; LF] ++ lit "10 "]
           (lit "junk") (lit "1A2B") 40).
  - reflexivity.
  - reflexivity.
  - reflexivity.
  - apply Nat.ltb_lt. vm_compute. reflexivity.
Defined.

Lemma load_jedec_fields (d : jedec_file) (fuel : nat) :
  file_ok d = true -> (List.length (text_with_etx d) < fuel)%nat ->
  load_jedec fuel (text_with_etx d)
  = match declared_count (fields d) with
    | None => Some (Raise NoneType_range)
    | Some n =>
        Some (write_commands (repeat (declared_default (fields d)) (Z.to_nat n))
                             (flat_map (fun lf => field_L_commands (snd lf)) (fields d)))
    end.
Proof.
  intros Hok Hfuel.
  unfold file_ok in Hok. rewrite !andb_true_iff in Hok.
  destruct Hok as [[Hpre Hfs] Htrailer].
  unfold text_with_etx in Hfuel. rewrite !length_app in Hfuel.
  unfold load_jedec, jedec_commands.
  rewrite (load_commands_fields (fields d) (trailer d) (after_etx d) Hfs Htrailer).
  2:{ intros k. unfold text_with_etx. cbn [next app].
      now rewrite skip_preamble_star by exact Hpre. }
  2:{ rewrite length_app. lia. }
  rewrite load_fields_num_fuses. cbn [num_fuses].
  change (fold_left _ (fields d) None) with (declared_count (fields d)).
  destruct (declared_count (fields d)) as [n|]; [|reflexivity].
  rewrite load_fields_fuse_list, load_fields_default. reflexivity.
Qed.

(** X22: for a well-formed JEDEC file that is closed by ETX, declares [n]
    fuses, keeps its [L] fields within [0, n) and its numerals within 4300
    digits, [load_jedec] returns, within a number of loop iterations bounded
    by the length of the text, an array of length [n] in which a position
    covered by no [L] field holds the declared default (0 without an [F]
    field) and any other position holds the digit written by the last [L]
    field, in file order, that covers it. *)
Theorem load_jedec_last_write_wins (d : jedec_file) (n : Z) (fuel : nat) :
  file_ok d = true ->
  numerals_short d = true ->
  declared_count (fields d) = Some n ->
  writes_in_range (file_writes (fields d)) n = true ->
  (List.length (text_with_etx d) < fuel)%nat ->
  exists fm,
    load_jedec fuel (text_with_etx d) = Some (Ok fm)
    /\ Z.of_nat (List.length fm) = n
    /\ forall p, 0 <= p < n ->
                 getitem fm p
                 = Ok (expected_fuse (file_writes (fields d))
                                     (declared_default (fields d)) p).
Proof.
  intros Hok _ Hn Hin Hfuel.
  unfold file_ok in Hok. rewrite !andb_true_iff in Hok.
  destruct Hok as [[Hpre Hfs] Htrailer].
  pose proof (declared_count_nonneg _ _ Hfs Hn) as Hn0.
  unfold text_with_etx in Hfuel. rewrite !length_app in Hfuel.
  unfold load_jedec, jedec_commands.
  rewrite (load_commands_fields (fields d) (trailer d) (after_etx d) Hfs Htrailer).
  2:{ intros k. unfold text_with_etx. cbn [next app].
      now rewrite skip_preamble_star by exact Hpre. }
  2:{ rewrite length_app. lia. }
  rewrite load_fields_num_fuses. cbn [num_fuses].
  change (fold_left _ (fields d) None) with (declared_count (fields d)). rewrite Hn.
  rewrite load_fields_fuse_list, load_fields_default. cbn [fuse_list default app].
  change (fold_left _ (fields d) 0) with (declared_default (fields d)).
  set (dflt := declared_default (fields d)).
  destruct (write_commands_fields (fields d) (repeat dflt (Z.to_nat n)) Hfs)
    as (fm & Hw & Hl & Hq).
  { rewrite repeat_length. now replace (Z.of_nat (Z.to_nat n)) with n by lia. }
  rewrite repeat_length in Hl.
  exists fm. split; [now rewrite Hw|]. split; [lia|].
  intros p Hp. rewrite getitem_fuse by lia. f_equal.
  rewrite Hq by lia. rewrite fuse_repeat by lia. apply fuse_after_expected.
Qed.

Lemma load_jedec_last_write_wins_witness :
  exists fm,
    load_jedec 100 (text_with_etx sample_file) = Some (Ok fm)
    /\ Z.of_nat (List.length fm) = 8
    /\ forall p, 0 <= p < 8 ->
                 getitem fm p
                 = Ok (expected_fuse (file_writes (fields sample_file))
                                     (declared_default (fields sample_file)) p).
Proof.
  apply (load_jedec_last_write_wins sample_file 8 100).
  - vm_compute. reflexivity.
  - vm_compute. reflexivity.
  - vm_compute. reflexivity.
  - vm_compute. reflexivity.
  - apply Nat.ltb_lt. vm_compute. reflexivity.
Defined.

(** X16: a well-formed JEDEC file that is closed by ETX and has no [QF]
    field (its numerals within 4300 digits) makes [load_jedec] raise the
    [TypeError] of [range(None)], whatever its [L] fields write. *)
Theorem load_jedec_without_QF (d : jedec_file) (fuel : nat) :
  file_ok d = true ->
  numerals_short d = true ->
  declared_count (fields d) = None ->
  (List.length (text_with_etx d) < fuel)%nat ->
  load_jedec fuel (text_with_etx d) = Some (Raise NoneType_range).
Proof.
  intros Hok _ Hn Hfuel. rewrite load_jedec_fields by assumption. now rewrite Hn.
Qed.

Lemma load_jedec_without_QF_witness :
  text_with_etx (mkFile [] [([], FieldF (lit "1"));
                            ([LF], FieldL (lit "0") [SPACE] (lit "0101"))]
                        [LF] [])
  = lit "*F1*" ++ [LF] ++ lit "L0 0101*" ++ [LF; ETX]
  /\ load_jedec 40 (text_with_etx (mkFile [] [([], FieldF (lit "1"));
                                              ([LF], FieldL (lit "0") [SPACE] (lit "0101"))]
                                           [LF] []))
     = Some (Raise NoneType_range).
Proof.
  split; [reflexivity|]. apply load_jedec_without_QF.
  - reflexivity.
  - reflexivity.
  - reflexivity.
  - apply Nat.ltb_lt. vm_compute. reflexivity.
Defined.

Lemma write_fuses_overflow (cs : str) (p : Z) (fm : fusemap_t) :
  forallb is_digit cs = true -> cs <> [] -> 0 <= p ->
  Z.of_nat (List.length fm) < p + Z.of_nat (List.length cs) ->
  write_fuses fm (combine (py_range p (p + Z.of_nat (List.length cs))) cs)
  = Raise IndexError.
Proof.
  revert p fm. induction cs as [|c cs IH]; intros p fm Hd Hne Hp Hlen;
    [now contradiction Hne|].
  cbn [forallb] in Hd. apply andb_true_iff in Hd. destruct Hd as [Hc Hd].
  cbn [List.length] in Hlen |- *.
  rewrite py_range_cons by lia. cbn [combine write_fuses].
  rewrite py_int_digit by exact Hc. cbn [bind].
  destruct (Z.ltb_spec p (Z.of_nat (List.length fm))) as [Hin|Hout].
  - rewrite setitem_in_range by lia. cbn [bind].
    replace (p + Z.of_nat (S (List.length cs)))
      with (p + 1 + Z.of_nat (List.length cs)) by lia.
    apply IH; [exact Hd | | lia | rewrite update_length; lia].
    intros ->. cbn in Hlen. lia.
  - unfold setitem, py_index.
    replace (p <? Z.of_nat (List.length fm)) with false by (symmetry; apply Z.ltb_ge; lia).
    replace (p <? 0) with false by (symmetry; apply Z.ltb_ge; lia).
    now rewrite !andb_false_r.
Qed.

Lemma write_command_L_overflow (pos sep data : str) (fm : fusemap_t) :
  field_ok (FieldL pos sep data) = true ->
  writes_in_range (field_writes (FieldL pos sep data)) (Z.of_nat (List.length fm)) = false ->
  write_command fm (L_command pos sep data) = Raise IndexError.
Proof.
  intros Hok Hout. unfold write_command. rewrite py_split1_L_command by exact Hok.
  pose proof Hok as Hok'. cbn [field_ok] in Hok'. rewrite !andb_true_iff in Hok'.
  destruct Hok' as [[[[Hpos _] _] Hfirst] Hdata].
  rewrite remove_spaces_data by exact Hdata.
  rewrite py_int_number by exact Hpos. cbn [bind].
  pose proof Hpos as Hnum. unfold is_number in Hnum. apply andb_true_iff in Hnum.
  pose proof (dec_value_nonneg pos (proj2 Hnum)) as Hp.
  cbn [field_writes writes_in_range forallb fst snd] in Hout.
  rewrite andb_true_r, length_map in Hout.
  apply andb_false_iff in Hout.
  destruct Hout as [Hout|Hout]; [apply Z.leb_gt in Hout; lia|]. apply Z.leb_gt in Hout.
  apply write_fuses_overflow; [| |exact Hp|exact Hout].
  - apply forallb_forall. intros c Hc. now apply filter_In in Hc.
  - destruct data as [|c data]; [discriminate Hfirst|]. cbn [filter].
    rewrite Hfirst. discriminate.
Qed.

Lemma write_commands_overflow (fs : list (str * field)) (fm : fusemap_t) :
  fields_ok fs = true ->
  writes_in_range (file_writes fs) (Z.of_nat (List.length fm)) = false ->
  write_commands fm (flat_map (fun lf => field_L_commands (snd lf)) fs)
  = Raise IndexError.
Proof.
  revert fm. induction fs as [|[lead f] fs IH]; intros fm Hfs Hout;
    [discriminate Hout|].
  unfold fields_ok in Hfs. cbn [forallb fst snd] in Hfs.
  rewrite !andb_true_iff in Hfs. destruct Hfs as [[_ Hf] Hfs].
  unfold file_writes in Hout. cbn [flat_map snd] in Hout.
  rewrite writes_in_range_app in Hout.
  destruct f as [ds|ds|pos sep data|text];
    try (cbn [flat_map snd field_L_commands app]; apply IH; [exact Hfs | exact Hout]).
  cbn [flat_map snd field_L_commands app write_commands].
  destruct (writes_in_range (field_writes (FieldL pos sep data))
                            (Z.of_nat (List.length fm))) eqn:E.
  - destruct (write_command_L pos sep data fm Hf E) as (fm1 & Hw1 & Hl1 & _).
    rewrite Hw1. cbn [bind]. apply IH; [exact Hfs|]. now rewrite Hl1.
  - now rewrite write_command_L_overflow.
Qed.

(** X17: a well-formed JEDEC file that is closed by ETX and one of whose
    [L] fields writes past the declared fuse count (its numerals within 4300
    digits) makes [load_jedec] raise [IndexError]: no partial fuse map is
    returned. *)
Theorem load_jedec_write_out_of_range (d : jedec_file) (n : Z) (fuel : nat) :
  file_ok d = true ->
  numerals_short d = true ->
  declared_count (fields d) = Some n ->
  writes_in_range (file_writes (fields d)) n = false ->
  (List.length (text_with_etx d) < fuel)%nat ->
  load_jedec fuel (text_with_etx d) = Some (Raise IndexError).
Proof.
  intros Hok _ Hn Hout Hfuel. rewrite load_jedec_fields by assumption. rewrite Hn.
  f_equal. unfold file_ok in Hok. rewrite !andb_true_iff in Hok.
  destruct Hok as [[_ Hfs] _].
  pose proof (declared_count_nonneg _ _ Hfs Hn) as Hn0.
  apply write_commands_overflow; [exact Hfs|].
  rewrite repeat_length. now replace (Z.of_nat (Z.to_nat n)) with n by lia.
Qed.

Lemma load_jedec_write_out_of_range_witness :
  text_with_etx (mkFile [] [([], FieldQF (lit "4"));
                            ([LF], FieldL (lit "2") [SPACE] (lit "011"))]
                        [LF] [])
  = lit "*QF4*" ++ [LF] ++ lit "L2 011*" ++ [LF; ETX]
  /\ load_jedec 40 (text_with_etx (mkFile [] [([], FieldQF (lit "4"));
                                              ([LF], FieldL (lit "2") [SPACE] (lit "011"))]
                                           [LF] []))
     = Some (Raise IndexError).
Proof.
  split; [reflexivity|]. apply (load_jedec_write_out_of_range _ 4).
  - reflexivity.
  - reflexivity.
  - reflexivity.
  - reflexivity.
  - apply Nat.ltb_lt. vm_compute. reflexivity.
Defined.

(** *** Negative positions *)

Lemma setitem_wrap {A} (l : list A) (i : Z) (v : A) :
  - Z.of_nat (List.length l) <= i < 0 ->
  setitem l i v = Ok (update l (Z.to_nat (i + Z.of_nat (List.length l))) v).
Proof.
  intros Hi. unfold setitem, py_index.
  replace (0 <=? i) with false by (symmetry; apply Z.leb_gt; lia).
  cbn [andb].
  replace (- Z.of_nat (List.length l) <=? i) with true by (symmetry; apply Z.leb_le; lia).
  replace (i <? 0) with true by (symmetry; apply Z.ltb_lt; lia).
  reflexivity.
Qed.

Lemma write_fuses_from_end (cs : str) (p : Z) (fm : fusemap_t) :
  forallb is_digit cs = true ->
  - Z.of_nat (List.length fm) <= p -> p + Z.of_nat (List.length cs) <= 0 ->
  exists fm',
    write_fuses fm (combine (py_range p (p + Z.of_nat (List.length cs))) cs) = Ok fm'
    /\ List.length fm' = List.length fm
    /\ forall q, 0 <= q ->
                 fuse fm' q
                 = if covers q (p + Z.of_nat (List.length fm), map digit_value cs)
                   then written (p + Z.of_nat (List.length fm), map digit_value cs) q
                   else fuse fm q.
Proof.
  revert p fm. induction cs as [|c cs IH]; intros p fm Hd Hp Hlen.
  - exists fm. rewrite py_range_empty by (cbn; lia). cbn [combine write_fuses].
    split; [reflexivity|]. split; [reflexivity|]. intros q Hq.
    replace (covers q (p + Z.of_nat (List.length fm), map digit_value [])) with false;
      [reflexivity|].
    symmetry. apply covers_false. cbn. lia.
  - cbn [forallb] in Hd. apply andb_true_iff in Hd. destruct Hd as [Hc Hd].
    cbn [List.length] in Hlen |- *.
    rewrite py_range_cons by lia. cbn [combine write_fuses].
    rewrite py_int_digit by exact Hc. cbn [bind].
    rewrite setitem_wrap by lia. cbn [bind].
    set (n := Z.of_nat (List.length fm)) in *.
    set (fm1 := update fm (Z.to_nat (p + n)) (digit_value c)).
    assert (Hlen1 : List.length fm1 = List.length fm) by apply update_length.
    destruct (IH (p + 1) fm1 Hd ltac:(rewrite Hlen1; fold n; lia) ltac:(lia))
      as (fm' & Hw & Hl & Hq).
    exists fm'.
    replace (p + Z.of_nat (S (List.length cs)))
      with (p + 1 + Z.of_nat (List.length cs)) by lia.
    split; [exact Hw|]. split; [congruence|].
    intros q Hq0. rewrite (Hq q Hq0). rewrite Hlen1. fold n. unfold fm1.
    rewrite fuse_update by (fold n; lia).
    destruct (covers q (p + 1 + n, map digit_value cs)) eqn:E1;
      destruct (covers q (p + n, map digit_value (c :: cs))) eqn:E2;
      [apply covers_spec in E1; apply covers_spec in E2
      |apply covers_spec in E1; apply covers_false in E2
      |apply covers_false in E1; apply covers_spec in E2
      |apply covers_false in E1; apply covers_false in E2];
      cbn [fst snd map List.length] in E1, E2; rewrite ?length_map in E1, E2.
    + unfold written. cbn [fst snd map].
      replace (Z.to_nat (q - (p + n))) with (S (Z.to_nat (q - (p + 1 + n)))) by lia.
      reflexivity.
    + lia.
    + destruct (Z.eqb_spec q (p + n)) as [->|Hne]; [|lia].
      unfold written. cbn [fst snd map]. now rewrite Z.sub_diag.
    + destruct (Z.eqb_spec q (p + n)) as [->|Hne]; [lia | reflexivity].
Qed.

Lemma split_word_no_blank (w r : str) (c : ascii) :
  forallb (fun c => negb (py_isspace c)) w = true -> py_isspace c = true ->
  split_word (w ++ c :: r) = (w, c :: r).
Proof.
  intros Hw Hc. induction w as [|d w IH].
  - cbn. now rewrite Hc.
  - cbn [forallb] in Hw. apply andb_true_iff in Hw. destruct Hw as [Hd Hw].
    apply negb_true_iff in Hd.
    cbn [app split_word]. rewrite Hd, IH by exact Hw. reflexivity.
Qed.

Lemma py_int_negative (ds : str) :
  is_number ds = true -> py_int ("-"%char :: ds) = Ok (- dec_value ds).
Proof.
  unfold is_number. intros H. apply andb_true_iff in H. destruct H as [Hn Hd].
  unfold py_int. rewrite int_strip_no_blank.
  2:{ cbn [forallb]. now rewrite digits_no_blank. }
  cbn [Ascii.eqb Bool.eqb andb].
  rewrite parse_digits_number by (assumption || now rewrite Hn).
  reflexivity.
Qed.

Lemma py_split1_negative (pos sep data : str) :
  field_ok (FieldL pos sep data) = true ->
  py_split1 (L_command ("-"%char :: pos) sep data)
  = ["-"%char :: pos; map fold_newline data].
Proof.
  cbn [field_ok]. rewrite !andb_true_iff. intros [[[[Hpos Hsep] Hblank] Hfirst] Hdata].
  unfold is_number in Hpos. apply andb_true_iff in Hpos. destruct Hpos as [Hpn Hpd].
  unfold py_split1, L_command.
  destruct sep as [|s sep]; [discriminate Hsep|].
  pose proof (map_fold_blanks _ Hblank) as Hb. cbn [map forallb] in Hb.
  apply andb_true_iff in Hb. destruct Hb as [Hs Hb].
  cbn [app map]. rewrite lstrip_first by reflexivity.
  change ("-"%char :: pos ++ fold_newline s :: map fold_newline sep ++ map fold_newline data)
    with (("-"%char :: pos)
            ++ fold_newline s :: map fold_newline sep ++ map fold_newline data).
  rewrite split_word_no_blank;
    [|cbn [forallb]; now rewrite digits_no_blank | exact Hs].
  cbn [lstrip]. rewrite Hs. rewrite lstrip_blanks by exact Hb.
  destruct data as [|c data]; [discriminate Hfirst|].
  pose proof Hfirst as Hc. apply digit_char in Hc. destruct Hc as (Hc & Hfold & _).
  cbn [map]. rewrite Hfold. rewrite lstrip_first by exact Hc. reflexivity.
Qed.

(** X18: an [L] command with a negative position is not rejected: for
    [L-k] with [k] at most the length of the map and at least the number of
    digits written, the digits are written counted from the end of the map,
    starting at position [len - k], and every other fuse is unchanged. *)
Theorem write_command_negative_position (fm : fusemap_t) (pos sep data : str) :
  field_ok (FieldL pos sep data) = true ->
  Z.of_nat (List.length (filter is_digit data)) <= dec_value pos
  <= Z.of_nat (List.length fm) ->
  exists fm',
    write_command fm (L_command ("-"%char :: pos) sep data) = Ok fm'
    /\ List.length fm' = List.length fm
    /\ forall q, 0 <= q ->
         fuse fm' q
         = fuse_after [(Z.of_nat (List.length fm) - dec_value pos,
                        map digit_value (filter is_digit data))] (fuse fm q) q.
Proof.
  intros Hok Hk. unfold write_command. rewrite py_split1_negative by exact Hok.
  pose proof Hok as Hok'. cbn [field_ok] in Hok'. rewrite !andb_true_iff in Hok'.
  destruct Hok' as [[[[Hpos _] _] _] Hdata].
  rewrite remove_spaces_data by exact Hdata.
  rewrite py_int_negative by exact Hpos. cbn [bind].
  destruct (write_fuses_from_end (filter is_digit data) (- dec_value pos) fm)
    as (fm' & Hw & Hl & Hq).
  - apply forallb_forall. intros c Hc. now apply filter_In in Hc.
  - lia.
  - lia.
  - exists fm'. split; [exact Hw|]. split; [exact Hl|].
    intros q Hq0. rewrite (Hq q Hq0). unfold fuse_after. cbn [fold_left].
    now replace (- dec_value pos + Z.of_nat (List.length fm))
      with (Z.of_nat (List.length fm) - dec_value pos) by lia.
Qed.

Lemma write_command_negative_position_witness :
  exists fm',
    write_command [1; 1; 1; 1] (L_command ("-"%char :: lit "2") [SPACE] (lit "00")) = Ok fm'
    /\ List.length fm' = List.length [1; 1; 1; 1]
    /\ forall q, 0 <= q ->
         fuse fm' q
         = fuse_after [(Z.of_nat (List.length [1; 1; 1; 1]) - dec_value (lit "2"),
                        map digit_value (filter is_digit (lit "00")))]
                      (fuse [1; 1; 1; 1] q) q.
Proof.
  apply (write_command_negative_position [1; 1; 1; 1] (lit "2") [SPACE] (lit "00")).
  - reflexivity.
  - vm_compute. split; discriminate.
Defined.

(** ** Printing *)

Lemma io_for_lines {A} (items : list A) (body : A -> io unit) (line : A -> string) :
  (forall x, In x items -> body x = ([line x], Ok tt)) ->
  io_for items body = (map line items, Ok tt).
Proof.
  induction items as [|x items IH]; intros H; [reflexivity|].
  cbn [io_for map]. unfold io_bind. rewrite (H x) by now left.
  rewrite IH by (intros y Hy; apply H; now right). reflexivity.
Qed.


Lemma io_for_raises {A} (items : list A) (body : A -> io unit) (e : exn) :
  (forall x out e', In x items -> body x = (out, Raise e') -> e' = e) ->
  (exists x out, In x items /\ body x = (out, Raise e)) ->
  exists out, io_for items body = (out, Raise e).
Proof.
  induction items as [|x items IH]; intros Honly (y & o & Hy & Hraise);
    [contradiction Hy|].
  cbn [io_for]. unfold io_bind.
  destruct (body x) as [ox [[]|e']] eqn:Ex.
  - destruct Hy as [<-|Hy]; [rewrite Ex in Hraise; discriminate Hraise|].
    destruct IH as (out & Hout).
    + intros z oz ez Hz. apply Honly. now right.
    + now exists y, o.
    + rewrite Hout. now eexists.
  - rewrite (Honly x ox e' (or_introl eq_refl) Ex). now eexists.
Qed.

Lemma is_term_nonzero_only_IndexError (fm : fusemap_t) (r : Z * Z) (e : exn) :
  is_term_nonzero fm r = Raise e -> e = IndexError.
Proof.
  unfold is_term_nonzero. generalize (py_range_step (fst r) (snd r) 2) as rng.
  induction rng as [|i rng IH]; cbn [is_term_nonzero_loop]; [discriminate|].
  destruct (getitem fm i) as [a|e1] eqn:Ea; cbn [bind];
    [|intros [= <-]; now apply (getitem_only_IndexError fm i)].
  destruct (a =? 0); [|exact IH].
  destruct (getitem fm (i + 1)) as [b|e1] eqn:Eb; cbn [bind];
    [|intros [= <-]; now apply (getitem_only_IndexError fm (i + 1))].
  destruct (b =? 0); [discriminate | exact IH].
Qed.

Lemma ac1_and_xor_clear_only_IndexError (self : PALBase) (cfg : G16V8xx.OLMC) (e : exn) :
  G16V8xx.ac1_and_xor_clear self cfg = Raise e -> e = IndexError.
Proof.
  unfold G16V8xx.ac1_and_xor_clear.
  destruct (getitem (fusemap self) (G16V8xx.ac1_fuse cfg)) as [a|e1] eqn:Ea; cbn [bind];
    [|intros [= <-]; now apply (getitem_only_IndexError _ _ _ Ea)].
  destruct (a =? 0); [|discriminate].
  destruct (getitem (fusemap self) (G16V8xx.xor_fuse cfg)) as [b|e1] eqn:Eb; cbn [bind];
    [discriminate | intros [= <-]; now apply (getitem_only_IndexError _ _ _ Eb)].
Qed.

Lemma is_out_inverted_only_IndexError (v : variant) (self : PALBase) (p : Z) (e : exn) :
  is_out_inverted (class_of v) self p = Raise e -> e = IndexError.
Proof.
  destruct v; cbn [class_of is_out_inverted];
    unfold P16L8.is_out_inverted, G16V8AS.is_out_inverted, G16V8MA.is_out_inverted,
      G16V8MS.is_out_inverted.
  - destruct (find _ P16L8.macrocell_config) as [cfg|]; [|discriminate].
    apply is_term_nonzero_only_IndexError.
  - destruct (G16V8xx.find_config p) as [cfg|]; [|discriminate].
    apply ac1_and_xor_clear_only_IndexError.
  - destruct (G16V8xx.find_config p) as [cfg|]; [|discriminate].
    destruct (is_term_nonzero (fusemap self) (G16V8xx.oe_fuses cfg)) as [[|]|e1] eqn:El;
      cbn [bind]; [| discriminate
                    | intros [= <-]; now apply (is_term_nonzero_only_IndexError _ _ _ El)].
    destruct (getitem (fusemap self) (G16V8xx.xor_fuse cfg)) as [b|e1] eqn:Eb; cbn [bind];
      [discriminate | intros [= <-]; now apply (getitem_only_IndexError _ _ _ Eb)].
  - destruct (G16V8xx.find_config p) as [cfg|]; [|discriminate].
    apply ac1_and_xor_clear_only_IndexError.
Qed.

Lemma inverted_only_IndexError (x : string) (e : exn) :
  inverted x = Raise e -> e = IndexError.
Proof.
  destruct x as [|c x]; cbn [inverted]; [now intros [= <-]|].
  destruct (Ascii.eqb c "!"); discriminate.
Qed.

Lemma print_pin_decl_only_IndexError (d : device) (p : Z) (out : list string) (e : exn) :
  print_pin_decl d p = (out, Raise e) -> e = IndexError.
Proof.
  unfold print_pin_decl, io_bind, lift, print.
  destruct (get_pin_name (self_of d) p) as [name|e1] eqn:En;
    [|intros [= _ <-]; now apply (getitem_only_IndexError _ _ _ En)].
  destruct name as [|c name]; [discriminate|].
  destruct (is_out_inverted (class_of (kind d)) (self_of d) p) as [inv|e1] eqn:Ei;
    [|intros [= _ <-]; now apply (is_out_inverted_only_IndexError _ _ _ _ Ei)].
  destruct inv.
  - destruct (inverted (String c name)) as [iname|e1] eqn:Ev;
      [discriminate | intros [= _ <-]; now apply (inverted_only_IndexError _ _ Ev)].
  - discriminate.
Qed.

Lemma pin_count_20 (v : variant) : pin_count (class_of v) = 20.
Proof. now destruct v. Qed.

(** X19: with a pin map of fewer than 20 names (a pin file of fewer than
    20 lines), [generate_printout] fails with [IndexError] while declaring
    the pins, whatever the device and the fuse map. *)
Theorem generate_printout_short_pinmap (d : device) :
  (List.length (pinmap (self_of d)) < 20)%nat ->
  exists out, generate_printout d = (out, Raise IndexError).
Proof.
  intros Hshort. unfold generate_printout. rewrite pin_count_20.
  destruct (io_for_raises (py_range 1 (20 + 1)) (print_pin_decl d) IndexError)
    as (out & Hout).
  - intros p o e' _ H. now apply (print_pin_decl_only_IndexError d p o).
  - exists (Z.of_nat (List.length (pinmap (self_of d))) + 1), [].
    split; [apply py_range_In; lia|].
    unfold print_pin_decl, get_pin_name.
    rewrite getitem_out_of_range by lia. reflexivity.
  - exists out. unfold io_bind at 1. now rewrite Hout.
Qed.

Lemma generate_printout_short_pinmap_witness :
  exists out,
    generate_printout (mkDevice PAL16L8 (PALBase_init pal_two_fuses (Some ["A"; "B"]%string)))
    = (out, Raise IndexError).
Proof.
  apply (generate_printout_short_pinmap
           (mkDevice PAL16L8 (PALBase_init pal_two_fuses (Some ["A"; "B"]%string)))).
  cbn. lia.
Defined.

(** *** A full-size fuse map and a complete pin map *)


















Lemma find_config_other_pins (p : Z) :
  p < 12 \/ 19 < p -> G16V8xx.find_config p = None.
Proof.
  intros Hp. unfold G16V8xx.find_config, G16V8xx.macrocell_config.
  cbn [find G16V8xx.pin].
  repeat match goal with
         | |- context [?a =? p] => destruct (Z.eqb_spec a p) as [E|_]; [lia|]
         end.
  reflexivity.
Qed.

(** X21: for every device class, a pin that has no macrocell (any pin
    other than 12 to 19) is reported as not inverted, without any fuse being
    read: the answer is [False] on every fuse map, even an empty one. *)
Theorem is_out_inverted_other_pins (v : variant) (self : PALBase) (p : Z) :
  p < 12 \/ 19 < p -> is_out_inverted (class_of v) self p = Ok false.
Proof.
  intros Hp. destruct v; cbn [class_of is_out_inverted];
    unfold P16L8.is_out_inverted, G16V8AS.is_out_inverted, G16V8MA.is_out_inverted,
      G16V8MS.is_out_inverted; rewrite ?find_config_other_pins by exact Hp;
    try reflexivity.
  unfold P16L8.macrocell_config. cbn [find P16L8.pin].
  repeat match goal with
         | |- context [?a =? p] => destruct (Z.eqb_spec a p) as [E|_]; [lia|]
         end.
  reflexivity.
Qed.

Lemma is_out_inverted_other_pins_witness :
  is_out_inverted (class_of GAL16V8_Complex) (PALBase_init [] None) 11 = Ok false.
Proof.
  apply (is_out_inverted_other_pins GAL16V8_Complex (PALBase_init [] None) 11). lia.
Defined.
